(** * SETS: the Self-Evolving Test Suite engine of API-QA-Weaver

    A shallow embedding of [sets/src/CodeAnalyzer.ts], of the [TestGenerator]
    class and of the [SelfEvolvingTestSuite] orchestrator, with the
    properties of the specification stated over it.

    Conventions.
    - JavaScript strings are [string]s (sequences of 8-bit code units).
    - A file-system path is the list of its segments; [path.join dir name]
      is [dir ++ [name]] and [path.dirname] drops the last segment.
    - Numbers that hold coverage percentages are exact rationals ([Q]);
      the rounding of IEEE doubles is not modelled.
    - Methods run in a state-and-exception monad over one [World]: the
      mutable fields of the three classes, the file system and the console.
      An exception keeps the mutations made before it, as in JavaScript.
    - Third-party code (the Babel parser, the OpenAI client, simple-git)
      and the method [evolveTestSuite] of the [TestEvolver] class enter
      through their interfaces, as the variables of a section. *)

From Stdlib Require Import Ascii String QArith.
From stdpp Require Import gmap strings list pretty.

Set Warnings "-register-all".

Local Open Scope string_scope.
Local Open Scope list_scope.

(** ** Strings *)

Module Str.

Definition dquote : ascii := "034"%char.
Definition squote : ascii := "'"%char.

(** [s.startsWith(p)], returning what follows the prefix. *)
Fixpoint strip_prefix (p s : string) : option string :=
  match p with
  | EmptyString => Some s
  | String a p' =>
      match s with
      | EmptyString => None
      | String b s' => if Ascii.eqb a b then strip_prefix p' s' else None
      end
  end.

Definition startsWith (s p : string) : bool :=
  match strip_prefix p s with Some _ => true | None => false end.

(** [s.includes(t)]: [t] occurs in [s] as a contiguous substring. *)
Fixpoint includes (s t : string) : bool :=
  startsWith s t ||
  match s with
  | EmptyString => false
  | String _ s' => includes s' t
  end.

Definition endsWith (s suffix : string) : bool :=
  let n := String.length s in
  let k := String.length suffix in
  (k <=? n)%nat && String.eqb (substring (n - k) k s) suffix.

Definition is_lower (c : ascii) : bool :=
  let n := nat_of_ascii c in (97 <=? n)%nat && (n <=? 122)%nat.
Definition is_upper (c : ascii) : bool :=
  let n := nat_of_ascii c in (65 <=? n)%nat && (n <=? 90)%nat.
Definition is_digit (c : ascii) : bool :=
  let n := nat_of_ascii c in (48 <=? n)%nat && (n <=? 57)%nat.

Fixpoint map_chars (f : ascii -> ascii) (s : string) : string :=
  match s with
  | EmptyString => EmptyString
  | String c s' => String (f c) (map_chars f s')
  end.

Definition upper_char (c : ascii) : ascii :=
  if is_lower c then ascii_of_nat (nat_of_ascii c - 32) else c.

(** [s.toUpperCase()] on the ASCII letters. *)
Definition toUpperCase : string -> string := map_chars upper_char.

(** [s.replace(/[^a-zA-Z0-9]/g, '_')]. *)
Definition sanitize_char (c : ascii) : ascii :=
  if is_lower c || is_upper c || is_digit c then c else "_"%char.
Definition sanitize : string -> string := map_chars sanitize_char.

(** Truthiness of a string value: the empty string is falsy. *)
Definition truthy (s : string) : bool :=
  match s with EmptyString => false | _ => true end.

End Str.

(** ** Data model *)

(** Modelled from the spec: the declarations of [sets/src/types.ts] are
    missing from the sources.  The records below have the fields that the
    spec gives to each entity (section 3) and that the code reads or
    writes.

    [APIEndpoint]: [{ path, method, description? }]. *)
Record APIEndpoint := mkEndpoint {
  ep_path : string;
  ep_method : string;
  ep_description : option string
}.

(** Modelled from the spec: [Change] of the missing [types.ts], a tagged
    record [{ type: 'endpoint', path, before?, after? }]. *)
Record Change := mkChange {
  ch_type : string;
  ch_path : string;
  ch_before : option APIEndpoint;
  ch_after : option APIEndpoint
}.

Inductive CodeChangeType := added | modified | deleted.

(** Modelled from the spec: [CodeChange] of the missing [types.ts],
    [{ file, type, changes, timestamp }]. *)
Record CodeChange := mkCodeChange {
  cc_file : list string;
  cc_type : CodeChangeType;
  cc_changes : list Change;
  cc_timestamp : nat
}.

(** Modelled from the spec: [TestCase] of the missing [types.ts], with the
    fields read by the orchestrator; [input] and [assertions] are read by
    the template generator only, which is a parameter below. *)
Record TestCase := mkTestCase {
  tc_id : string;
  tc_name : string;
  tc_endpoint : APIEndpoint;
  tc_autoGenerated : bool
}.

Inductive ActionType := act_added | act_updated | act_removed.

(** Modelled from the spec: one action of an evolution,
    [{ type, reason, details }], of the missing [types.ts]. *)
Record EvolutionAction := mkAction {
  act_type : ActionType;
  act_reason : string;
  act_details : TestCase
}.

Record Coverage := mkCoverage { cov_before : Q; cov_after : Q }.

(** Modelled from the spec: the evolution record of the missing
    [types.ts], which is also the entry kept in the history. *)
Record Evolution := mkEvolution {
  ev_version : nat;
  ev_reason : string;
  ev_changes : list EvolutionAction;
  ev_coverage : Coverage;
  ev_timestamp : nat
}.

(** Modelled from the spec: [EvolutionConfig] of the missing [types.ts],
    with the fields that the orchestrator reads. *)
Record EvolutionConfig := mkConfig {
  watchPaths : list (list string);
  testPaths : list (list string);
  coverageTarget : Q;
  gitEnabled : bool;
  openaiApiKey : option string
}.

(** The display string [`${e.method} ${e.path}`]. *)
Definition display (e : APIEndpoint) : string :=
  ep_method e +:+ " " +:+ ep_path e.

(** The identity test of the diff:
    [e.path === c.path && e.method === c.method]. *)
Definition same_endpoint (c e : APIEndpoint) : bool :=
  String.eqb (ep_path e) (ep_path c) && String.eqb (ep_method e) (ep_method c).

(** ** The file system *)

Module Fs.

Definition fspath := list string.

Inductive Node :=
| File (content : string)
| Dir (entries : list (string * Node)).

Definition show (p : fspath) : string := String.concat "/" p.

Fixpoint assoc {A} (name : string) (es : list (string * A)) : option A :=
  match es with
  | [] => None
  | (n, a) :: es' => if String.eqb n name then Some a else assoc name es'
  end.

(** Replace the entry called [name], or append it when there is none. *)
Fixpoint set_entry {A} (name : string) (a : A) (es : list (string * A))
  : list (string * A) :=
  match es with
  | [] => [(name, a)]
  | (n, b) :: es' =>
      if String.eqb n name then (n, a) :: es' else (n, b) :: set_entry name a es'
  end.

Fixpoint remove_entry {A} (name : string) (es : list (string * A))
  : list (string * A) :=
  match es with
  | [] => []
  | (n, b) :: es' =>
      if String.eqb n name then es' else (n, b) :: remove_entry name es'
  end.

Fixpoint lookup (n : Node) (p : fspath) {struct p} : option Node :=
  match p with
  | [] => Some n
  | seg :: rest =>
      match n with
      | File _ => None
      | Dir es =>
          match assoc seg es with
          | Some child => lookup child rest
          | None => None
          end
      end
  end.

Definition existsSync (root : Node) (p : fspath) : bool :=
  match lookup root p with Some _ => true | None => false end.

(** [fs.writeFileSync]: the parent directory has to exist and the target
    must not be a directory; the file is created or overwritten. *)
Fixpoint write (n : Node) (p : fspath) (c : string) {struct p} : option Node :=
  match p with
  | [] => match n with File _ => Some (File c) | Dir _ => None end
  | seg :: rest =>
      match n with
      | File _ => None
      | Dir es =>
          match assoc seg es with
          | Some child =>
              match write child rest c with
              | Some child' => Some (Dir (set_entry seg child' es))
              | None => None
              end
          | None =>
              match rest with
              | [] => Some (Dir (set_entry seg (File c) es))
              | _ :: _ => None
              end
          end
      end
  end.

(** [fs.mkdirSync(p, { recursive: true })]. *)
Fixpoint mkdirp (n : Node) (p : fspath) {struct p} : option Node :=
  match p with
  | [] => match n with Dir _ => Some n | File _ => None end
  | seg :: rest =>
      match n with
      | File _ => None
      | Dir es =>
          let child := match assoc seg es with Some c => c | None => Dir [] end in
          match mkdirp child rest with
          | Some child' => Some (Dir (set_entry seg child' es))
          | None => None
          end
      end
  end.

(** What an [unlink] does to the tree (done by the outside world). *)
Fixpoint unlink (n : Node) (p : fspath) {struct p} : Node :=
  match p, n with
  | [seg], Dir es => Dir (remove_entry seg es)
  | seg :: rest, Dir es =>
      match assoc seg es with
      | Some child => Dir (set_entry seg (unlink child rest) es)
      | None => n
      end
  | _, _ => n
  end.

(** [path.dirname]. *)
Definition dirname (p : fspath) : fspath := removelast p.

(** [path.extname] (Node, POSIX): the part of the last segment from its
    last dot on; empty when there is no dot, when the only dot is the
    first character, or when the segment is [".."]. *)
Fixpoint last_dot (s : string) : option string :=
  match s with
  | EmptyString => None
  | String c s' =>
      match last_dot s' with
      | Some e => Some e
      | None => if Ascii.eqb c "."%char then Some s else None
      end
  end.

Definition extname_base (base : string) : string :=
  match base with
  | EmptyString => EmptyString
  | String _ tl =>
      if String.eqb base ".." then EmptyString
      else match last_dot tl with Some e => e | None => EmptyString end
  end.

Definition extname (p : fspath) : string :=
  extname_base (List.last p EmptyString).

End Fs.

(** ** The world and the monad of methods *)

Inductive Error :=
| FsError (code : string) (p : Fs.fspath)
| TypeError (msg : string)
| SyntaxError (msg : string)
| ExternalError (msg : string).

(** A line of the console. *)
Inductive LogEntry :=
| LogInfo (msg : string)
| LogError (msg : string) (e : Error)
| LogCoverage (before after : Q).

(** The store of the [TestEvolver]: its test cases and its history. *)
Record EvolverState := mkEvolver {
  testCases : list TestCase;
  evolutionHistory : list Evolution
}.

Record World := mkWorld {
  fs : Fs.Node;
  clock : nat;
  console : list LogEntry;
  endpointCache : gmap (list string) (list APIEndpoint);
  fileSnapshots : gmap (list string) string;
  isEvolving : bool;
  testEvolver : EvolverState;
  commits : list string
}.

Definition set_fs (f : Fs.Node) (w : World) : World :=
  mkWorld f (clock w) (console w) (endpointCache w) (fileSnapshots w)
          (isEvolving w) (testEvolver w) (commits w).
Definition set_console (c : list LogEntry) (w : World) : World :=
  mkWorld (fs w) (clock w) c (endpointCache w) (fileSnapshots w)
          (isEvolving w) (testEvolver w) (commits w).
Definition set_endpointCache (c : gmap (list string) (list APIEndpoint)) (w : World) : World :=
  mkWorld (fs w) (clock w) (console w) c (fileSnapshots w)
          (isEvolving w) (testEvolver w) (commits w).
Definition set_fileSnapshots (m : gmap (list string) string) (w : World) : World :=
  mkWorld (fs w) (clock w) (console w) (endpointCache w) m
          (isEvolving w) (testEvolver w) (commits w).
Definition set_isEvolving (b : bool) (w : World) : World :=
  mkWorld (fs w) (clock w) (console w) (endpointCache w) (fileSnapshots w)
          b (testEvolver w) (commits w).
Definition set_testEvolver (e : EvolverState) (w : World) : World :=
  mkWorld (fs w) (clock w) (console w) (endpointCache w) (fileSnapshots w)
          (isEvolving w) e (commits w).
Definition set_commits (c : list string) (w : World) : World :=
  mkWorld (fs w) (clock w) (console w) (endpointCache w) (fileSnapshots w)
          (isEvolving w) (testEvolver w) c.

Inductive Result (A : Type) :=
| Ok (a : A)
| Throw (e : Error).
Arguments Ok {A} a.
Arguments Throw {A} e.

Definition M (A : Type) : Type := World -> Result A * World.

Definition ret {A} (a : A) : M A := fun w => (Ok a, w).
Definition throw {A} (e : Error) : M A := fun w => (Throw e, w).

Definition bind {A B} (m : M A) (k : A -> M B) : M B :=
  fun w =>
    match m w with
    | (Ok a, w') => k a w'
    | (Throw e, w') => (Throw e, w')
    end.

Declare Scope sets_scope.
Delimit Scope sets_scope with sets.
Notation "x <- m ;; k" := (bind m (fun x => k))
  (at level 100, m at next level, right associativity) : sets_scope.
Notation "m ;;; k" := (bind m (fun _ => k))
  (at level 100, right associativity) : sets_scope.
Local Open Scope sets_scope.

Definition gets {A} (f : World -> A) : M A := fun w => (Ok (f w), w).
Definition modify (f : World -> World) : M unit := fun w => (Ok tt, f w).

(** [try { m } catch (error) { h error }]. *)
Definition try_catch {A} (m : M A) (h : Error -> M A) : M A :=
  fun w =>
    match m w with
    | (Ok a, w') => (Ok a, w')
    | (Throw e, w') => h e w'
    end.

(** [try { m } finally { f }]: [f] runs on both exits; the outcome of [m]
    stands unless [f] throws. *)
Definition try_finally {A} (m : M A) (f : M unit) : M A :=
  fun w =>
    match m w with
    | (r, w') =>
        match f w' with
        | (Ok _, w'') => (r, w'')
        | (Throw e, w'') => (Throw e, w'')
        end
    end.

(** [for (const x of l) { await f x }]. *)
Fixpoint forM_ {A} (l : list A) (f : A -> M unit) : M unit :=
  match l with
  | [] => ret tt
  | x :: l' => f x ;;; forM_ l' f
  end.

Definition console_log (msg : string) : M unit :=
  modify (fun w => set_console (console w ++ [LogInfo msg]) w).
Definition console_error (msg : string) (e : Error) : M unit :=
  modify (fun w => set_console (console w ++ [LogError msg e]) w).

(** [new Date()]. *)
Definition newDate : M nat := gets clock.

(** [fs.readFileSync(p, 'utf-8')]. *)
Definition readFileSync (p : Fs.fspath) : M string :=
  fun w =>
    match Fs.lookup (fs w) p with
    | Some (Fs.File c) => (Ok c, w)
    | Some (Fs.Dir _) => (Throw (FsError "EISDIR" p), w)
    | None => (Throw (FsError "ENOENT" p), w)
    end.

Definition writeFileSync (p : Fs.fspath) (c : string) : M unit :=
  fun w =>
    match Fs.write (fs w) p c with
    | Some f => (Ok tt, set_fs f w)
    | None => (Throw (FsError "EWRITE" p), w)
    end.

Definition mkdirSync_recursive (p : Fs.fspath) : M unit :=
  fun w =>
    match Fs.mkdirp (fs w) p with
    | Some f => (Ok tt, set_fs f w)
    | None => (Throw (FsError "EEXIST" p), w)
    end.

(** ** The Python recogniser (regular expressions of [analyzePython]) *)

Module PyRoutes.

Definition http_methods : list string := ["get"; "post"; "put"; "delete"; "patch"].

Definition is_quote (c : ascii) : bool :=
  Ascii.eqb c Str.squote || Ascii.eqb c Str.dquote.

(** The greedy run over the negated class of the two quote characters
    (group 2): the longest prefix without a quote, and what
    follows it.  What follows in the pattern is a quote, so no shorter run
    can match where the longest one does not. *)
Fixpoint span_nonquote (s : string) : string * string :=
  match s with
  | EmptyString => (EmptyString, EmptyString)
  | String c s' =>
      if is_quote c then (EmptyString, s)
      else let (run, rest) := span_nonquote s' in (String c run, rest)
  end.

(** The tail of the pattern at the start of [s]: an opening parenthesis,
    a quote of either kind, group 2, a quote of either kind, a closing
    parenthesis.  Gives group 2 and the number of characters matched. *)
Definition match_args (s : string) : option (string * nat) :=
  match s with
  | String "("%char (String q s1) =>
      if is_quote q then
        match span_nonquote s1 with
        | (String c run, String q' (String ")"%char _)) =>
            if is_quote q' then Some (String c run, 4 + String.length (String c run))%nat
            else None
        | _ => None
        end
      else None
  | _ => None
  end.

(** The alternation [(get|post|put|delete|patch)], tried in order, each
    alternative with the rest of the pattern. *)
Fixpoint match_method (ms : list string) (s : string) : option (string * string * nat) :=
  match ms with
  | [] => None
  | m :: ms' =>
      match Str.strip_prefix m s with
      | Some rest =>
          match match_args rest with
          | Some (p, n) => Some (m, p, (String.length m + n)%nat)
          | None => match_method ms' s
          end
      | None => match_method ms' s
      end
  end.

(** The whole pattern at the start of [s], for the object name [obj]
    ([app] or [router]): groups 1 and 2 and the length of the match. *)
Definition match_here (obj s : string) : option (string * string * nat) :=
  let pre := "@" +:+ obj +:+ "." in
  match Str.strip_prefix pre s with
  | Some rest =>
      match match_method http_methods rest with
      | Some (m, p, n) => Some (m, p, (String.length pre + n)%nat)
      | None => None
      end
  | None => None
  end.

(** The loop [while ((match = pattern.exec(content)) !== null)] of a
    global pattern: the leftmost match from [lastIndex] on, then on from
    the end of that match.  [skip] is the distance to [lastIndex]. *)
Fixpoint exec_all (obj : string) (skip : nat) (s : string) {struct s}
  : list (string * string) :=
  match s with
  | EmptyString => []
  | String _ s' =>
      match skip with
      | S k => exec_all obj k s'
      | O =>
          match match_here obj s with
          | Some (m, p, n) => (m, p) :: exec_all obj (n - 1) s'
          | None => exec_all obj 0 s'
          end
      end
  end.

End PyRoutes.

Definition nl : string := String "010"%char EmptyString.

(** ** The syntax trees handed to the visitors of [analyzeJavaScript] *)

Module Ast.

(** The node kinds the two visitors inspect; every other kind is
    [Other]. *)
Inductive Node :=
| Identifier (name : string)
| StringLiteral (value : string)
| MemberExpression (object property : Node)
| CallExpression (callee : Node) (arguments : list Node)
| Decorator (expression : Node)
| Other.

(** A path of the traversal: the node and its [leadingComments]. *)
Record NodePath := mkPath {
  node : Node;
  leadingComments : list string
}.

End Ast.

(** The world in which the [try] block of [handleFileChange] starts. *)
Definition enter (filePath : Fs.fspath) (event : string) (w : World) : World :=
  set_isEvolving true
    (set_console (console w ++ [LogInfo ("File " +:+ event +:+ ": " +:+ Fs.show filePath)]) w).

(** The world that a dropped invocation leaves. *)
Definition dropped (w : World) : World :=
  set_console (console w ++ [LogInfo "Evolution already in progress, queuing change..."]) w.

(** ** Sample data for the examples *)

Module Sample.

Definition users_route : Ast.NodePath :=
  Ast.mkPath
    (Ast.CallExpression
       (Ast.MemberExpression (Ast.Identifier "app") (Ast.Identifier "get"))
       [Ast.StringLiteral "/users"; Ast.Identifier "h"])
    [].

(** A parser that knows one program and rejects another. *)
Definition babel (content : string) : Result (list Ast.NodePath) :=
  if String.eqb content "app.get('/users', h)" then Ok [users_route]
  else if String.eqb content "app.get(" then Throw (SyntaxError "Unexpected token")
  else Ok [].

Definition this_extractDescription (p : Ast.NodePath) : Result string := Ok "".

Definition openai_down (tc : TestCase) : Result (option string) :=
  Throw (ExternalError "connect ECONNREFUSED").

Definition template (tc : TestCase) : string :=
  "// " +:+ display (tc_endpoint tc).

Definition config : EvolutionConfig :=
  mkConfig [["src"]] [["tests"]] 80 false None.

Definition config_ai : EvolutionConfig :=
  mkConfig [["src"]] [["tests"]] 80 false (Some "sk-test").

(** A test directory given as a single file. *)
Definition config_file : EvolutionConfig :=
  mkConfig [["src"]] [["tests"; "suite.js"]] 80 false None.

(** An evolver that adds one test case for each added endpoint. *)
Definition evolver (st : EvolverState) (changes : list CodeChange) (current target : Q)
  : Result Evolution * EvolverState :=
  let actions :=
    flat_map (fun cc =>
      flat_map (fun ch =>
        match ch_after ch with
        | Some e => [mkAction act_added ("New endpoint detected: " +:+ display e)
                       (mkTestCase (display e) ("Test " +:+ display e) e true)]
        | None => []
        end) (cc_changes cc)) changes in
  let evolution :=
    mkEvolution (S (length (evolutionHistory st))) "Code changes detected" actions
                (mkCoverage current current) 0 in
  (Ok evolution,
   mkEvolver (testCases st ++ map act_details actions) (evolutionHistory st ++ [evolution])).

Definition json (history : list Evolution) : string := "[]".

Definition git (message : string) : Result unit := Ok tt.

Definition api_py : string :=
  "@app.get('/users')" +:+ nl +:+ "@app.post('/users')".

Definition root : Fs.Node :=
  Fs.Dir
    [("src", Fs.Dir [("app.js", Fs.File "app.get('/users', h)");
                     ("api.py", Fs.File api_py);
                     ("empty.py", Fs.File "");
                     ("gone.py", Fs.File "@app.get('/x')");
                     ("README.md", Fs.File "# API")]);
     ("tests", Fs.Dir [("users.test.js", Fs.File "test('GET /users', () => {});");
                       ("orders.spec.js", Fs.File "test('GET /orders', () => {});")])].

Definition world : World :=
  mkWorld root 0 [] ∅ ∅ false (mkEvolver [] []) [].

(** The same world while a cycle for [src/app.js] is in flight: the guard
    is set and the cycle is suspended at an [await]. *)
Definition busy : World := enter ["src"; "app.js"] "change" world.

(** The world after [src/gone.py], whose snapshot had been taken, was
    unlinked. *)
Definition after_unlink : World :=
  set_fs (Fs.unlink root ["src"; "gone.py"])
         (set_fileSnapshots (<[["src"; "gone.py"] := "@app.get('/x')"]> ∅) world).

(** A tree whose only test file is the configured test path itself. *)
Definition root_file : Fs.Node :=
  Fs.Dir [("src", Fs.Dir []);
          ("tests", Fs.Dir [("suite.js", Fs.File "test('GET /users', () => {});")])].

(** A tree whose only test file lies in [node_modules]. *)
Definition root_hidden : Fs.Node :=
  Fs.Dir [("src", Fs.Dir []);
          ("tests", Fs.Dir [("node_modules",
                             Fs.Dir [("dep.test.js", Fs.File "test('GET /users')")])])].

Definition get_users : TestCase :=
  mkTestCase "t1" "List users" (mkEndpoint "/users" "GET" None) true.

Definition post_users : TestCase :=
  mkTestCase "t2" "Create user" (mkEndpoint "/users" "POST" None) true.

End Sample.

(** ** Further sample data *)

Module Scenario.

(** A visitor context without [extractDescription]. *)
Definition unbound_this (p : Ast.NodePath) : Result string :=
  Throw (TypeError "this.extractDescription is not a function").

Definition git_down (message : string) : Result unit :=
  Throw (ExternalError "not a git repository").

Definition config_git : EvolutionConfig :=
  mkConfig [["src"]] [["tests"]] 80 true None.

(** A configuration whose test directory does not exist yet. *)
Definition config_fresh : EvolutionConfig :=
  mkConfig [["src"]] [["generated"; "tests"]] 80 false None.

(** A configuration without test paths. *)
Definition config_no_tests : EvolutionConfig :=
  mkConfig [["src"]] [] 80 false None.

(** A source tree with nested, hidden and vendored directories. *)
Definition root : Fs.Node :=
  Fs.Dir
    [("src", Fs.Dir [("app.js", Fs.File "app.get('/users', h)");
                     ("view.tsx", Fs.File "export const V = 1");
                     ("notes.txt", Fs.File "todo");
                     ("routes", Fs.Dir [("api.py", Fs.File Sample.api_py)]);
                     ("node_modules", Fs.Dir [("dep.js", Fs.File "app.get('/users', h)")]);
                     (".cache", Fs.Dir [("old.py", Fs.File "@app.get('/old')")])]);
     ("tests", Fs.Dir [("users.test.js", Fs.File "test('GET /users', () => {});");
                       ("all.test.js",
                        Fs.File "test('GET /users', () => {}); test('POST /users')");
                       (".evolution-history.json", Fs.File "[]")])].

Definition world : World :=
  mkWorld root 0 [] ∅ ∅ false (mkEvolver [] []) [].

(** The world of the samples with the snapshot of [src/api.py] taken. *)
Definition watched : World :=
  set_fileSnapshots (<[["src"; "api.py"] := Sample.api_py]> ∅) Sample.world.

Definition get_user : APIEndpoint := mkEndpoint "/users/{id}" "GET" None.
Definition get_users : APIEndpoint := mkEndpoint "/users" "GET" None.

Definition put_users : TestCase :=
  mkTestCase "t3" "Replace users" (mkEndpoint "/users" "PUT" None) false.
Definition get_orders : TestCase :=
  mkTestCase "t4" "List orders" (mkEndpoint "/orders" "GET" None) true.

End Scenario.

(** ** A nested test tree *)

Module Nested.

(** A test directory with test files at several depths, next to a hidden
    and a vendored directory. *)
Definition root : Fs.Node :=
  Fs.Dir
    [("src", Fs.Dir [("app.js", Fs.File "app.get('/users', h)")]);
     ("tests",
      Fs.Dir
        [("unit", Fs.Dir [("api", Fs.Dir [("users.test.js",
                                           Fs.File "test('GET /users', () => {});")]);
                          ("helper.js", Fs.File "module.exports = {}")]);
         ("e2e", Fs.Dir [("orders.spec.js", Fs.File "test('GET /orders', () => {});")]);
         ("node_modules", Fs.Dir [("dep.test.js", Fs.File "test('GET /users')")]);
         (".cache", Fs.Dir [("old.spec.js", Fs.File "test('GET /users')")])])].

Definition world : World :=
  mkWorld root 0 [] ∅ ∅ false (mkEvolver [] []) [].

(** Two endpoints with one path and two methods, added to one file. *)
Definition users_added : CodeChange :=
  mkCodeChange ["src"; "api.py"] added
    [mkChange "endpoint" "GET /users" None (Some (mkEndpoint "/users" "GET" None));
     mkChange "endpoint" "POST /users" None (Some (mkEndpoint "/users" "POST" None))]
    0.

(** An endpoint of another path, added to another file. *)
Definition orders_added : CodeChange :=
  mkCodeChange ["src"; "orders.py"] added
    [mkChange "endpoint" "GET /orders" None (Some (mkEndpoint "/orders" "GET" None))]
    0.


End Nested.

Definition Qnat (n : nat) : Q := inject_Z (Z.of_nat n).

Definition in_list (x : string) (l : list string) : bool :=
  existsb (String.eqb x) l.

Section Engine.

Set Default Proof Using "Type".

(** [parser.parse] followed by [traverse]: the paths on which a visitor
    fires, in the order of the traversal, or the error of the parser. *)
Variable babel : string -> Result (list Ast.NodePath).

(** The call [this.extractDescription(path)] made inside a visitor, where
    the traversal decides what [this] is. *)
Variable this_extractDescription : Ast.NodePath -> Result string.

(** *** CodeAnalyzer *)

(** The [CallExpression] visitor, on the array [endpoints]. *)
Definition visitCallExpression (p : Ast.NodePath) (endpoints : list APIEndpoint)
  : Result (list APIEndpoint) :=
  match Ast.node p with
  | Ast.CallExpression (Ast.MemberExpression _ (Ast.Identifier name)) args =>
      if in_list name ["get"; "post"; "put"; "delete"; "patch"] then
        match args with
        | Ast.StringLiteral value :: _ :: _ =>
            match this_extractDescription p with
            | Ok d => Ok (endpoints ++ [mkEndpoint value (Str.toUpperCase name) (Some d)])
            | Throw e => Throw e
            end
        | _ => Ok endpoints
        end
      else Ok endpoints
  | _ => Ok endpoints
  end.

(** The [Decorator] visitor. *)
Definition visitDecorator (p : Ast.NodePath) (endpoints : list APIEndpoint)
  : Result (list APIEndpoint) :=
  match Ast.node p with
  | Ast.Decorator (Ast.CallExpression (Ast.Identifier name) args) =>
      if in_list name ["Get"; "Post"; "Put"; "Delete"; "Patch"] then
        match args with
        | Ast.StringLiteral value :: _ =>
            match this_extractDescription p with
            | Ok d => Ok (endpoints ++ [mkEndpoint value (Str.toUpperCase name) (Some d)])
            | Throw e => Throw e
            end
        | _ => Ok endpoints
        end
      else Ok endpoints
  | _ => Ok endpoints
  end.

Definition visit (p : Ast.NodePath) (endpoints : list APIEndpoint)
  : Result (list APIEndpoint) :=
  match Ast.node p with
  | Ast.CallExpression _ _ => visitCallExpression p endpoints
  | Ast.Decorator _ => visitDecorator p endpoints
  | _ => Ok endpoints
  end.

(** [traverse(ast, visitors)]: the array as the traversal left it, and the
    error that stopped it, if one did. *)
Fixpoint traverse (paths : list Ast.NodePath) (endpoints : list APIEndpoint)
  : list APIEndpoint * option Error :=
  match paths with
  | [] => (endpoints, None)
  | p :: rest =>
      match visit p endpoints with
      | Ok endpoints' => traverse rest endpoints'
      | Throw e => (endpoints, Some e)
      end
  end.

(** The body of the [try] block of [analyzeJavaScript]: it mutates the
    local array only. *)
Definition parse_and_traverse (content : string) : list APIEndpoint * option Error :=
  match babel content with
  | Ok paths => traverse paths []
  | Throw e => ([], Some e)
  end.

Definition cache_set (filePath : Fs.fspath) (endpoints : list APIEndpoint) : M unit :=
  modify (fun w => set_endpointCache (<[filePath := endpoints]> (endpointCache w)) w).

Definition analyzeJavaScript (content : string) (filePath : Fs.fspath)
  : M (list APIEndpoint) :=
  let (endpoints, thrown) := parse_and_traverse content in
  match thrown with
  | Some error => console_error ("Error parsing " +:+ Fs.show filePath +:+ ":") error
  | None => ret tt
  end ;;;
  cache_set filePath endpoints ;;;
  ret endpoints.

Definition python_endpoints (content : string) : list APIEndpoint :=
  map (fun mp => mkEndpoint (snd mp) (Str.toUpperCase (fst mp)) None)
      (PyRoutes.exec_all "app" 0 content ++ PyRoutes.exec_all "router" 0 content).

Definition analyzePython (content : string) (filePath : Fs.fspath)
  : M (list APIEndpoint) :=
  let endpoints := python_endpoints content in
  cache_set filePath endpoints ;;;
  ret endpoints.

Definition analyzeFile (filePath : Fs.fspath) : M (list APIEndpoint) :=
  content <- readFileSync filePath ;;
  let ext := Fs.extname filePath in
  if String.eqb ext ".js" || String.eqb ext ".ts" then analyzeJavaScript content filePath
  else if String.eqb ext ".py" then analyzePython content filePath
  else ret [].

Definition addition (endpoint : APIEndpoint) : Change :=
  mkChange "endpoint" (display endpoint) None (Some endpoint).

Definition removal (endpoint : APIEndpoint) : Change :=
  mkChange "endpoint" (display endpoint) (Some endpoint) None.

Definition analyzeNewFile (filePath : Fs.fspath) : M (list Change) :=
  endpoints <- analyzeFile filePath ;;
  ret (map addition endpoints).

(** [!previousContent] for an optional string: true when the argument is
    absent and when it is the empty string. *)
Definition absent_or_empty (previousContent : option string) : bool :=
  match previousContent with
  | None => true
  | Some s => negb (Str.truthy s)
  end.

(** [list.find(pred)] used as a truth value. *)
Definition found (current : APIEndpoint) (l : list APIEndpoint) : bool :=
  existsb (same_endpoint current) l.

Definition detectChanges (filePath : Fs.fspath) (previousContent : option string)
  : M (option CodeChange) :=
  currentContent <- readFileSync filePath ;;
  if absent_or_empty previousContent then
    changes <- analyzeNewFile filePath ;;
    timestamp <- newDate ;;
    ret (Some (mkCodeChange filePath added changes timestamp))
  else if bool_decide (Some currentContent = previousContent) then
    ret None
  else
    cached <- gets (fun w => endpointCache w !! filePath) ;;
    let previousEndpoints := default [] cached in
    currentEndpoints <- analyzeFile filePath ;;
    let changes :=
      map addition (filter (fun c => found c previousEndpoints = false) currentEndpoints) ++
      map removal (filter (fun p => found p currentEndpoints = false) previousEndpoints) in
    if (length changes =? 0)%nat then ret None
    else
      timestamp <- newDate ;;
      ret (Some (mkCodeChange filePath modified changes timestamp)).

(** The loop of [calculateCoverage] that fills the set [allEndpoints]. *)
Fixpoint collectEndpoints (sourceFiles : list Fs.fspath) (allEndpoints : gset string)
  : M (gset string) :=
  match sourceFiles with
  | [] => ret allEndpoints
  | sourceFile :: rest =>
      endpoints <- analyzeFile sourceFile ;;
      collectEndpoints rest (allEndpoints ∪ list_to_set (map display endpoints))
  end.

Definition testedEndpoints (testContent : string) (allEndpoints : gset string) : gset string :=
  filter (fun endpoint => Str.includes testContent endpoint = true) allEndpoints.

Definition coverage_value (testContent : string) (allEndpoints : gset string) : Q :=
  if (size allEndpoints =? 0)%nat then 100%Q
  else ((Qnat (size (testedEndpoints testContent allEndpoints)) / Qnat (size allEndpoints)) * 100)%Q.

Definition calculateCoverage (testFile : Fs.fspath) (sourceFiles : list Fs.fspath) : M Q :=
  testContent <- readFileSync testFile ;;
  allEndpoints <- collectEndpoints sourceFiles ∅ ;;
  ret (coverage_value testContent allEndpoints).

(** *** TestGenerator *)

(** The request [this.openai.chat.completions.create(...)] and the read
    [completion.choices[0]?.message?.content] that follows it: the content
    ([None] when the optional chain gives [undefined] or [null]), or the
    error thrown by either. *)
Variable openai_create : TestCase -> Result (option string).

(** [generateWithTemplate], the emitter of the template text: a function
    of the test case alone, without effects. *)
Variable generateWithTemplate : TestCase -> string.

Variable config : EvolutionConfig.

(** [this.openai] is created in the constructor when the key is truthy. *)
Definition openai_configured : bool :=
  match openaiApiKey config with
  | Some key => Str.truthy key
  | None => false
  end.

Definition lift {A} (r : Result A) : M A := fun w => (r, w).

Definition TestGenerator_generateWithAI (testCase : TestCase) : M string :=
  if negb openai_configured then ret (generateWithTemplate testCase)
  else
    try_catch
      (content <- lift (openai_create testCase) ;;
       ret (match content with
            | Some c => if Str.truthy c then c else generateWithTemplate testCase
            | None => generateWithTemplate testCase
            end))
      (fun error =>
         console_error "AI generation failed:" error ;;;
         ret (generateWithTemplate testCase)).

Definition TestGenerator_generateTestCode (testCase : TestCase) : M string :=
  if openai_configured then TestGenerator_generateWithAI testCase
  else ret (generateWithTemplate testCase).

(** *** TestEvolver *)

(** [testEvolver.evolveTestSuite(changes, current, target)] on the store of
    the evolver: the evolution or the error, and the store it leaves. *)
Variable evolver_evolveTestSuite :
  EvolverState -> list CodeChange -> Q -> Q -> Result Evolution * EvolverState.

(** Modelled from the spec: [TestEvolver.getTestCases] is missing from the
    sources; the spec makes the evolver the store of the test cases, and
    the accessor returns that store. *)
Definition getTestCases (w : World) : list TestCase := testCases (testEvolver w).

(** Modelled from the spec: [TestEvolver.getEvolutionHistory] is missing
    from the sources; the spec keeps an append-only list of history
    entries in the evolver, and the accessor returns that list. *)
Definition getEvolutionHistory (w : World) : list Evolution :=
  evolutionHistory (testEvolver w).

Definition call_evolveTestSuite (changes : list CodeChange) (current target : Q)
  : M Evolution :=
  fun w =>
    let (r, st) := evolver_evolveTestSuite (testEvolver w) changes current target in
    (r, set_testEvolver st w).

(** *** SelfEvolvingTestSuite *)

(** [JSON.stringify(history, null, 2)]. *)
Variable json_of_history : list Evolution -> string.

(** [git.add('.')] followed by [git.commit(message)]. *)
Variable git_add_commit : string -> Result unit.

(** The closure [walk] of [getAllFiles], on the node of [currentDir]. *)
Fixpoint walk (extensions : list string) (currentDir : Fs.fspath) (n : Fs.Node)
  {struct n} : list Fs.fspath :=
  match n with
  | Fs.File _ => []
  | Fs.Dir entries =>
      (fix each (entries : list (string * Fs.Node)) : list Fs.fspath :=
         match entries with
         | [] => []
         | (name, entry) :: rest =>
             let fullPath := currentDir ++ [name] in
             match entry with
             | Fs.Dir _ =>
                 if negb (Str.startsWith name ".") && negb (String.eqb name "node_modules")
                 then walk extensions fullPath entry ++ each rest
                 else each rest
             | Fs.File _ =>
                 if existsb (Str.endsWith name) extensions
                 then fullPath :: each rest
                 else each rest
             end
         end) entries
  end.

Definition getAllFiles_in (root : Fs.Node) (dir : Fs.fspath) (extensions : list string)
  : list Fs.fspath :=
  match Fs.lookup root dir with
  | Some (Fs.Dir entries) => walk extensions dir (Fs.Dir entries)
  | Some (Fs.File _) => [dir]
  | None => []
  end.

Definition getAllFiles (dir : Fs.fspath) (extensions : list string) : M (list Fs.fspath) :=
  gets (fun w => getAllFiles_in (fs w) dir extensions).

Definition existsSync (p : Fs.fspath) : M bool :=
  gets (fun w => Fs.existsSync (fs w) p).

(** The first loop of [calculateCurrentCoverage]. *)
Fixpoint collectSourceFiles (paths : list Fs.fspath) (sourceFiles : list Fs.fspath)
  : M (list Fs.fspath) :=
  match paths with
  | [] => ret sourceFiles
  | watchPath :: rest =>
      files <- getAllFiles watchPath [".js"; ".ts"] ;;
      collectSourceFiles rest (sourceFiles ++ files)
  end.

(** The inner loop: [acc] holds [totalCoverage] and [testCount]. *)
Fixpoint coverTestFiles (testFiles sourceFiles : list Fs.fspath) (acc : Q * nat)
  : M (Q * nat) :=
  match testFiles with
  | [] => ret acc
  | testFile :: rest =>
      coverage <- calculateCoverage testFile sourceFiles ;;
      coverTestFiles rest sourceFiles ((fst acc + coverage)%Q, S (snd acc))
  end.

(** The outer loop over [config.testPaths]. *)
Fixpoint coverTestPaths (paths sourceFiles : list Fs.fspath) (acc : Q * nat)
  : M (Q * nat) :=
  match paths with
  | [] => ret acc
  | testPath :: rest =>
      present <- existsSync testPath ;;
      if present then
        testFiles <- getAllFiles testPath [".test.js"; ".spec.js"] ;;
        acc' <- coverTestFiles testFiles sourceFiles acc ;;
        coverTestPaths rest sourceFiles acc'
      else coverTestPaths rest sourceFiles acc
  end.

Definition calculateCurrentCoverage : M Q :=
  sourceFiles <- collectSourceFiles (watchPaths config) [] ;;
  acc <- coverTestPaths (testPaths config) sourceFiles (0%Q, 0%nat) ;;
  let (totalCoverage, testCount) := acc in
  ret (if (testCount =? 0)%nat then 0%Q else (totalCoverage / Qnat testCount)%Q).

(** [this.config.testPaths[0]] given to [path.join], which throws on
    [undefined]. *)
Definition firstTestPath : M Fs.fspath :=
  match testPaths config with
  | testPath :: _ => ret testPath
  | [] => throw (TypeError "The path argument must be of type string")
  end.

Definition testFileName (testCase : TestCase) : string :=
  Str.sanitize (ep_path (tc_endpoint testCase)) +:+ ".test.js".

Definition generateTestCode (testCase : TestCase) : M unit :=
  testCode <- TestGenerator_generateTestCode testCase ;;
  testPath <- firstTestPath ;;
  let testFilePath := testPath ++ [testFileName testCase] in
  let testDir := Fs.dirname testFilePath in
  present <- existsSync testDir ;;
  (if negb present then mkdirSync_recursive testDir else ret tt) ;;;
  writeFileSync testFilePath testCode ;;;
  console_log ("Generated test: " +:+ Fs.show testFilePath).

Definition saveEvolutionHistory : M unit :=
  history <- gets getEvolutionHistory ;;
  testPath <- firstTestPath ;;
  writeFileSync (testPath ++ [".evolution-history.json"]) (json_of_history history).

Definition commitChanges (message : string) : M unit :=
  if negb (gitEnabled config) then ret tt
  else
    try_catch
      (lift (git_add_commit ("[SETS] " +:+ message)) ;;;
       modify (fun w => set_commits (commits w ++ ["[SETS] " +:+ message]) w) ;;;
       console_log "Changes committed to git")
      (fun error => console_error "Git commit failed:" error).

Definition evolveTestSuite (changes : list CodeChange) : M unit :=
  console_log "Evolving test suite..." ;;;
  currentCoverage <- calculateCurrentCoverage ;;
  evolution <- call_evolveTestSuite changes currentCoverage (coverageTarget config) ;;
  console_log ("Evolution complete: " +:+ pretty (length (ev_changes evolution)) +:+
               " test changes") ;;;
  modify (fun w => set_console
    (console w ++ [LogCoverage (cov_before (ev_coverage evolution))
                               (cov_after (ev_coverage evolution))]) w) ;;;
  forM_ (ev_changes evolution)
    (fun change =>
       match act_type change with
       | act_added | act_updated => generateTestCode (act_details change)
       | act_removed => ret tt
       end) ;;;
  saveEvolutionHistory ;;;
  if gitEnabled config then commitChanges (ev_reason evolution) else ret tt.

(** The body of the [try] block of [handleFileChange]. *)
Definition handleFileChange_body (filePath : Fs.fspath) (event : string) : M unit :=
  previousContent <- gets (fun w => fileSnapshots w !! filePath) ;;
  change <- detectChanges filePath previousContent ;;
  match change with
  | Some change =>
      (if negb (String.eqb event "delete") then
         content <- readFileSync filePath ;;
         modify (fun w => set_fileSnapshots (<[filePath := content]> (fileSnapshots w)) w)
       else
         modify (fun w => set_fileSnapshots (delete filePath (fileSnapshots w)) w)) ;;;
      evolveTestSuite [change]
  | None => ret tt
  end.

Definition handleFileChange (filePath : Fs.fspath) (event : string) : M unit :=
  evolving <- gets isEvolving ;;
  if evolving then console_log "Evolution already in progress, queuing change..."
  else
    console_log ("File " +:+ event +:+ ": " +:+ Fs.show filePath) ;;;
    modify (set_isEvolving true) ;;;
    try_finally
      (try_catch (handleFileChange_body filePath event)
                 (fun error => console_error "Error during evolution:" error))
      (modify (set_isEvolving false)).

(** The watcher maps [add], [change] and [unlink] to the handler
    ([startWatching]). *)
Inductive WatchEvent := ev_add | ev_change | ev_unlink.

Definition on_event (e : WatchEvent) (p : Fs.fspath) : M unit :=
  match e with
  | ev_add => handleFileChange p "add"
  | ev_change => handleFileChange p "change"
  | ev_unlink => handleFileChange p "delete"
  end.

(** A sequence of events, each handled to completion before the next. *)
Definition on_events (events : list (WatchEvent * Fs.fspath)) : M unit :=
  forM_ events (fun ep => on_event (fst ep) (snd ep)).

Record Metrics := mkMetrics {
  totalTests : nat;
  autoGeneratedTests : nat;
  coverage : Q;
  lastEvolution : option nat
}.

Definition getMetrics (w : World) : Metrics :=
  let tests := getTestCases w in
  let history := getEvolutionHistory w in
  mkMetrics
    (length tests)
    (length (filter (fun t => tc_autoGenerated t = true) tests))
    (if (0 <? length history)%nat
     then match history !! (length history - 1)%nat with
          | Some h => cov_after (ev_coverage h)
          | None => 0%Q
          end
     else 0%Q)
    (if (0 <? length history)%nat
     then match history !! (length history - 1)%nat with
          | Some h => Some (ev_timestamp h)
          | None => None
          end
     else None).

(** *** Reference definitions for the statements *)

(** [p] is a regular file with content [c]. *)
Definition is_file (root : Fs.Node) (p : Fs.fspath) (c : string) : Prop :=
  Fs.lookup root p = Some (Fs.File c).

(** What the recogniser chosen by the extension of [filePath] extracts
    from [content]. *)
Definition endpoints_of (filePath : Fs.fspath) (content : string) : list APIEndpoint :=
  let ext := Fs.extname filePath in
  if String.eqb ext ".js" || String.eqb ext ".ts" then fst (parse_and_traverse content)
  else if String.eqb ext ".py" then python_endpoints content
  else [].

(** The inventory: the distinct display strings of the endpoints of the
    source files. *)
Definition inventory (sourceFiles : list Fs.fspath) (contents : list string) : gset string :=
  list_to_set (map display (concat (zip_with endpoints_of sourceFiles contents))).

(** [keeps proj m]: running [m] leaves the component [proj] of the world as
    it was, whether [m] returns or throws. *)
Definition keeps {A B} (proj : World -> B) (m : M A) : Prop :=
  forall w, proj (snd (m w)) = proj w.

(** The components that neither the console nor the cache of the analyzer
    reaches. *)
Definition analyzer_frame {B} (proj : World -> B) : Prop :=
  (forall c w, proj (set_console c w) = proj w) /\
  (forall c w, proj (set_endpointCache c w) = proj w).

(** The components that only the handler itself writes: neither the
    console, the cache, the file system, the evolver nor the commits reach
    them. *)
Definition orchestrator_frame {B} (proj : World -> B) : Prop :=
  (forall c w, proj (set_console c w) = proj w) /\
  (forall c w, proj (set_endpointCache c w) = proj w) /\
  (forall f w, proj (set_fs f w) = proj w) /\
  (forall e w, proj (set_testEvolver e w) = proj w) /\
  (forall c w, proj (set_commits c w) = proj w).

(** The source files and the test files that [getAllFiles] collects for
    the configured paths. *)
Definition collectedSources (root : Fs.Node) : list Fs.fspath :=
  flat_map (fun p => getAllFiles_in root p [".js"; ".ts"]) (watchPaths config).

Definition collectedTests (root : Fs.Node) : list Fs.fspath :=
  flat_map (fun p => getAllFiles_in root p [".test.js"; ".spec.js"]) (testPaths config).

(** The arithmetic mean of a list of percentages. *)
Definition Qsum (l : list Q) : Q := fold_left Qplus l 0%Q.
Definition mean (l : list Q) : Q := (Qsum l / Qnat (length l))%Q.

(** Every regular file below a node, whatever its name and wherever it
    lies; [at_path] is the path of the node. *)
Fixpoint all_files (at_path : Fs.fspath) (n : Fs.Node) {struct n} : list Fs.fspath :=
  match n with
  | Fs.File _ => [at_path]
  | Fs.Dir entries =>
      (fix each (entries : list (string * Fs.Node)) : list Fs.fspath :=
         match entries with
         | [] => []
         | (name, entry) :: rest => all_files (at_path ++ [name]) entry ++ each rest
         end) entries
  end.

Definition is_test_name (name : string) : bool :=
  Str.endsWith name ".test.js" || Str.endsWith name ".spec.js".

(** The files named [*.test.js] or [*.spec.js] that exist under a path. *)
Definition test_files_under (root : Fs.Node) (testPath : Fs.fspath) : list Fs.fspath :=
  match Fs.lookup root testPath with
  | Some n => filter (fun p => is_test_name (List.last p EmptyString) = true) (all_files testPath n)
  | None => []
  end.

(** The number of test cases whose [autoGenerated] flag is set. *)
Fixpoint count_autoGenerated (tests : list TestCase) : nat :=
  match tests with
  | [] => 0
  | t :: rest => (if tc_autoGenerated t then 1 else 0) + count_autoGenerated rest
  end.

(** *** Further reference definitions *)

(** The five verbs in the form in which the recognisers report them. *)
Definition valid_method (e : APIEndpoint) : Prop :=
  In (ep_method e) ["GET"; "POST"; "PUT"; "DELETE"; "PATCH"].

(** No character of [s] is a quote of either kind. *)
Fixpoint quote_free (s : string) : bool :=
  match s with
  | EmptyString => true
  | String c s' => negb (PyRoutes.is_quote c) && quote_free s'
  end.

(** The text of a route decorator: [@obj.method(], a quote, the path, a
    quote, [)]. *)
Definition decorator_text (obj m : string) (q : ascii) (p : string) (q' : ascii) : string :=
  "@" +:+ obj +:+ "." +:+ m +:+ String "("%char (String q (p +:+ String q' ")")).

(** The extensions for which [analyzeFile] runs a recogniser. *)
Definition supported (p : Fs.fspath) : bool :=
  String.eqb (Fs.extname p) ".js" || String.eqb (Fs.extname p) ".ts" ||
  String.eqb (Fs.extname p) ".py".

(** An addition carries [after] only and a removal [before] only; both
    carry the display string of their endpoint. *)
Definition is_addition (c : Change) : Prop :=
  exists e, c = mkChange "endpoint" (display e) None (Some e).
Definition is_removal (c : Change) : Prop :=
  exists e, c = mkChange "endpoint" (display e) (Some e) None.

(** In a file system no directory has two entries of one name. *)
Fixpoint well_formed (n : Fs.Node) {struct n} : bool :=
  match n with
  | Fs.File _ => true
  | Fs.Dir entries =>
      (fix each (entries : list (string * Fs.Node)) : bool :=
         match entries with
         | [] => true
         | (name, entry) :: rest =>
             match Fs.assoc name rest with
             | Some _ => false
             | None => well_formed entry && each rest
             end
         end) entries
  end.

(** The names of the directories that [walk] and [analyzeDirectory] do not
    enter. *)
Definition skipped_dir (name : string) : bool :=
  Str.startsWith name "." || String.eqb name "node_modules".

(** [isCodeFile]. *)
Definition code_extensions : list string := [".js"; ".ts"; ".jsx"; ".tsx"; ".py"].

Definition isCodeFile (filename : string) : bool :=
  existsb (Str.endsWith filename) code_extensions.

(** The closure [analyzeRecursive] of [analyzeDirectory], on the node of
    [dir]; [allEndpoints] is the array it pushes to.  [readdirSync] throws
    on a regular file. *)
Fixpoint analyzeRecursive (dir : Fs.fspath) (n : Fs.Node)
  (allEndpoints : list APIEndpoint) {struct n} : M (list APIEndpoint) :=
  match n with
  | Fs.File _ => throw (FsError "ENOTDIR" dir)
  | Fs.Dir entries =>
      (fix each (entries : list (string * Fs.Node)) (allEndpoints : list APIEndpoint)
         : M (list APIEndpoint) :=
         match entries with
         | [] => ret allEndpoints
         | (name, entry) :: rest =>
             let fullPath := dir ++ [name] in
             match entry with
             | Fs.Dir _ =>
                 if negb (Str.startsWith name ".") && negb (String.eqb name "node_modules")
                 then
                   allEndpoints' <- analyzeRecursive fullPath entry allEndpoints ;;
                   each rest allEndpoints'
                 else each rest allEndpoints
             | Fs.File _ =>
                 if isCodeFile name
                 then
                   endpoints <- analyzeFile fullPath ;;
                   each rest (allEndpoints ++ endpoints)
                 else each rest allEndpoints
             end
         end) entries allEndpoints
  end.

Definition analyzeDirectory (dirPath : Fs.fspath) : M (list APIEndpoint) :=
  fun w =>
    match Fs.lookup (fs w) dirPath with
    | Some n => analyzeRecursive dirPath n [] w
    | None => (Throw (FsError "ENOENT" dirPath), w)
    end.

(** [s.split(sep)] for a separator of one character. *)
Fixpoint split_on (sep : ascii) (s : string) : list string :=
  match s with
  | EmptyString => [EmptyString]
  | String c s' =>
      if Ascii.eqb c sep then EmptyString :: split_on sep s'
      else match split_on sep s' with
           | part :: parts => String c part :: parts
           | [] => [String c EmptyString]
           end
  end.

(** [parts.join('')]. *)
Definition join (parts : list string) : string :=
  fold_right String.append EmptyString parts.

(** [TestGenerator.pathToAccessor]. *)
Definition accessor_part (part : string) : string :=
  if Str.includes part "[" then part else "." +:+ part.

Definition pathToAccessor (path : string) : string :=
  join (map accessor_part (split_on "."%char path)).

(** The loop of [generateTestSuite] that groups the test cases in a [Map]
    keyed by [tc.endpoint.path]; a [Map] keeps its keys in the order of
    their first insertion. *)
Fixpoint group_push (key : string) (tc : TestCase) (groups : list (string * list TestCase))
  : list (string * list TestCase) :=
  match groups with
  | [] => [(key, [tc])]
  | (k, tests) :: rest =>
      if String.eqb k key then (k, tests ++ [tc]) :: rest
      else (k, tests) :: group_push key tc rest
  end.

Definition groupedTests (testCases : list TestCase) : list (string * list TestCase) :=
  fold_left (fun groups tc => group_push (ep_path (tc_endpoint tc)) tc groups) testCases [].

(** The components that persisting an evolution does not reach: neither
    the console, the file system nor the commits. *)
Definition persistence_frame {B} (proj : World -> B) : Prop :=
  (forall c w, proj (set_console c w) = proj w) /\
  (forall f w, proj (set_fs f w) = proj w) /\
  (forall c w, proj (set_commits c w) = proj w).





(** ** Properties *)

(** *** Frame rules: what a method leaves unchanged *)

Lemma keeps_ret {A B} (proj : World -> B) (a : A) : keeps proj (ret a).
Proof. intros w. reflexivity. Qed.

Lemma keeps_throw {A B} (proj : World -> B) e : keeps proj (@throw A e).
Proof. intros w. reflexivity. Qed.

Lemma keeps_gets {A B} (proj : World -> B) (f : World -> A) : keeps proj (gets f).
Proof. intros w. reflexivity. Qed.

Lemma keeps_lift {A B} (proj : World -> B) (r : Result A) : keeps proj (lift r).
Proof. intros w. reflexivity. Qed.

Lemma keeps_bind {A B C} (proj : World -> C) (m : M A) (k : A -> M B) :
  keeps proj m -> (forall a, keeps proj (k a)) -> keeps proj (bind m k).
Proof.
  intros Hm Hk w. unfold bind. specialize (Hm w).
  destruct (m w) as [[a|e] w']; simpl in *; [|assumption].
  rewrite Hk. assumption.
Qed.

Lemma keeps_try_catch {A C} (proj : World -> C) (m : M A) (h : Error -> M A) :
  keeps proj m -> (forall e, keeps proj (h e)) -> keeps proj (try_catch m h).
Proof.
  intros Hm Hh w. unfold try_catch. specialize (Hm w).
  destruct (m w) as [[a|e] w']; simpl in *; [assumption|].
  rewrite Hh. assumption.
Qed.

Lemma keeps_modify {B} (proj : World -> B) (f : World -> World) :
  (forall w, proj (f w) = proj w) -> keeps proj (modify f).
Proof. intros H w. apply H. Qed.

Lemma keeps_if {A B} (proj : World -> B) (b : bool) (m1 m2 : M A) :
  keeps proj m1 -> keeps proj m2 -> keeps proj (if b then m1 else m2).
Proof. destruct b; auto. Qed.

Lemma keeps_forM {A B} (proj : World -> B) (l : list A) (f : A -> M unit) :
  (forall a, keeps proj (f a)) -> keeps proj (forM_ l f).
Proof.
  intros Hf. induction l as [|x l IH]; simpl.
  - apply keeps_ret.
  - apply keeps_bind; auto.
Qed.

Lemma keeps_readFileSync {B} (proj : World -> B) p : keeps proj (readFileSync p).
Proof.
  intros w. unfold readFileSync.
  destruct (Fs.lookup (fs w) p) as [[c|es]|]; reflexivity.
Qed.

Lemma keeps_console_log {B} (proj : World -> B) msg :
  (forall c w, proj (set_console c w) = proj w) -> keeps proj (console_log msg).
Proof. intros H. apply keeps_modify. intros w. apply H. Qed.

Lemma keeps_console_error {B} (proj : World -> B) msg e :
  (forall c w, proj (set_console c w) = proj w) -> keeps proj (console_error msg e).
Proof. intros H. apply keeps_modify. intros w. apply H. Qed.

Lemma keeps_cache_set {B} (proj : World -> B) p eps :
  (forall c w, proj (set_endpointCache c w) = proj w) -> keeps proj (cache_set p eps).
Proof. intros H. apply keeps_modify. intros w. apply H. Qed.

Create HintDb frame discriminated.
#[local] Hint Resolve keeps_ret keeps_throw keeps_gets keeps_lift keeps_bind
  keeps_try_catch keeps_if keeps_forM keeps_readFileSync keeps_console_log
  keeps_console_error keeps_cache_set keeps_modify : frame.

(** The analyzer only writes its cache and the console. *)
Lemma frame_fs : analyzer_frame fs.
Proof. split; reflexivity. Qed.
Lemma frame_fileSnapshots : analyzer_frame fileSnapshots.
Proof. split; reflexivity. Qed.
Lemma frame_isEvolving : analyzer_frame isEvolving.
Proof. split; reflexivity. Qed.
Lemma frame_clock : analyzer_frame clock.
Proof. split; reflexivity. Qed.

Lemma keeps_analyzeJavaScript {B} (proj : World -> B) content p :
  analyzer_frame proj -> keeps proj (analyzeJavaScript content p).
Proof.
  intros [Hc He]. unfold analyzeJavaScript.
  destruct (parse_and_traverse content) as [eps [e|]]; auto 10 with frame.
Qed.

Lemma keeps_analyzePython {B} (proj : World -> B) content p :
  analyzer_frame proj -> keeps proj (analyzePython content p).
Proof. intros [Hc He]. unfold analyzePython. auto 10 with frame. Qed.

Lemma keeps_analyzeFile {B} (proj : World -> B) p :
  analyzer_frame proj -> keeps proj (analyzeFile p).
Proof.
  intros H. unfold analyzeFile. apply keeps_bind; [auto with frame|].
  intros content.
  auto using keeps_if, keeps_analyzeJavaScript, keeps_analyzePython, keeps_ret.
Qed.

Lemma keeps_detectChanges {B} (proj : World -> B) p prev :
  analyzer_frame proj -> keeps proj (detectChanges p prev).
Proof.
  intros H. unfold detectChanges, analyzeNewFile, newDate.
  apply keeps_bind; [auto with frame|]. intros content.
  repeat first
    [ apply keeps_analyzeFile; assumption
    | apply keeps_ret | apply keeps_gets
    | apply keeps_if
    | apply keeps_bind; [|intros ?] ].
Qed.

Lemma keeps_collectEndpoints {B} (proj : World -> B) files acc :
  analyzer_frame proj -> keeps proj (collectEndpoints files acc).
Proof.
  intros H. revert acc. induction files as [|f files IH]; intros acc; simpl.
  - apply keeps_ret.
  - apply keeps_bind; [apply keeps_analyzeFile; assumption|]. intros eps. apply IH.
Qed.

Lemma keeps_calculateCoverage {B} (proj : World -> B) testFile sources :
  analyzer_frame proj -> keeps proj (calculateCoverage testFile sources).
Proof.
  intros H. unfold calculateCoverage.
  apply keeps_bind; [auto with frame|]. intros c.
  apply keeps_bind; [apply keeps_collectEndpoints; assumption|]. intros s.
  apply keeps_ret.
Qed.

(** *** Strings *)

Lemma strip_prefix_spec p s r :
  Str.strip_prefix p s = Some r <-> s = p +:+ r.
Proof.
  revert s. induction p as [|a p IH]; intros s; simpl.
  - split; [intros [= ->]; reflexivity | intros ->; reflexivity].
  - destruct s as [|b s]; [split; [discriminate | discriminate]|].
    destruct (Ascii.eqb_spec a b) as [->|Hne].
    + rewrite IH. split; [intros ->; reflexivity | intros [= ->]; reflexivity].
    + split; [discriminate | intros [= ? ?]; congruence].
Qed.

(** [includes] is the substring relation. *)
Lemma includes_spec s t :
  Str.includes s t = true <-> exists a b, s = a +:+ t +:+ b.
Proof.
  induction s as [|c s IH].
  - simpl. rewrite orb_false_r. unfold Str.startsWith.
    destruct (Str.strip_prefix t "") as [r|] eqn:E.
    + apply strip_prefix_spec in E. split; [|reflexivity].
      intros _. exists "", r. exact E.
    + split; [discriminate|]. intros (a & b & H).
      destruct a; simpl in H; [|discriminate].
      apply (proj2 (strip_prefix_spec t "" b)) in H. congruence.
  - cbn [Str.includes]. rewrite orb_true_iff, IH. unfold Str.startsWith.
    destruct (Str.strip_prefix t (String c s)) as [r|] eqn:E.
    + apply strip_prefix_spec in E. split; [|left; reflexivity].
      intros _. exists "", r. exact E.
    + split.
      * intros [?|(a & b & ->)]; [discriminate|]. exists (String c a), b. reflexivity.
      * intros (a & b & H). right. destruct a as [|c' a]; simpl in H.
        -- apply (proj2 (strip_prefix_spec t (String c s) b)) in H. congruence.
        -- injection H as -> ->. eauto.
Qed.

Lemma includes_empty_content t : t <> "" -> Str.includes "" t = false.
Proof. destruct t; [congruence | reflexivity]. Qed.

Lemma display_nonempty e : display e <> "".
Proof.
  unfold display. destruct (ep_method e); simpl; discriminate.
Qed.

(** *** The analyzer on a readable file *)

Lemma readFileSync_file w p c :
  is_file (fs w) p c -> readFileSync p w = (Ok c, w).
Proof. unfold is_file, readFileSync. intros ->. reflexivity. Qed.

Lemma analyzeJavaScript_returns content p w :
  fst (analyzeJavaScript content p w) = Ok (fst (parse_and_traverse content)).
Proof.
  unfold analyzeJavaScript.
  destruct (parse_and_traverse content) as [eps [e|]]; reflexivity.
Qed.

Lemma analyzeFile_returns w p c :
  is_file (fs w) p c -> fst (analyzeFile p w) = Ok (endpoints_of p c).
Proof.
  intros Hf. unfold analyzeFile, bind, endpoints_of.
  rewrite (readFileSync_file _ _ _ Hf).
  destruct (String.eqb (Fs.extname p) ".js" || String.eqb (Fs.extname p) ".ts").
  - apply analyzeJavaScript_returns.
  - destruct (String.eqb (Fs.extname p) ".py"); reflexivity.
Qed.

Lemma collectEndpoints_returns sourceFiles : forall contents acc w,
  Forall2 (is_file (fs w)) sourceFiles contents ->
  fst (collectEndpoints sourceFiles acc w) = Ok (acc ∪ inventory sourceFiles contents).
Proof.
  induction sourceFiles as [|f files IH]; intros contents acc w HF.
  - inversion HF; subst. simpl. f_equal. unfold inventory. simpl.
    rewrite union_empty_r_L. reflexivity.
  - inversion HF as [|? c ? cs Hf HF']; subst. simpl. unfold bind.
    pose proof (analyzeFile_returns w f c Hf) as Hr.
    pose proof (keeps_analyzeFile fs f frame_fs w) as Hk.
    destruct (analyzeFile f w) as [r w1]. simpl in Hr, Hk. subst r.
    rewrite (IH cs); [|rewrite Hk; assumption].
    f_equal. unfold inventory. simpl.
    rewrite fmap_app, list_to_set_app_L, assoc_L by apply _. reflexivity.
Qed.

Lemma calculateCoverage_returns w testFile testContent sourceFiles contents :
  is_file (fs w) testFile testContent ->
  Forall2 (is_file (fs w)) sourceFiles contents ->
  fst (calculateCoverage testFile sourceFiles w)
  = Ok (coverage_value testContent (inventory sourceFiles contents)).
Proof.
  intros Ht Hs. unfold calculateCoverage, bind.
  rewrite (readFileSync_file _ _ _ Ht).
  pose proof (collectEndpoints_returns sourceFiles contents ∅ w Hs) as Hr.
  destruct (collectEndpoints sourceFiles ∅ w) as [r w1]. simpl in Hr. subst r.
  simpl. do 2 f_equal. apply union_empty_l_L.
Qed.

(** *** Arithmetic of percentages *)

Lemma Qnat_nonneg n : (0 <= Qnat n)%Q.
Proof. unfold Qnat, Qle. simpl. lia. Qed.

Lemma Qnat_pos n : n <> 0%nat -> (0 < Qnat n)%Q.
Proof. intros H. unfold Qnat, Qlt. simpl. lia. Qed.

Lemma Qnat_le n m : (n <= m)%nat -> (Qnat n <= Qnat m)%Q.
Proof. intros H. unfold Qnat, Qle. simpl. lia. Qed.

Lemma percentage_bounds t a :
  (t <= a)%nat -> a <> 0%nat ->
  (0 <= Qnat t / Qnat a * 100 /\ Qnat t / Qnat a * 100 <= 100)%Q.
Proof.
  intros Hle Ha.
  pose proof (Qnat_pos a Ha) as Hpos.
  assert (H0 : (0 <= Qnat t / Qnat a)%Q).
  { apply Qle_shift_div_l; [assumption|]. rewrite Qmult_0_l. apply Qnat_nonneg. }
  assert (H1 : (Qnat t / Qnat a <= 1)%Q).
  { apply Qle_shift_div_r; [assumption|]. rewrite Qmult_1_l. apply Qnat_le, Hle. }
  split.
  - apply Qmult_le_0_compat; [assumption | discriminate].
  - apply Qle_trans with (1 * 100)%Q.
    + apply Qmult_le_compat_r; [assumption | discriminate].
    + discriminate.
Qed.

(** C1.  On a readable test file and readable source files,
    [calculateCoverage] returns 100 when the set of distinct display
    strings of the source endpoints is empty, and otherwise 100 times the
    number of those strings that occur in the test content, divided by
    their number; with an empty test content and a non-empty inventory it
    returns 0; the result lies between 0 and 100. *)
Theorem calculateCoverage_spec w testFile testContent sourceFiles contents :
  is_file (fs w) testFile testContent ->
  Forall2 (is_file (fs w)) sourceFiles contents ->
  let all := inventory sourceFiles contents in
  let covered := size (filter (fun d => Str.includes testContent d = true) all) in
  exists v : Q,
    fst (calculateCoverage testFile sourceFiles w) = Ok v /\
    (size all = 0%nat -> v = 100%Q) /\
    (size all <> 0%nat -> (v == 100 * Qnat covered / Qnat (size all))%Q) /\
    (testContent = "" -> size all <> 0%nat -> (v == 0)%Q) /\
    (0 <= v /\ v <= 100)%Q.
Proof.
  intros Ht Hs all covered.
  exists (coverage_value testContent all). split.
  { apply calculateCoverage_returns; assumption. }
  unfold coverage_value. fold covered.
  assert (Hle : (covered <= size all)%nat).
  { apply subseteq_size. unfold testedEndpoints.
    intros d Hd. apply elem_of_filter in Hd as [_ Hd]. exact Hd. }
  destruct (Nat.eqb_spec (size all) 0) as [Hz|Hnz].
  - repeat split; try congruence; discriminate.
  - unfold testedEndpoints. fold covered.
    pose proof (Qnat_pos _ Hnz) as Hpos.
    repeat split.
    + congruence.
    + intros _. field. intros Hq. rewrite Hq in Hpos. discriminate.
    + intros -> _.
      assert (Hc : covered = 0%nat).
      { apply size_empty_iff, elem_of_equiv_empty. intros d Hd.
        apply elem_of_filter in Hd as [Hi Hd].
        unfold all, inventory in Hd. apply elem_of_list_to_set, list_elem_of_fmap in Hd.
        destruct Hd as (e & -> & _).
        rewrite includes_empty_content in Hi by apply display_nonempty. discriminate. }
      rewrite Hc. unfold Qnat at 1. simpl. unfold Qdiv. rewrite !Qmult_0_l. reflexivity.
    + apply percentage_bounds; assumption.
    + apply percentage_bounds; assumption.
Qed.

(** *** The JavaScript recogniser never throws *)

Lemma analyzeJavaScript_run content p w :
  analyzeJavaScript content p w =
  let (endpoints, thrown) := parse_and_traverse content in
  (Ok endpoints,
   set_endpointCache (<[p := endpoints]> (endpointCache w))
     (match thrown with
      | Some e => set_console (console w ++ [LogError ("Error parsing " +:+ Fs.show p +:+ ":") e]) w
      | None => w
      end)).
Proof.
  unfold analyzeJavaScript.
  destruct (parse_and_traverse content) as [eps [e|]]; reflexivity.
Qed.

Lemma analyzeFile_unsupported w p c :
  is_file (fs w) p c ->
  Fs.extname p <> ".js" -> Fs.extname p <> ".ts" -> Fs.extname p <> ".py" ->
  analyzeFile p w = (Ok [], w).
Proof.
  intros Hf Hjs Hts Hpy. unfold analyzeFile, bind.
  rewrite (readFileSync_file _ _ _ Hf).
  apply String.eqb_neq in Hjs, Hts, Hpy. rewrite Hjs, Hts, Hpy. reflexivity.
Qed.

(** C7.  [analyzeJavaScript] returns an endpoint list on every input and
    never throws: when the parser or a visitor throws, the error is logged
    on the console and the endpoints pushed so far (none after a parse
    error) are returned and cached; and [analyzeFile] returns the empty
    list, changing nothing, on a readable file whose extension is none of
    [.js], [.ts], [.py]. *)
Theorem analyzeJavaScript_fails_closed :
  (forall content p w,
     exists endpoints,
       fst (analyzeJavaScript content p w) = Ok endpoints /\
       endpoints = fst (parse_and_traverse content) /\
       (forall e, babel content = Throw e -> endpoints = []) /\
       (forall e, snd (parse_and_traverse content) = Some e ->
          console (snd (analyzeJavaScript content p w))
          = console w ++ [LogError ("Error parsing " +:+ Fs.show p +:+ ":") e]) /\
       (snd (parse_and_traverse content) = None ->
          console (snd (analyzeJavaScript content p w)) = console w)) /\
  (forall p c w,
     is_file (fs w) p c ->
     Fs.extname p <> ".js" -> Fs.extname p <> ".ts" -> Fs.extname p <> ".py" ->
     analyzeFile p w = (Ok [], w)).
Proof.
  split.
  - intros content p w. rewrite analyzeJavaScript_run.
    exists (fst (parse_and_traverse content)).
    unfold parse_and_traverse.
    destruct (babel content) as [paths|e0].
    + destruct (traverse paths []) as [eps [e|]]; simpl;
        repeat split; try congruence; try discriminate.
    + simpl. repeat split; congruence.
  - intros p c w. apply analyzeFile_unsupported.
Qed.

(** *** Change detection *)

(** The diff of [detectChanges]: additions, then removals. *)
Lemma detectChanges_run_modified w p prev c :
  is_file (fs w) p c -> prev <> "" -> prev <> c ->
  let previousEndpoints := default [] (endpointCache w !! p) in
  let currentEndpoints := endpoints_of p c in
  let changes :=
    map addition (filter (fun e => found e previousEndpoints = false) currentEndpoints) ++
    map removal (filter (fun e => found e currentEndpoints = false) previousEndpoints) in
  fst (detectChanges p (Some prev) w)
  = Ok (match changes with
        | [] => None
        | _ :: _ => Some (mkCodeChange p modified changes (clock w))
        end).
Proof.
  intros Hf Hne Hdiff previousEndpoints currentEndpoints changes.
  unfold detectChanges, bind.
  rewrite (readFileSync_file _ _ _ Hf).
  destruct prev as [|a prev]; [congruence|]. cbn [absent_or_empty Str.truthy negb].
  rewrite bool_decide_eq_false_2 by congruence.
  cbn [gets fst snd].
  pose proof (analyzeFile_returns w p c Hf) as Hr.
  pose proof (keeps_analyzeFile clock p frame_clock w) as Hk.
  destruct (analyzeFile p w) as [r w1]. simpl in Hr, Hk. subst r.
  fold previousEndpoints currentEndpoints changes.
  destruct changes as [|ch chs]; simpl; [reflexivity|].
  unfold newDate, gets, ret. simpl. rewrite Hk. reflexivity.
Qed.

(** With a non-empty previous content equal to the current one, nothing is
    reported and nothing changes. *)
Lemma detectChanges_unchanged w p c :
  is_file (fs w) p c -> c <> "" -> detectChanges p (Some c) w = (Ok None, w).
Proof.
  intros Hf Hne. unfold detectChanges, bind.
  rewrite (readFileSync_file _ _ _ Hf).
  destruct c as [|a c]; [congruence|]. cbn [absent_or_empty Str.truthy negb].
  rewrite bool_decide_eq_true_2 by reflexivity. reflexivity.
Qed.

(** X9.  With a non-empty previous content equal to the current content of
    the file, [detectChanges] returns nothing and changes nothing, however
    often the call is repeated. *)
Lemma detectChanges_unchanged_repeated n w p c :
  is_file (fs w) p c -> c <> "" ->
  Nat.iter n (fun w' => snd (detectChanges p (Some c) w')) w = w /\
  detectChanges p (Some c) (Nat.iter n (fun w' => snd (detectChanges p (Some c) w')) w)
  = (Ok None, w).
Proof.
  intros Hf Hne.
  assert (Hit : Nat.iter n (fun w' => snd (detectChanges p (Some c) w')) w = w).
  { induction n as [|n IH]; simpl; [reflexivity|].
    rewrite IH, detectChanges_unchanged by assumption. reflexivity. }
  rewrite Hit. split; [reflexivity|]. apply detectChanges_unchanged; assumption.
Qed.

(** An absent or empty previous content reports the file as new, with
    every endpoint as an addition. *)
Lemma detectChanges_run_added w p prev c :
  is_file (fs w) p c -> absent_or_empty prev = true ->
  fst (detectChanges p prev w)
  = Ok (Some (mkCodeChange p added (map addition (endpoints_of p c)) (clock w))).
Proof.
  intros Hf Hp. unfold detectChanges, bind.
  rewrite (readFileSync_file _ _ _ Hf). rewrite Hp.
  unfold analyzeNewFile, bind.
  pose proof (analyzeFile_returns w p c Hf) as Hr.
  pose proof (keeps_analyzeFile clock p frame_clock w) as Hk.
  destruct (analyzeFile p w) as [r w1]. simpl in Hr, Hk. subst r.
  unfold ret, newDate, gets. simpl. rewrite Hk. reflexivity.
Qed.

(** A file that cannot be read makes [detectChanges] throw, whatever the
    previous content. *)
Lemma detectChanges_missing w p prev :
  Fs.lookup (fs w) p = None ->
  detectChanges p prev w = (Throw (FsError "ENOENT" p), w).
Proof.
  intros Hf. unfold detectChanges, bind, readFileSync. rewrite Hf. reflexivity.
Qed.

(** *** The test generator *)

Lemma generateWithAI_run tc w :
  openai_configured = true ->
  TestGenerator_generateWithAI tc w =
  match openai_create tc with
  | Ok (Some c) => (Ok (if Str.truthy c then c else generateWithTemplate tc), w)
  | Ok None => (Ok (generateWithTemplate tc), w)
  | Throw e =>
      (Ok (generateWithTemplate tc),
       set_console (console w ++ [LogError "AI generation failed:" e]) w)
  end.
Proof.
  intros Hc. unfold TestGenerator_generateWithAI. rewrite Hc. simpl.
  unfold try_catch, bind, lift.
  destruct (openai_create tc) as [[c|]|e]; reflexivity.
Qed.

(** C8.  [generateTestCode] of the test generator always returns a text and
    never throws: without a client it is the text of the template; with a
    client it is the template text when the request throws (the error goes
    to the console) and when the content is missing or empty, and the
    content of the answer otherwise. *)
Theorem TestGenerator_generateTestCode_falls_back tc w :
  (exists code w', TestGenerator_generateTestCode tc w = (Ok code, w')) /\
  (openai_configured = false ->
     TestGenerator_generateTestCode tc w = (Ok (generateWithTemplate tc), w)) /\
  (openai_configured = true -> forall e, openai_create tc = Throw e ->
     TestGenerator_generateTestCode tc w
     = (Ok (generateWithTemplate tc),
        set_console (console w ++ [LogError "AI generation failed:" e]) w)) /\
  (openai_configured = true ->
     openai_create tc = Ok None \/ openai_create tc = Ok (Some "") ->
     TestGenerator_generateTestCode tc w = (Ok (generateWithTemplate tc), w)) /\
  (openai_configured = true -> forall c, c <> "" -> openai_create tc = Ok (Some c) ->
     TestGenerator_generateTestCode tc w = (Ok c, w)).
Proof.
  unfold TestGenerator_generateTestCode.
  destruct openai_configured eqn:Hc.
  - rewrite (generateWithAI_run tc w Hc). repeat split.
    + destruct (openai_create tc) as [[c|]|e]; eauto.
    + discriminate.
    + intros _ e ->. reflexivity.
    + intros _ [-> | ->]; reflexivity.
    + intros _ c Hne ->. destruct c; [congruence | reflexivity].
  - repeat split; try discriminate. eauto.
Qed.

Lemma keeps_TestGenerator_generateTestCode {B} (proj : World -> B) tc :
  (forall c w, proj (set_console c w) = proj w) ->
  keeps proj (TestGenerator_generateTestCode tc).
Proof.
  intros H w. unfold TestGenerator_generateTestCode.
  destruct openai_configured eqn:Hc; [|reflexivity].
  rewrite (generateWithAI_run tc w Hc).
  destruct (openai_create tc) as [[c|]|e]; simpl; auto.
Qed.

(** *** Frame rules of the orchestrator *)

Lemma keeps_writeFileSync {B} (proj : World -> B) p c :
  (forall f w, proj (set_fs f w) = proj w) -> keeps proj (writeFileSync p c).
Proof.
  intros H w. unfold writeFileSync. destruct (Fs.write (fs w) p c); simpl; auto.
Qed.

Lemma keeps_mkdirSync {B} (proj : World -> B) p :
  (forall f w, proj (set_fs f w) = proj w) -> keeps proj (mkdirSync_recursive p).
Proof.
  intros H w. unfold mkdirSync_recursive. destruct (Fs.mkdirp (fs w) p); simpl; auto.
Qed.

Lemma keeps_firstTestPath {B} (proj : World -> B) : keeps proj firstTestPath.
Proof. unfold firstTestPath. destruct (testPaths config); auto with frame. Qed.

Lemma orchestrator_analyzer_frame {B} (proj : World -> B) :
  orchestrator_frame proj -> analyzer_frame proj.
Proof. intros (Hc & He & _). split; assumption. Qed.

Lemma keeps_generateTestCode {B} (proj : World -> B) tc :
  orchestrator_frame proj -> keeps proj (generateTestCode tc).
Proof.
  intros (Hc & He & Hf & Hv & Hg). unfold generateTestCode, existsSync.
  repeat first
    [ apply keeps_TestGenerator_generateTestCode; assumption
    | apply keeps_firstTestPath
    | apply keeps_writeFileSync; assumption
    | apply keeps_mkdirSync; assumption
    | apply keeps_console_log; assumption
    | apply keeps_ret | apply keeps_gets
    | apply keeps_if
    | apply keeps_bind; [|intros ?] ].
Qed.

Lemma keeps_saveEvolutionHistory {B} (proj : World -> B) :
  orchestrator_frame proj -> keeps proj saveEvolutionHistory.
Proof.
  intros (Hc & He & Hf & Hv & Hg). unfold saveEvolutionHistory.
  repeat first
    [ apply keeps_firstTestPath
    | apply keeps_writeFileSync; assumption
    | apply keeps_gets
    | apply keeps_bind; [|intros ?] ].
Qed.

Lemma keeps_commitChanges {B} (proj : World -> B) message :
  orchestrator_frame proj -> keeps proj (commitChanges message).
Proof.
  intros (Hc & He & Hf & Hv & Hg). unfold commitChanges.
  apply keeps_if; [apply keeps_ret|].
  apply keeps_try_catch.
  - repeat first
      [ apply keeps_lift | apply keeps_console_log; assumption
      | apply keeps_modify; intros ?; apply Hg
      | apply keeps_bind; [|intros ?] ].
  - intros e. apply keeps_console_error; assumption.
Qed.

Lemma keeps_call_evolveTestSuite {B} (proj : World -> B) changes cur target :
  orchestrator_frame proj -> keeps proj (call_evolveTestSuite changes cur target).
Proof.
  intros (Hc & He & Hf & Hv & Hg) w. unfold call_evolveTestSuite.
  destruct (evolver_evolveTestSuite (testEvolver w) changes cur target) as [r st].
  simpl. apply Hv.
Qed.

Lemma keeps_collectSourceFiles {B} (proj : World -> B) paths acc :
  keeps proj (collectSourceFiles paths acc).
Proof.
  revert acc. induction paths as [|p paths IH]; intros acc; simpl.
  - apply keeps_ret.
  - apply keeps_bind; [apply keeps_gets|]. intros files. apply IH.
Qed.

Lemma keeps_coverTestFiles {B} (proj : World -> B) tests sources acc :
  analyzer_frame proj -> keeps proj (coverTestFiles tests sources acc).
Proof.
  intros H. revert acc. induction tests as [|t tests IH]; intros acc; simpl.
  - apply keeps_ret.
  - apply keeps_bind; [apply keeps_calculateCoverage; assumption|]. intros c. apply IH.
Qed.

Lemma keeps_coverTestPaths {B} (proj : World -> B) paths sources acc :
  analyzer_frame proj -> keeps proj (coverTestPaths paths sources acc).
Proof.
  intros H. revert acc. induction paths as [|p paths IH]; intros acc; simpl.
  - apply keeps_ret.
  - apply keeps_bind; [apply keeps_gets|]. intros present.
    apply keeps_if; [|apply IH].
    apply keeps_bind; [apply keeps_gets|]. intros files.
    apply keeps_bind; [apply keeps_coverTestFiles; assumption|]. intros acc'. apply IH.
Qed.

Lemma keeps_calculateCurrentCoverage {B} (proj : World -> B) :
  analyzer_frame proj -> keeps proj calculateCurrentCoverage.
Proof.
  intros H. unfold calculateCurrentCoverage.
  apply keeps_bind; [apply keeps_collectSourceFiles|]. intros sources.
  apply keeps_bind; [apply keeps_coverTestPaths; assumption|]. intros [total count].
  apply keeps_ret.
Qed.

Lemma keeps_evolveTestSuite {B} (proj : World -> B) changes :
  orchestrator_frame proj -> keeps proj (evolveTestSuite changes).
Proof.
  intros H. pose proof (orchestrator_analyzer_frame proj H) as Ha.
  pose proof H as (Hc & He & Hf & Hv & Hg). unfold evolveTestSuite.
  apply keeps_bind; [apply keeps_console_log; assumption|]. intros _.
  apply keeps_bind; [apply keeps_calculateCurrentCoverage; assumption|]. intros cur.
  apply keeps_bind; [apply keeps_call_evolveTestSuite; assumption|]. intros evolution.
  apply keeps_bind; [apply keeps_console_log; assumption|]. intros _.
  apply keeps_bind; [apply keeps_modify; intros ?; apply Hc|]. intros _.
  apply keeps_bind.
  { apply keeps_forM. intros change.
    destruct (act_type change); first [apply keeps_generateTestCode; assumption | apply keeps_ret]. }
  intros _.
  apply keeps_bind; [apply keeps_saveEvolutionHistory; assumption|]. intros _.
  apply keeps_if; [apply keeps_commitChanges; assumption | apply keeps_ret].
Qed.

Lemma frame_o_fileSnapshots : orchestrator_frame fileSnapshots.
Proof. repeat split. Qed.

Lemma frame_o_isEvolving : orchestrator_frame isEvolving.
Proof. repeat split. Qed.

(** *** The handler of file events *)

Lemma handleFileChange_dropped w p event :
  isEvolving w = true -> handleFileChange p event w = (Ok tt, dropped w).
Proof.
  intros H. unfold handleFileChange, bind, gets. rewrite H. reflexivity.
Qed.

Lemma handleFileChange_cycle w p event :
  isEvolving w = false ->
  handleFileChange p event w =
  match handleFileChange_body p event (enter p event w) with
  | (Ok _, w') => (Ok tt, set_isEvolving false w')
  | (Throw e, w') =>
      (Ok tt, set_isEvolving false
                (set_console (console w' ++ [LogError "Error during evolution:" e]) w'))
  end.
Proof.
  intros H. unfold handleFileChange, bind, gets. rewrite H. simpl.
  unfold try_finally, try_catch, enter.
  match goal with |- context [handleFileChange_body p event ?x] =>
    destruct (handleFileChange_body p event x) as [[[]|e] w'] end; reflexivity.
Qed.

Lemma handleFileChange_clear w p event :
  isEvolving w = false ->
  fst (handleFileChange p event w) = Ok tt /\
  isEvolving (snd (handleFileChange p event w)) = false.
Proof.
  intros H. rewrite (handleFileChange_cycle w p event H).
  destruct (handleFileChange_body p event (enter p event w)) as [[u|e] w'];
    split; reflexivity.
Qed.

Lemma on_events_clear events : forall w,
  isEvolving w = false ->
  fst (on_events events w) = Ok tt /\
  isEvolving (snd (on_events events w)) = false.
Proof.
  unfold on_events.
  induction events as [|[e p] events IH]; intros w H; simpl.
  - split; [reflexivity | exact H].
  - unfold bind.
    assert (Hstep : fst (on_event e p w) = Ok tt /\
                    isEvolving (snd (on_event e p w)) = false)
      by (destruct e; apply handleFileChange_clear; exact H).
    destruct (on_event e p w) as [r w1]. simpl in Hstep.
    destruct Hstep as [-> Hg]. apply IH, Hg.
Qed.

(** C4 (as amended).  An invocation of [handleFileChange] that finds the
    guard clear returns normally with the guard clear, whatever succeeded
    or threw in between; an invocation that finds the guard set returns at
    once and changes nothing but the console, so the guard stays with the
    cycle that holds it; and after any sequence of events handled one
    after the other from a clear guard, the guard is clear. *)
Theorem handleFileChange_releases_guard w p event :
  (isEvolving w = false ->
     fst (handleFileChange p event w) = Ok tt /\
     isEvolving (snd (handleFileChange p event w)) = false) /\
  (isEvolving w = true ->
     handleFileChange p event w = (Ok tt, dropped w) /\
     isEvolving (snd (handleFileChange p event w)) = true) /\
  (forall events,
     isEvolving w = false ->
     fst (on_events events w) = Ok tt /\
     isEvolving (snd (on_events events w)) = false).
Proof.
  split; [apply handleFileChange_clear|]. split.
  - intros H. rewrite (handleFileChange_dropped w p event H).
    split; [reflexivity | exact H].
  - intros events. apply on_events_clear.
Qed.

(** *** Content snapshots *)

(** X18.  A detected change on an [add] or [change] event stores the
    content of the file as its snapshot, before the evolution runs and
    whether or not the evolution then throws. *)
Lemma handleFileChange_stores_snapshot w p event c change :
  isEvolving w = false ->
  event <> "delete" ->
  is_file (fs w) p c ->
  fst (detectChanges p (fileSnapshots w !! p) (enter p event w)) = Ok (Some change) ->
  fileSnapshots (snd (handleFileChange p event w)) = <[p := c]> (fileSnapshots w).
Proof.
  intros Hg Hev Hf Hd.
  rewrite (handleFileChange_cycle w p event Hg).
  unfold handleFileChange_body, bind. cbn [gets fst snd].
  change (fileSnapshots (enter p event w)) with (fileSnapshots w).
  pose proof (keeps_detectChanges fs p (fileSnapshots w !! p) frame_fs (enter p event w)) as Hfs.
  pose proof (keeps_detectChanges fileSnapshots p (fileSnapshots w !! p)
                frame_fileSnapshots (enter p event w)) as Hsn.
  destruct (detectChanges p (fileSnapshots w !! p) (enter p event w)) as [r w1].
  simpl in Hd, Hfs, Hsn. subst r.
  apply String.eqb_neq in Hev. rewrite Hev. cbn [negb].
  assert (Hf1 : is_file (fs w1) p c) by (unfold is_file; rewrite Hfs; exact Hf).
  rewrite (readFileSync_file _ _ _ Hf1). cbn [modify].
  match goal with |- context [evolveTestSuite [change] ?x] =>
    pose proof (keeps_evolveTestSuite fileSnapshots [change] frame_o_fileSnapshots x) as Hk;
    destruct (evolveTestSuite [change] x) as [[u|e] w2] end;
    simpl in Hk |- *; rewrite Hk, Hsn; reflexivity.
Qed.

(** When the file of the event cannot be read -- the usual state of
    affairs after an [unlink] -- change detection throws, the handler logs
    the error, and the snapshots stay as they were. *)
Lemma handleFileChange_missing_file w p event :
  isEvolving w = false ->
  Fs.lookup (fs w) p = None ->
  handleFileChange p event w =
  (Ok tt,
   set_isEvolving false
     (set_console (console (enter p event w) ++
                   [LogError "Error during evolution:" (FsError "ENOENT" p)])
                  (enter p event w))).
Proof.
  intros Hg Hf.
  rewrite (handleFileChange_cycle w p event Hg).
  unfold handleFileChange_body, bind. cbn [gets fst snd].
  rewrite detectChanges_missing by exact Hf. reflexivity.
Qed.

(** A detected change on a [delete] event whose file can still be read
    removes the snapshot. *)
Lemma handleFileChange_delete_readable w p change :
  isEvolving w = false ->
  fst (detectChanges p (fileSnapshots w !! p) (enter p "delete" w)) = Ok (Some change) ->
  fileSnapshots (snd (handleFileChange p "delete" w)) = delete p (fileSnapshots w).
Proof.
  intros Hg Hd.
  rewrite (handleFileChange_cycle w p "delete" Hg).
  unfold handleFileChange_body, bind. cbn [gets fst snd].
  change (fileSnapshots (enter p "delete" w)) with (fileSnapshots w).
  pose proof (keeps_detectChanges fileSnapshots p (fileSnapshots w !! p)
                frame_fileSnapshots (enter p "delete" w)) as Hsn.
  destruct (detectChanges p (fileSnapshots w !! p) (enter p "delete" w)) as [r w1].
  simpl in Hd, Hsn. subst r. cbn [String.eqb Ascii.eqb Bool.eqb negb modify].
  match goal with |- context [evolveTestSuite [change] ?x] =>
    pose proof (keeps_evolveTestSuite fileSnapshots [change] frame_o_fileSnapshots x) as Hk;
    destruct (evolveTestSuite [change] x) as [[u|e] w2] end;
    simpl in Hk |- *; rewrite Hk, Hsn; reflexivity.
Qed.

(** *** Writing files *)

Lemma assoc_set_entry {A} name (a : A) es :
  Fs.assoc name (Fs.set_entry name a es) = Some a.
Proof.
  induction es as [|[n b] es IH]; simpl.
  - rewrite String.eqb_refl. reflexivity.
  - destruct (String.eqb n name) eqn:E; simpl; rewrite E; [reflexivity | exact IH].
Qed.

Lemma write_lookup p : forall n c n',
  Fs.write n p c = Some n' -> Fs.lookup n' p = Some (Fs.File c).
Proof.
  induction p as [|seg rest IH]; intros n c n' H; simpl in H.
  - destruct n; [|discriminate]. injection H as <-. reflexivity.
  - destruct n as [|es]; [discriminate|].
    destruct (Fs.assoc seg es) as [child|] eqn:Ea.
    + destruct (Fs.write child rest c) as [child'|] eqn:Ew; [|discriminate].
      injection H as <-. simpl. rewrite assoc_set_entry. eapply IH, Ew.
    + destruct rest; [|discriminate]. injection H as <-.
      simpl. rewrite assoc_set_entry. reflexivity.
Qed.

Lemma write_into_directory dir : forall n es name c,
  Fs.lookup n dir = Some (Fs.Dir es) ->
  (forall sub, Fs.assoc name es <> Some (Fs.Dir sub)) ->
  exists n', Fs.write n (dir ++ [name]) c = Some n'.
Proof.
  induction dir as [|seg rest IH]; intros n es name c Hl Hn; simpl in Hl.
  - injection Hl as ->. simpl.
    destruct (Fs.assoc name es) as [[old|sub]|] eqn:Ea; eauto.
    exfalso. eapply Hn. reflexivity.
  - destruct n as [|es0]; [discriminate|]. simpl.
    destruct (Fs.assoc seg es0) as [child|]; [|discriminate].
    destruct (IH child es name c Hl Hn) as [child' ->]. eauto.
Qed.





(** *** The coverage of the whole suite *)

Lemma collectSourceFiles_run paths : forall acc w,
  collectSourceFiles paths acc w
  = (Ok (acc ++ flat_map (fun p => getAllFiles_in (fs w) p [".js"; ".ts"]) paths), w).
Proof.
  induction paths as [|p paths IH]; intros acc w; simpl.
  - rewrite app_nil_r. reflexivity.
  - unfold bind, getAllFiles, gets. rewrite IH, <- app_assoc. reflexivity.
Qed.

Lemma coverTestFiles_run sources contents tests : forall testContents acc w,
  Forall2 (is_file (fs w)) sources contents ->
  Forall2 (is_file (fs w)) tests testContents ->
  exists w',
    coverTestFiles tests sources acc w
    = (Ok (fold_left Qplus
             (map (fun tc => coverage_value tc (inventory sources contents)) testContents)
             (fst acc),
           (snd acc + length tests)%nat), w') /\
    fs w' = fs w.
Proof.
  induction tests as [|t tests IH]; intros testContents acc w Hs Ht.
  - inversion Ht; subst. simpl. exists w. rewrite Nat.add_0_r.
    destruct acc; split; reflexivity.
  - inversion Ht as [|? tc ? tcs Hf Ht']; subst. simpl. unfold bind.
    pose proof (calculateCoverage_returns w t tc sources contents Hf Hs) as Hr.
    pose proof (keeps_calculateCoverage fs t sources frame_fs w) as Hk.
    destruct (calculateCoverage t sources w) as [r w1]. simpl in Hr, Hk. subst r.
    destruct (IH tcs ((fst acc + coverage_value tc (inventory sources contents))%Q, S (snd acc)) w1)
      as (w' & Hrun & Hfs); [rewrite Hk; assumption | rewrite Hk; assumption |].
    exists w'. rewrite Hrun. simpl. split; [|congruence].
    do 3 f_equal. lia.
Qed.

Lemma coverTestPaths_run sources contents paths : forall testContents acc w,
  Forall2 (is_file (fs w)) sources contents ->
  Forall2 (is_file (fs w))
          (flat_map (fun p => getAllFiles_in (fs w) p [".test.js"; ".spec.js"]) paths)
          testContents ->
  exists w',
    coverTestPaths paths sources acc w
    = (Ok (fold_left Qplus
             (map (fun tc => coverage_value tc (inventory sources contents)) testContents)
             (fst acc),
           (snd acc + length testContents)%nat), w') /\
    fs w' = fs w.
Proof.
  induction paths as [|p paths IH]; intros testContents acc w Hs Ht.
  - inversion Ht; subst. simpl. exists w. rewrite Nat.add_0_r.
    destruct acc; split; reflexivity.
  - simpl in Ht. apply Forall2_app_inv_l in Ht as (tcs1 & tcs2 & Ht1 & Ht2 & ->).
    simpl. unfold bind, existsSync, getAllFiles, gets, Fs.existsSync. cbn [fst snd].
    destruct (Fs.lookup (fs w) p) as [n|] eqn:El.
    + destruct (coverTestFiles_run sources contents _ tcs1 acc w Hs Ht1) as (w1 & Hrun & Hfs).
      rewrite Hrun.
      destruct (IH tcs2 (fold_left Qplus
                 (map (fun tc => coverage_value tc (inventory sources contents)) tcs1)
                 (fst acc),
               (snd acc + length (getAllFiles_in (fs w) p [".test.js"; ".spec.js"]))%nat) w1)
        as (w' & Hrun' & Hfs'); [rewrite Hfs; assumption | rewrite Hfs; assumption|].
      exists w'. rewrite Hrun'. split; [|congruence].
      rewrite map_app, fold_left_app, length_app.
      apply Forall2_length in Ht1. cbn [fst snd]. rewrite Ht1.
      do 3 f_equal. lia.
    + unfold getAllFiles_in in Ht1. rewrite El in Ht1. inversion Ht1; subst.
      simpl. apply IH; assumption.
Qed.

(** *** Metrics *)

Lemma count_autoGenerated_filter tests :
  length (filter (fun t => tc_autoGenerated t = true) tests) = count_autoGenerated tests.
Proof.
  induction tests as [|t tests IH]; [reflexivity|].
  rewrite filter_cons. simpl. destruct (tc_autoGenerated t) eqn:E.
  - rewrite decide_True by reflexivity. simpl. rewrite IH. reflexivity.
  - rewrite decide_False by discriminate. rewrite IH. reflexivity.
Qed.

(** C10.  [getMetrics] reports the size of the store of the evolver, the
    number of stored cases flagged [autoGenerated], and the [coverage.after]
    and the timestamp of the last entry of the history; with an empty
    history the coverage is 0 and the last evolution is [null]. *)
Theorem getMetrics_spec w :
  totalTests (getMetrics w) = length (testCases (testEvolver w)) /\
  autoGeneratedTests (getMetrics w) = count_autoGenerated (testCases (testEvolver w)) /\
  coverage (getMetrics w)
    = match last (evolutionHistory (testEvolver w)) with
      | Some h => cov_after (ev_coverage h)
      | None => 0%Q
      end /\
  lastEvolution (getMetrics w)
    = match last (evolutionHistory (testEvolver w)) with
      | Some h => Some (ev_timestamp h)
      | None => None
      end /\
  (evolutionHistory (testEvolver w) = [] ->
     coverage (getMetrics w) = 0%Q /\ lastEvolution (getMetrics w) = None).
Proof.
  unfold getMetrics, getTestCases, getEvolutionHistory. cbn [totalTests autoGeneratedTests coverage lastEvolution].
  split; [reflexivity|]. split; [apply count_autoGenerated_filter|].
  destruct (evolutionHistory (testEvolver w)) as [|h hs] eqn:E.
  - repeat split.
  - rewrite last_lookup. cbn [length Nat.ltb Nat.leb Nat.pred Nat.sub].
    rewrite Nat.sub_0_r.
    repeat split; discriminate.
Qed.

(** *** The Python recogniser *)

Lemma append_assoc (a b c : string) : (a +:+ b) +:+ c = a +:+ (b +:+ c).
Proof.
  induction a as [|x a IH]; [reflexivity|].
  change (String x ((a +:+ b) +:+ c) = String x (a +:+ (b +:+ c))).
  rewrite IH. reflexivity.
Qed.

Lemma append_cons c (a b : string) : String c a +:+ b = String c (a +:+ b).
Proof. reflexivity. Qed.

Lemma append_nil (b : string) : "" +:+ b = b.
Proof. reflexivity. Qed.

Ltac normalize_append :=
  repeat first [rewrite append_assoc | rewrite append_cons | rewrite append_nil].

Lemma span_nonquote_spec s : forall run rest,
  PyRoutes.span_nonquote s = (run, rest) ->
  s = run +:+ rest /\ quote_free run = true.
Proof.
  induction s as [|c s IH]; intros run rest H; simpl in H.
  - injection H as <- <-. split; reflexivity.
  - destruct (PyRoutes.is_quote c) eqn:Hq.
    + injection H as <- <-. split; reflexivity.
    + destruct (PyRoutes.span_nonquote s) as [run' rest'].
      injection H as <- <-. destruct (IH run' rest' eq_refl) as [-> Hf].
      split; [reflexivity|]. simpl. rewrite Hq, Hf. reflexivity.
Qed.

Lemma match_args_spec s p n :
  PyRoutes.match_args s = Some (p, n) ->
  exists q q' rest,
    s = String "("%char (String q (p +:+ String q' (String ")"%char rest))) /\
    PyRoutes.is_quote q = true /\ PyRoutes.is_quote q' = true /\
    p <> "" /\ quote_free p = true.
Proof.
  unfold PyRoutes.match_args. intros H.
  destruct s as [|c0 s]; [discriminate|].
  destruct (Ascii.eqb_spec c0 "("%char) as [->|Hne].
  2:{ destruct c0 as [[] [] [] [] [] [] [] []]; try discriminate; congruence. }
  destruct s as [|q s1]; [discriminate|].
  destruct (PyRoutes.is_quote q) eqn:Hq; [|discriminate].
  destruct (PyRoutes.span_nonquote s1) as [run rest] eqn:Hs.
  destruct run as [|c run]; [discriminate|].
  destruct rest as [|q' rest]; [discriminate|].
  destruct rest as [|c1 rest]; [discriminate|].
  destruct (Ascii.eqb_spec c1 ")"%char) as [->|Hne].
  2:{ destruct c1 as [[] [] [] [] [] [] [] []]; try discriminate; congruence. }
  destruct (PyRoutes.is_quote q') eqn:Hq'; [|discriminate].
  injection H as <- <-.
  destruct (span_nonquote_spec _ _ _ Hs) as [-> Hf].
  exists q, q', rest. repeat split; try assumption; discriminate.
Qed.

Lemma match_method_spec ms s m p n :
  PyRoutes.match_method ms s = Some (m, p, n) ->
  In m ms /\ exists rest k, s = m +:+ rest /\ PyRoutes.match_args rest = Some (p, k).
Proof.
  induction ms as [|m0 ms IH]; simpl; [discriminate|].
  destruct (Str.strip_prefix m0 s) as [rest|] eqn:Hp.
  - destruct (PyRoutes.match_args rest) as [[p0 k]|] eqn:Ha.
    + intros [= <- <- <-]. split; [left; reflexivity|].
      exists rest, k. split; [apply strip_prefix_spec, Hp | exact Ha].
    + intros H. destruct (IH H) as [Hin Hr]. split; [right; exact Hin | exact Hr].
  - intros H. destruct (IH H) as [Hin Hr]. split; [right; exact Hin | exact Hr].
Qed.

Lemma match_here_spec obj s m p n :
  PyRoutes.match_here obj s = Some (m, p, n) ->
  In m PyRoutes.http_methods /\ p <> "" /\ quote_free p = true /\
  exists q q' rest,
    PyRoutes.is_quote q = true /\ PyRoutes.is_quote q' = true /\
    s = decorator_text obj m q p q' +:+ rest.
Proof.
  unfold PyRoutes.match_here. intros H.
  destruct (Str.strip_prefix ("@" +:+ obj +:+ ".") s) as [r|] eqn:Hp; [|discriminate].
  destruct (PyRoutes.match_method PyRoutes.http_methods r) as [[[m0 p0] k]|] eqn:Hm;
    [|discriminate].
  injection H as <- <- <-.
  apply strip_prefix_spec in Hp.
  destruct (match_method_spec _ _ _ _ _ Hm) as (Hin & rest & k' & -> & Ha).
  destruct (match_args_spec _ _ _ Ha) as (q & q' & rest' & -> & Hq & Hq' & Hne & Hf).
  repeat split; try assumption.
  exists q, q', rest'. repeat split; try assumption.
  rewrite Hp. unfold decorator_text.
  normalize_append. reflexivity.
Qed.

Lemma exec_all_sound obj s : forall skip m p,
  In (m, p) (PyRoutes.exec_all obj skip s) ->
  In m PyRoutes.http_methods /\ p <> "" /\ quote_free p = true /\
  exists q q',
    PyRoutes.is_quote q = true /\ PyRoutes.is_quote q' = true /\
    Str.includes s (decorator_text obj m q p q') = true.
Proof.
  induction s as [|c s IH]; intros skip m p Hin; simpl in Hin; [contradiction|].
  assert (Htail : forall k, In (m, p) (PyRoutes.exec_all obj k s) ->
    In m PyRoutes.http_methods /\ p <> "" /\ quote_free p = true /\
    exists q q',
      PyRoutes.is_quote q = true /\ PyRoutes.is_quote q' = true /\
      Str.includes (String c s) (decorator_text obj m q p q') = true).
  { intros k Hk. destruct (IH k m p Hk) as (H1 & H2 & H3 & q & q' & Hq & Hq' & Hi).
    repeat split; try assumption. exists q, q'. repeat split; try assumption.
    cbn [Str.includes]. rewrite Hi. apply orb_true_r. }
  destruct skip as [|k]; [|apply (Htail k Hin)].
  destruct (PyRoutes.match_here obj (String c s)) as [[[m0 p0] n]|] eqn:Hm;
    [|apply (Htail 0%nat Hin)].
  destruct Hin as [[= <- <-]|Hin]; [|apply (Htail _ Hin)].
  destruct (match_here_spec _ _ _ _ _ Hm) as (H1 & H2 & H3 & q & q' & rest & Hq & Hq' & Hs).
  repeat split; try assumption. exists q, q'. repeat split; try assumption.
  apply includes_spec. exists "", rest. exact Hs.
Qed.

Ltac pick_member :=
  simpl;
  first [ left; reflexivity
        | right; left; reflexivity
        | do 2 right; left; reflexivity
        | do 3 right; left; reflexivity
        | do 4 right; left; reflexivity ].

Lemma upper_of_http_method m :
  In m PyRoutes.http_methods ->
  In (Str.toUpperCase m) ["GET"; "POST"; "PUT"; "DELETE"; "PATCH"].
Proof.
  intros H. repeat (destruct H as [<-|H]; [pick_member|]). destruct H.
Qed.

(** X1.  Every endpoint that the Python recogniser reports comes from a
    route decorator that occurs in the content: its method is the upper
    case of one of the five verbs, its path is non-empty and free of
    quotes, it has no description, and the content contains [@app.] or
    [@router.], the verb, and the path between two quotes in parentheses. *)
Theorem python_endpoints_sound content e :
  In e (python_endpoints content) ->
  ep_description e = None /\
  ep_path e <> "" /\ quote_free (ep_path e) = true /\
  exists obj m q q',
    (obj = "app" \/ obj = "router") /\
    In m PyRoutes.http_methods /\
    ep_method e = Str.toUpperCase m /\
    PyRoutes.is_quote q = true /\ PyRoutes.is_quote q' = true /\
    Str.includes content (decorator_text obj m q (ep_path e) q') = true.
Proof.
  unfold python_endpoints. intros H.
  apply in_map_iff in H as ([m p] & <- & H). cbn [fst snd ep_description ep_path ep_method].
  split; [reflexivity|].
  apply in_app_or in H as [H|H];
    destruct (exec_all_sound _ _ _ _ _ H) as (Hm & Hne & Hf & q & q' & Hq & Hq' & Hi);
    (split; [exact Hne|]; split; [exact Hf|]).
  - exists "app", m, q, q'. repeat split; auto.
  - exists "router", m, q, q'. repeat split; auto.
Qed.

Lemma span_nonquote_run p : forall q rest,
  quote_free p = true -> PyRoutes.is_quote q = true ->
  PyRoutes.span_nonquote (p +:+ String q rest) = (p, String q rest).
Proof.
  induction p as [|c p IH]; intros q rest Hf Hq.
  - rewrite append_nil. simpl. rewrite Hq. reflexivity.
  - rewrite append_cons. simpl in Hf |- *.
    apply andb_true_iff in Hf as [Hc Hf]. apply negb_true_iff in Hc.
    rewrite Hc, (IH q rest Hf Hq). reflexivity.
Qed.

Lemma match_args_decorator q p q' rest :
  PyRoutes.is_quote q = true -> PyRoutes.is_quote q' = true ->
  p <> "" -> quote_free p = true ->
  PyRoutes.match_args (String "("%char (String q (p +:+ String q' (String ")"%char rest))))
  = Some (p, (4 + String.length p)%nat).
Proof.
  intros Hq Hq' Hne Hf. unfold PyRoutes.match_args.
  rewrite Hq, (span_nonquote_run p q' _ Hf Hq'), Hq'.
  destruct p; [congruence | reflexivity].
Qed.

Lemma strip_prefix_append p r : Str.strip_prefix p (p +:+ r) = Some r.
Proof. apply strip_prefix_spec. reflexivity. Qed.

Lemma match_here_decorator obj m q p q' rest :
  In m PyRoutes.http_methods ->
  PyRoutes.is_quote q = true -> PyRoutes.is_quote q' = true ->
  p <> "" -> quote_free p = true ->
  exists n, PyRoutes.match_here obj (decorator_text obj m q p q' +:+ rest) = Some (m, p, n).
Proof.
  intros Hm Hq Hq' Hne Hf. unfold PyRoutes.match_here, decorator_text.
  assert (Hs : ("@" +:+ obj +:+ "." +:+ m +:+
                String "("%char (String q (p +:+ String q' ")"))) +:+ rest
             = ("@" +:+ obj +:+ ".") +:+
               (m +:+ String "("%char (String q (p +:+ String q' (String ")"%char rest)))))
    by (normalize_append; reflexivity).
  rewrite Hs, strip_prefix_append.
  pose proof (match_args_decorator q p q' rest Hq Hq' Hne Hf) as Ha.
  unfold PyRoutes.http_methods in Hm |- *.
  repeat (destruct Hm as [<-|Hm];
          [cbn [PyRoutes.match_method Str.strip_prefix Ascii.eqb Bool.eqb String.append];
           rewrite ?append_cons, ?append_nil;
           cbn [PyRoutes.match_method Str.strip_prefix Ascii.eqb Bool.eqb];
           rewrite Ha; eauto|]).
  destruct Hm.
Qed.

Lemma no_at_sign_no_match obj c s :
  c <> "@"%char -> PyRoutes.match_here obj (String c s) = None.
Proof.
  intros Hc. unfold PyRoutes.match_here.
  rewrite append_cons. cbn [Str.strip_prefix].
  destruct (Ascii.eqb_spec "@"%char c) as [<-|_]; [congruence | reflexivity].
Qed.

Lemma exec_all_first_decorator obj before : forall m q p q' rest,
  Forall (fun c => c <> "@"%char) (list_ascii_of_string before) ->
  In m PyRoutes.http_methods ->
  PyRoutes.is_quote q = true -> PyRoutes.is_quote q' = true ->
  p <> "" -> quote_free p = true ->
  exists others,
    PyRoutes.exec_all obj 0 (before +:+ decorator_text obj m q p q' +:+ rest)
    = (m, p) :: others.
Proof.
  induction before as [|c before IH]; intros m q p q' rest Hb Hm Hq Hq' Hne Hf.
  - rewrite append_nil.
    destruct (match_here_decorator obj m q p q' rest Hm Hq Hq' Hne Hf) as [n Hn].
    remember (decorator_text obj m q p q' +:+ rest) as s eqn:Es.
    destruct s as [|c s].
    + unfold decorator_text in Es. rewrite !append_cons in Es. discriminate.
    + cbn [PyRoutes.exec_all]. rewrite Hn. eauto.
  - rewrite append_cons. cbn [PyRoutes.exec_all].
    simpl in Hb. inversion Hb as [|? ? Hc Hb']; subst.
    rewrite (no_at_sign_no_match obj c _ Hc).
    apply IH; assumption.
Qed.

(** X2.  A route decorator of the content that no at sign precedes is
    found: its endpoint is reported, and with [@app] it is the first of
    the list. *)
Theorem python_first_decorator_found obj before m q p q' rest :
  obj = "app" \/ obj = "router" ->
  Forall (fun c => c <> "@"%char) (list_ascii_of_string before) ->
  In m PyRoutes.http_methods ->
  PyRoutes.is_quote q = true -> PyRoutes.is_quote q' = true ->
  p <> "" -> quote_free p = true ->
  let content := before +:+ decorator_text obj m q p q' +:+ rest in
  In (mkEndpoint p (Str.toUpperCase m) None) (python_endpoints content) /\
  (obj = "app" ->
   head (python_endpoints content) = Some (mkEndpoint p (Str.toUpperCase m) None)).
Proof.
  intros Hobj Hb Hm Hq Hq' Hne Hf content.
  destruct (exec_all_first_decorator obj before m q p q' rest Hb Hm Hq Hq' Hne Hf)
    as [others Hrun].
  fold content in Hrun. unfold python_endpoints. split.
  - apply in_map_iff. exists (m, p). split; [reflexivity|].
    apply in_or_app. destruct Hobj as [-> | ->]; [left | right];
      rewrite Hrun; left; reflexivity.
  - intros ->. rewrite Hrun. reflexivity.
Qed.

(** *** The JavaScript recogniser *)

Lemma in_list_In x l : in_list x l = true -> In x l.
Proof.
  unfold in_list. intros H. apply existsb_exists in H as (y & Hy & He).
  apply String.eqb_eq in He. subst y. exact Hy.
Qed.

Lemma visit_valid p endpoints endpoints' :
  Forall valid_method endpoints ->
  visit p endpoints = Ok endpoints' ->
  Forall valid_method endpoints'.
Proof.
  intros Hv. unfold visit, visitCallExpression, visitDecorator.
  destruct (Ast.node p) as [| | |callee args|expr|]; try (intros [= <-]; exact Hv).
  - destruct callee as [| |obj prop| | |]; try (intros [= <-]; exact Hv).
    destruct prop as [name| | | | |]; try (intros [= <-]; exact Hv).
    destruct (in_list name ["get"; "post"; "put"; "delete"; "patch"]) eqn:Hin;
      [|intros [= <-]; exact Hv].
    destruct args as [|[|value| | | |] [|a2 args]]; try (intros [= <-]; exact Hv).
    destruct (this_extractDescription p) as [d|e]; [|discriminate].
    intros [= <-]. apply Forall_app. split; [exact Hv|].
    constructor; [|constructor]. unfold valid_method. cbn [ep_method].
    apply in_list_In in Hin.
    repeat (destruct Hin as [<-|Hin]; [pick_member|]). destruct Hin.
  - destruct expr as [| | |callee args| |]; try (intros [= <-]; exact Hv).
    destruct callee as [name| | | | |]; try (intros [= <-]; exact Hv).
    destruct (in_list name ["Get"; "Post"; "Put"; "Delete"; "Patch"]) eqn:Hin;
      [|intros [= <-]; exact Hv].
    destruct args as [|[|value| | | |] args]; try (intros [= <-]; exact Hv).
    destruct (this_extractDescription p) as [d|e]; [|discriminate].
    intros [= <-]. apply Forall_app. split; [exact Hv|].
    constructor; [|constructor]. unfold valid_method. cbn [ep_method].
    apply in_list_In in Hin.
    repeat (destruct Hin as [<-|Hin]; [pick_member|]). destruct Hin.
Qed.

Lemma traverse_valid paths : forall endpoints,
  Forall valid_method endpoints ->
  Forall valid_method (fst (traverse paths endpoints)).
Proof.
  induction paths as [|p paths IH]; intros endpoints Hv; simpl; [exact Hv|].
  destruct (visit p endpoints) as [endpoints'|e] eqn:Hvis; [|exact Hv].
  apply IH. eapply visit_valid; eassumption.
Qed.

Lemma endpoints_of_valid p c : Forall valid_method (endpoints_of p c).
Proof.
  unfold endpoints_of.
  destruct (String.eqb (Fs.extname p) ".js" || String.eqb (Fs.extname p) ".ts").
  - unfold parse_and_traverse. destruct (babel c) as [paths|e]; [|constructor].
    apply traverse_valid. constructor.
  - destruct (String.eqb (Fs.extname p) ".py"); [|constructor].
    unfold python_endpoints. apply List.Forall_forall. intros e He.
    apply in_map_iff in He as ([m path] & <- & Hin). unfold valid_method. cbn [ep_method fst].
    apply upper_of_http_method.
    apply in_app_or in Hin as [Hin|Hin];
      destruct (exec_all_sound _ _ _ _ _ Hin) as [Hm _]; exact Hm.
Qed.

(** X3.  Whatever the parser and the traversal do, every endpoint that
    [analyzeFile] returns has one of the methods GET, POST, PUT, DELETE and
    PATCH, in upper case. *)
Theorem analyzeFile_methods p w :
  match fst (analyzeFile p w) with
  | Ok endpoints => Forall valid_method endpoints
  | Throw _ => True
  end.
Proof.
  unfold analyzeFile, bind, readFileSync.
  destruct (Fs.lookup (fs w) p) as [[c|es]|] eqn:Hl; cbn [fst]; try exact I.
  pose proof (analyzeFile_returns w p c Hl) as Hr.
  unfold analyzeFile, bind in Hr. rewrite (readFileSync_file _ _ _ Hl) in Hr.
  rewrite Hr. apply endpoints_of_valid.
Qed.

Lemma visit_nil_when_description_throws p :
  (forall q, exists e, this_extractDescription q = Throw e) ->
  visit p [] = Ok [] \/ exists e, visit p [] = Throw e.
Proof.
  intros Hthrow. unfold visit, visitCallExpression, visitDecorator.
  destruct (Hthrow p) as [e He]. rewrite He.
  repeat match goal with
         | |- context [match ?x with _ => _ end] => destruct x; eauto
         end.
Qed.

(** X4.  An endpoint is pushed only after the call that extracts its
    description has returned: when that call throws on every path, the
    JavaScript recogniser returns no endpoint, whatever the program. *)
Theorem analyzeJavaScript_needs_descriptions content p w :
  (forall q, exists e, this_extractDescription q = Throw e) ->
  fst (analyzeJavaScript content p w) = Ok [].
Proof.
  intros Hthrow. rewrite analyzeJavaScript_returns. f_equal.
  unfold parse_and_traverse. destruct (babel content) as [paths|e]; [|reflexivity].
  induction paths as [|q paths IH]; [reflexivity|]. simpl.
  destruct (visit_nil_when_description_throws q Hthrow) as [-> | [e ->]];
    [exact IH | reflexivity].
Qed.

(** *** The cache of extractions *)

Lemma analyzeFile_cache w p c :
  is_file (fs w) p c ->
  endpointCache (snd (analyzeFile p w))
  = if supported p then <[p := endpoints_of p c]> (endpointCache w) else endpointCache w.
Proof.
  intros Hf. unfold analyzeFile, bind, supported, endpoints_of.
  rewrite (readFileSync_file _ _ _ Hf).
  destruct (String.eqb (Fs.extname p) ".js" || String.eqb (Fs.extname p) ".ts") eqn:Hj.
  - cbn [orb]. rewrite analyzeJavaScript_run.
    destruct (parse_and_traverse c) as [eps [e|]]; reflexivity.
  - cbn [orb]. destruct (String.eqb (Fs.extname p) ".py"); reflexivity.
Qed.

(** X5.  On a readable file with one of the extensions [.js], [.ts], [.py],
    [analyzeFile] stores exactly the list it returns as the cache entry of
    that path and leaves the entries of all other paths alone; with any
    other extension the cache is unchanged. *)
Theorem analyzeFile_caches_result w p c :
  is_file (fs w) p c ->
  fst (analyzeFile p w) = Ok (endpoints_of p c) /\
  (supported p = true ->
     endpointCache (snd (analyzeFile p w)) !! p = Some (endpoints_of p c) /\
     forall q, q <> p ->
       endpointCache (snd (analyzeFile p w)) !! q = endpointCache w !! q) /\
  (supported p = false ->
     endpointCache (snd (analyzeFile p w)) = endpointCache w).
Proof.
  intros Hf. split; [apply analyzeFile_returns, Hf|].
  rewrite (analyzeFile_cache w p c Hf).
  split; intros ->.
  - split; [apply lookup_insert_eq|].
    intros q Hq. apply lookup_insert_ne. congruence.
  - reflexivity.
Qed.

(** *** Change detection, continued *)

Lemma additions_are_additions l : Forall is_addition (map addition l).
Proof.
  apply List.Forall_forall. intros c Hc. apply in_map_iff in Hc as (e & <- & _).
  exists e. reflexivity.
Qed.

Lemma removals_are_removals l : Forall is_removal (map removal l).
Proof.
  apply List.Forall_forall. intros c Hc. apply in_map_iff in Hc as (e & <- & _).
  exists e. reflexivity.
Qed.

(** X6.  A change reported by [detectChanges] is about the file asked for
    and is never of type [deleted]; each of its entries is an addition
    ([after] only) or a removal ([before] only) that carries the display
    string of its endpoint, never a modification with both; a change of
    type [added] has additions only, and one of type [modified] is never
    empty. *)
Theorem detectChanges_shape p previousContent w :
  match fst (detectChanges p previousContent w) with
  | Ok (Some change) =>
      cc_file change = p /\
      cc_type change <> deleted /\
      Forall (fun c => is_addition c \/ is_removal c) (cc_changes change) /\
      (cc_type change = added -> Forall is_addition (cc_changes change)) /\
      (cc_type change = modified -> cc_changes change <> [])
  | _ => True
  end.
Proof.
  unfold detectChanges, bind, readFileSync.
  destruct (Fs.lookup (fs w) p) as [[c|es]|]; cbn [fst]; try exact I.
  destruct (absent_or_empty previousContent).
  - unfold analyzeNewFile, bind.
    destruct (analyzeFile p w) as [[eps|e] w1]; cbn [fst ret newDate gets]; [|exact I].
    repeat split; try discriminate.
    + eapply Forall_impl; [apply additions_are_additions|]. intros ch H. left. exact H.
    + intros _. apply additions_are_additions.
  - destruct (bool_decide (Some c = previousContent)); cbn [fst ret]; [exact I|].
    cbn [gets fst snd].
    destruct (analyzeFile p w) as [[eps|e] w1]; cbn [fst]; [|exact I].
    match goal with |- context [(length ?l =? 0)%nat] => set (changes := l) end.
    destruct (Nat.eqb_spec (length changes) 0) as [Hz|Hnz]; cbn [fst ret]; [exact I|].
    cbn [bind newDate gets fst snd ret].
    repeat split; try discriminate.
    + unfold changes. apply Forall_app. split.
      * eapply Forall_impl; [apply additions_are_additions|]. intros ch H. left. exact H.
      * eapply Forall_impl; [apply removals_are_removals|]. intros ch H. right. exact H.
    + intros _. cbn [cc_changes]. intros Hnil. apply Hnz. rewrite Hnil. reflexivity.
Qed.

Lemma same_endpoint_refl e : same_endpoint e e = true.
Proof. unfold same_endpoint. rewrite !String.eqb_refl. reflexivity. Qed.

Lemma found_member e l : In e l -> found e l = true.
Proof.
  intros H. unfold found. apply existsb_exists. exists e. split; [exact H|].
  apply same_endpoint_refl.
Qed.

Lemma filter_not_found_self l :
  filter (fun e => found e l = false) l = [].
Proof.
  assert (H : forall l', (forall e, In e l' -> In e l) ->
                         filter (fun e => found e l = false) l' = []).
  { induction l' as [|e l' IH]; intros Hsub; [reflexivity|].
    rewrite filter_cons.
    rewrite decide_False.
    - apply IH. intros x Hx. apply Hsub. right. exact Hx.
    - rewrite found_member; [discriminate|]. apply Hsub. left. reflexivity. }
  apply H. auto.
Qed.

(** X7.  With a non-empty previous content that differs from the current
    one, [detectChanges] returns the additions followed by the removals
    against the cached extraction; when every current endpoint is found in
    the cached list and every cached one in the current list (only
    descriptions, order or other code changed), it returns nothing. *)
Theorem detectChanges_modified_diff w p prev c :
  is_file (fs w) p c -> prev <> "" -> prev <> c ->
  let previousEndpoints := default [] (endpointCache w !! p) in
  let currentEndpoints := endpoints_of p c in
  let additions := filter (fun e => found e previousEndpoints = false) currentEndpoints in
  let removals := filter (fun e => found e currentEndpoints = false) previousEndpoints in
  (additions ++ removals <> [] ->
     fst (detectChanges p (Some prev) w)
     = Ok (Some (mkCodeChange p modified
                   (map addition additions ++ map removal removals) (clock w)))) /\
  (additions ++ removals = [] ->
     fst (detectChanges p (Some prev) w) = Ok None) /\
  (Forall (fun e => found e previousEndpoints = true) currentEndpoints ->
   Forall (fun e => found e currentEndpoints = true) previousEndpoints ->
     fst (detectChanges p (Some prev) w) = Ok None).
Proof.
  intros Hf Hne Hdiff previousEndpoints currentEndpoints additions removals.
  pose proof (detectChanges_run_modified w p prev c Hf Hne Hdiff) as Hrun.
  cbv zeta in Hrun. fold previousEndpoints currentEndpoints additions removals in Hrun.
  assert (Hnone : additions ++ removals = [] ->
                  fst (detectChanges p (Some prev) w) = Ok None).
  { intros Hnil. apply app_eq_nil in Hnil as [Ha Hr]. rewrite Hrun, Ha, Hr. reflexivity. }
  split; [|split; [exact Hnone|]].
  - intros Hsome. rewrite Hrun.
    destruct (map addition additions ++ map removal removals) as [|ch chs] eqn:E;
      [|reflexivity].
    apply app_eq_nil in E as [Ea Er].
    apply map_eq_nil in Ea, Er. rewrite Ea, Er in Hsome. contradiction Hsome. reflexivity.
  - intros Hcur Hprev. apply Hnone.
    assert (Hempty : forall l k, Forall (fun e => found e k = true) l ->
                                 filter (fun e => found e k = false) l = []).
    { induction l as [|e l IH]; intros k Hk; [reflexivity|].
      inversion Hk as [|? ? He Hl]; subst.
      rewrite filter_cons, decide_False by (rewrite He; discriminate).
      apply IH, Hl. }
    unfold additions, removals. rewrite !Hempty by assumption. reflexivity.
Qed.

(** X8.  [detectChanges] overwrites the cache it diffs against: after a
    call on a file with a supported extension and a previous content that
    is non-empty and differs from the current one, a second call with the
    same arguments reports nothing. *)
Theorem detectChanges_second_call_none w p prev c :
  is_file (fs w) p c -> prev <> "" -> prev <> c -> supported p = true ->
  fst (detectChanges p (Some prev) (snd (detectChanges p (Some prev) w))) = Ok None.
Proof.
  intros Hf Hne Hdiff Hsup.
  set (w1 := snd (detectChanges p (Some prev) w)).
  assert (Hf1 : is_file (fs w1) p c).
  { unfold is_file, w1. rewrite (keeps_detectChanges fs p (Some prev) frame_fs w). exact Hf. }
  assert (Hcache : endpointCache w1 !! p = Some (endpoints_of p c)).
  { unfold w1, detectChanges, bind.
    rewrite (readFileSync_file _ _ _ Hf).
    destruct prev as [|a prev]; [congruence|]. cbn [absent_or_empty Str.truthy negb].
    rewrite bool_decide_eq_false_2 by congruence. cbn [gets fst snd].
    pose proof (analyzeFile_cache w p c Hf) as Hc. rewrite Hsup in Hc.
    destruct (analyzeFile p w) as [[eps|e] w2]; cbn [snd] in Hc |- *.
    - match goal with |- context [(length ?l =? 0)%nat] =>
        destruct (length l =? 0)%nat end;
        cbn [ret bind newDate gets fst snd]; rewrite Hc; apply lookup_insert_eq.
    - rewrite Hc. apply lookup_insert_eq. }
  rewrite (detectChanges_run_modified w1 p prev c Hf1 Hne Hdiff).
  rewrite Hcache. cbn [default]. rewrite !filter_not_found_self. reflexivity.
Qed.

Lemma is_file_functional root p c c' :
  is_file root p c -> is_file root p c' -> c = c'.
Proof. unfold is_file. congruence. Qed.

Lemma analyzeFile_keeps_entry w f cf p c :
  is_file (fs w) f cf -> is_file (fs w) p c ->
  endpointCache w !! p = Some (endpoints_of p c) ->
  endpointCache (snd (analyzeFile f w)) !! p = Some (endpoints_of p c).
Proof.
  intros Hf Hp Hc. rewrite (analyzeFile_cache w f cf Hf).
  destruct (supported f); [|exact Hc].
  destruct (decide (f = p)) as [->|Hne].
  - rewrite (is_file_functional _ _ _ _ Hf Hp). apply lookup_insert_eq.
  - rewrite lookup_insert_ne by exact Hne. exact Hc.
Qed.

Lemma collectEndpoints_cache files : forall contents acc w p c,
  Forall2 (is_file (fs w)) files contents ->
  is_file (fs w) p c -> supported p = true ->
  In p files \/ endpointCache w !! p = Some (endpoints_of p c) ->
  endpointCache (snd (collectEndpoints files acc w)) !! p = Some (endpoints_of p c).
Proof.
  induction files as [|f files IH]; intros contents acc w p c HF Hp Hsup Hor.
  - destruct Hor as [[]|Hc]. exact Hc.
  - inversion HF as [|? cf ? cs Hf HF']; subst. simpl. unfold bind.
    pose proof (keeps_analyzeFile fs f frame_fs w) as Hk.
    pose proof (analyzeFile_returns w f cf Hf) as Hr.
    pose proof (analyzeFile_cache w f cf Hf) as Hcache.
    pose proof (analyzeFile_keeps_entry w f cf p c Hf Hp) as Hkeep.
    destruct (analyzeFile f w) as [r w1]. cbn [fst snd] in Hk, Hr, Hcache, Hkeep. subst r.
    apply (IH cs); try (unfold is_file; rewrite Hk); try assumption.
    destruct (decide (f = p)) as [->|Hne].
    + right. rewrite Hcache, Hsup, (is_file_functional _ _ _ _ Hf Hp).
      apply lookup_insert_eq.
    + destruct Hor as [[Heq|Hin]|Hc]; [congruence | left; exact Hin | right; auto].
Qed.

(** X10.  [calculateCoverage] refreshes the cache that [detectChanges]
    diffs against: once a source file with a supported extension has been
    analysed for coverage, [detectChanges] on it with a non-empty previous
    content that differs from the current one reports nothing. *)
Theorem detectChanges_after_coverage_none w testFile testContent sources contents p c prev :
  is_file (fs w) testFile testContent ->
  Forall2 (is_file (fs w)) sources contents ->
  In p sources -> is_file (fs w) p c -> supported p = true ->
  prev <> "" -> prev <> c ->
  fst (detectChanges p (Some prev) (snd (calculateCoverage testFile sources w))) = Ok None.
Proof.
  intros Ht Hs Hin Hp Hsup Hne Hdiff.
  set (w1 := snd (calculateCoverage testFile sources w)).
  assert (Hfs : fs w1 = fs w) by apply (keeps_calculateCoverage fs _ _ frame_fs w).
  assert (Hcache : endpointCache w1 !! p = Some (endpoints_of p c)).
  { unfold w1, calculateCoverage, bind. rewrite (readFileSync_file _ _ _ Ht).
    pose proof (collectEndpoints_cache sources contents ∅ w p c Hs Hp Hsup (or_introl Hin))
      as Hc.
    destruct (collectEndpoints sources ∅ w) as [[s|e] w2]; exact Hc. }
  assert (Hp1 : is_file (fs w1) p c) by (unfold is_file; rewrite Hfs; exact Hp).
  rewrite (detectChanges_run_modified w1 p prev c Hp1 Hne Hdiff).
  rewrite Hcache. cbn [default]. rewrite !filter_not_found_self. reflexivity.
Qed.

(** *** Coverage, continued *)

Lemma includes_trans a b c :
  Str.includes a b = true -> Str.includes b c = true -> Str.includes a c = true.
Proof.
  rewrite !includes_spec. intros (x & y & ->) (u & v & ->).
  exists (x +:+ u), (v +:+ y). normalize_append. reflexivity.
Qed.

Lemma Qnat_inj n m : (Qnat n == Qnat m)%Q -> n = m.
Proof. unfold Qnat, Qeq. simpl. lia. Qed.

Lemma Qnat_nonzero n : n <> 0%nat -> ~ (Qnat n == 0)%Q.
Proof. intros H Hq. apply (Qnat_inj n 0) in Hq. contradiction. Qed.

Lemma tested_subset_when_included t1 t2 all :
  Str.includes t2 t1 = true -> testedEndpoints t1 all ⊆ testedEndpoints t2 all.
Proof.
  intros Hi d Hd. unfold testedEndpoints in *.
  apply elem_of_filter in Hd as [H1 Hd]. apply elem_of_filter.
  split; [|exact Hd]. eapply includes_trans; eassumption.
Qed.

Lemma coverage_value_monotone t1 t2 all :
  Str.includes t2 t1 = true ->
  (coverage_value t1 all <= coverage_value t2 all)%Q.
Proof.
  intros Hi. unfold coverage_value.
  destruct (Nat.eqb_spec (size all) 0) as [Hz|Hnz]; [apply Qle_refl|].
  apply Qmult_le_compat_r; [|discriminate].
  unfold Qdiv. apply Qmult_le_compat_r.
  - apply Qnat_le, subseteq_size, tested_subset_when_included, Hi.
  - apply Qinv_le_0_compat, Qnat_nonneg.
Qed.

(** X11.  Coverage is monotone in the test content: a test file whose
    content contains the content of another one covers at least as much of
    the same sources. *)
Theorem calculateCoverage_monotone w t1 c1 t2 c2 sources contents :
  is_file (fs w) t1 c1 -> is_file (fs w) t2 c2 ->
  Forall2 (is_file (fs w)) sources contents ->
  Str.includes c2 c1 = true ->
  exists v1 v2,
    fst (calculateCoverage t1 sources w) = Ok v1 /\
    fst (calculateCoverage t2 sources w) = Ok v2 /\
    (v1 <= v2)%Q.
Proof.
  intros H1 H2 Hs Hi.
  exists (coverage_value c1 (inventory sources contents)),
         (coverage_value c2 (inventory sources contents)).
  split; [apply calculateCoverage_returns; assumption|].
  split; [apply calculateCoverage_returns; assumption|].
  apply coverage_value_monotone, Hi.
Qed.

(** X12.  Matching is by substring, so an endpoint whose path is a prefix
    of the path of a covered endpoint with the same method counts as
    covered too. *)
Theorem testedEndpoints_prefix_path testContent all e1 e2 suffix :
  ep_method e1 = ep_method e2 ->
  ep_path e2 = ep_path e1 +:+ suffix ->
  display e1 ∈ all ->
  display e2 ∈ testedEndpoints testContent all ->
  display e1 ∈ testedEndpoints testContent all.
Proof.
  intros Hm Hp Hin H2. unfold testedEndpoints in *.
  apply elem_of_filter in H2 as [Hi _]. apply elem_of_filter. split; [|exact Hin].
  eapply includes_trans; [exact Hi|].
  apply includes_spec. exists "", suffix.
  unfold display. rewrite Hm, Hp. normalize_append. reflexivity.
Qed.

(** X13.  The result of [calculateCoverage] is 100 exactly when every
    display string of the inventory occurs in the test content. *)
Theorem calculateCoverage_full w testFile testContent sources contents :
  is_file (fs w) testFile testContent ->
  Forall2 (is_file (fs w)) sources contents ->
  exists v,
    fst (calculateCoverage testFile sources w) = Ok v /\
    ((v == 100)%Q <->
     forall d, d ∈ inventory sources contents -> Str.includes testContent d = true).
Proof.
  intros Ht Hs. exists (coverage_value testContent (inventory sources contents)).
  split; [apply calculateCoverage_returns; assumption|].
  unfold coverage_value. set (all := inventory sources contents).
  destruct (Nat.eqb_spec (size all) 0) as [Hz|Hnz].
  - split; [|reflexivity]. intros _ d Hd.
    apply size_empty_iff in Hz.
    destruct (proj1 (elem_of_equiv_empty all) Hz d Hd).
  - assert (Hsub : testedEndpoints testContent all ⊆ all).
    { intros d Hd. apply elem_of_filter in Hd as [_ Hd]. exact Hd. }
    split.
    + intros Hv d Hd.
      assert (Hq : (Qnat (size (testedEndpoints testContent all)) == Qnat (size all))%Q).
      { assert (H1 : (Qnat (size (testedEndpoints testContent all)) / Qnat (size all) == 1)%Q).
        { apply (Qmult_inj_r _ _ 100); [discriminate|]. rewrite Hv. reflexivity. }
        transitivity (Qnat (size all) *
                      (Qnat (size (testedEndpoints testContent all)) / Qnat (size all)))%Q.
        - symmetry. apply Qmult_div_r, Qnat_nonzero, Hnz.
        - rewrite H1. apply Qmult_1_r. }
      apply Qnat_inj in Hq.
      assert (Heq : testedEndpoints testContent all = all).
      { apply set_subseteq_size_eq; [exact Hsub | lia]. }
      rewrite <- Heq in Hd. apply elem_of_filter in Hd as [Hi _]. exact Hi.
    + intros Hall.
      assert (Heq : testedEndpoints testContent all = all).
      { apply set_eq. intros d. split; [apply Hsub|].
        intros Hd. apply elem_of_filter. split; [apply Hall, Hd | exact Hd]. }
      rewrite Heq. field. apply Qnat_nonzero, Hnz.
Qed.

(** *** The file tree *)

Lemma Node_induction (P : Fs.Node -> Prop) :
  (forall c, P (Fs.File c)) ->
  (forall entries, Forall (fun e => P (snd e)) entries -> P (Fs.Dir entries)) ->
  forall n, P n.
Proof.
  intros HF HD. fix IH 1. intros [c|entries]; [apply HF|].
  apply HD. induction entries as [|[name entry] entries IHe]; constructor.
  - apply IH.
  - exact IHe.
Qed.

Lemma lookup_app root p : forall q,
  Fs.lookup root (p ++ q)
  = match Fs.lookup root p with Some n => Fs.lookup n q | None => None end.
Proof.
  revert root. induction p as [|seg p IH]; intros root q; [reflexivity|].
  simpl. destruct root as [c|es]; [reflexivity|].
  destruct (Fs.assoc seg es) as [child|]; [apply IH | reflexivity].
Qed.

Lemma lookup_child root dir es name entry :
  Fs.lookup root dir = Some (Fs.Dir es) -> Fs.assoc name es = Some entry ->
  Fs.lookup root (dir ++ [name]) = Some entry.
Proof. intros Hd Ha. rewrite lookup_app, Hd. simpl. rewrite Ha. reflexivity. Qed.

Lemma assoc_In {A} name (a : A) es : In (name, a) es -> Fs.assoc name es <> None.
Proof.
  induction es as [|[n b] es IH]; [contradiction|].
  intros [[= -> ->]|Hin]; simpl.
  - rewrite String.eqb_refl. discriminate.
  - destruct (String.eqb n name); [discriminate | apply IH, Hin].
Qed.

Lemma well_formed_cons name entry rest :
  well_formed (Fs.Dir ((name, entry) :: rest))
  = match Fs.assoc name rest with
    | Some _ => false
    | None => well_formed entry && well_formed (Fs.Dir rest)
    end.
Proof. reflexivity. Qed.

Lemma well_formed_entry es name entry :
  well_formed (Fs.Dir es) = true -> In (name, entry) es ->
  Fs.assoc name es = Some entry /\ well_formed entry = true.
Proof.
  induction es as [|[n c] es IH]; [contradiction|].
  rewrite well_formed_cons. intros Hwf Hin.
  destruct (Fs.assoc n es) eqn:Ha; [discriminate|].
  apply andb_true_iff in Hwf as [Hc Hes].
  destruct Hin as [[= -> ->]|Hin].
  - simpl. rewrite String.eqb_refl. split; [reflexivity | exact Hc].
  - destruct (IH Hes Hin) as [Hassoc Hentry]. split; [|exact Hentry].
    simpl. destruct (String.eqb_spec n name) as [->|_]; [|exact Hassoc].
    exfalso. apply (assoc_In _ _ _ Hin). exact Ha.
Qed.

Lemma well_formed_lookup p : forall root n,
  well_formed root = true -> Fs.lookup root p = Some n -> well_formed n = true.
Proof.
  induction p as [|seg p IH]; intros root n Hwf Hl; simpl in Hl.
  - injection Hl as <-. exact Hwf.
  - destruct root as [c|es]; [discriminate|].
    destruct (Fs.assoc seg es) as [child|] eqn:Ha; [|discriminate].
    apply (IH child n); [|exact Hl].
    assert (Hin : In (seg, child) es).
    { clear -Ha. induction es as [|[k b] es IHes]; [discriminate|].
      simpl in Ha. destruct (String.eqb_spec k seg) as [->|_].
      - injection Ha as ->. left. reflexivity.
      - right. apply IHes, Ha. }
    apply (well_formed_entry es seg child Hwf Hin).
Qed.

Lemma walk_cons extensions dir name entry rest :
  walk extensions dir (Fs.Dir ((name, entry) :: rest))
  = match entry with
    | Fs.Dir _ =>
        if negb (skipped_dir name)
        then walk extensions (dir ++ [name]) entry ++ walk extensions dir (Fs.Dir rest)
        else walk extensions dir (Fs.Dir rest)
    | Fs.File _ =>
        if existsb (Str.endsWith name) extensions
        then (dir ++ [name]) :: walk extensions dir (Fs.Dir rest)
        else walk extensions dir (Fs.Dir rest)
    end.
Proof.
  unfold skipped_dir. rewrite negb_orb. destruct entry; reflexivity.
Qed.

Lemma walk_shape extensions n : forall dir p,
  In p (walk extensions dir n) ->
  exists rel name,
    p = dir ++ rel ++ [name] /\
    existsb (Str.endsWith name) extensions = true /\
    Forall (fun seg => skipped_dir seg = false) rel.
Proof.
  induction n as [c|entries IH] using Node_induction; intros dir p Hin; [destruct Hin|].
  induction entries as [|[name entry] rest IHrest]; [destruct Hin|].
  inversion IH as [|? ? Hentry Hrest]; subst. cbn [snd] in Hentry.
  rewrite walk_cons in Hin. destruct entry as [c|sub].
  - destruct (existsb (Str.endsWith name) extensions) eqn:He.
    + destruct Hin as [<-|Hin]; [|apply (IHrest Hrest Hin)].
      exists [], name. repeat split; [exact He | constructor].
    + apply (IHrest Hrest Hin).
  - destruct (skipped_dir name) eqn:Hs; cbn [negb] in Hin; [apply (IHrest Hrest Hin)|].
    apply in_app_or in Hin as [Hin|Hin]; [|apply (IHrest Hrest Hin)].
    destruct (Hentry _ _ Hin) as (rel & leaf & -> & He & Hrel).
    exists (name :: rel), leaf. repeat split.
    + rewrite <- !app_assoc. reflexivity.
    + exact He.
    + constructor; assumption.
Qed.

Lemma walk_resolves extensions n : forall root dir p,
  Fs.lookup root dir = Some n -> well_formed n = true ->
  In p (walk extensions dir n) ->
  exists c, is_file root p c.
Proof.
  induction n as [c|entries IH] using Node_induction;
    intros root dir p Hl Hwf Hin; [destruct Hin|].
  assert (Hsuffix : forall rest,
    (forall name entry, In (name, entry) rest -> In (name, entry) entries) ->
    In p (walk extensions dir (Fs.Dir rest)) -> exists c, is_file root p c).
  { induction rest as [|[name entry] rest IHrest]; intros Hsub Hp; [destruct Hp|].
    assert (Hmem : In (name, entry) entries) by (apply Hsub; left; reflexivity).
    assert (Hsub' : forall k e, In (k, e) rest -> In (k, e) entries)
      by (intros k e Hk; apply Hsub; right; exact Hk).
    destruct (well_formed_entry entries name entry Hwf Hmem) as [Ha Hw].
    pose proof (lookup_child root dir entries name entry Hl Ha) as Hchild.
    rewrite walk_cons in Hp. destruct entry as [c|sub].
    - destruct (existsb (Str.endsWith name) extensions).
      + destruct Hp as [<-|Hp]; [exists c; exact Hchild | apply (IHrest Hsub' Hp)].
      + apply (IHrest Hsub' Hp).
    - destruct (negb (skipped_dir name)); [|apply (IHrest Hsub' Hp)].
      apply in_app_or in Hp as [Hp|Hp]; [|apply (IHrest Hsub' Hp)].
      pose proof (proj1 (List.Forall_forall _ _) IH (name, Fs.Dir sub) Hmem) as Hentry.
      apply (Hentry root (dir ++ [name]) p Hchild Hw Hp). }
  apply (Hsuffix entries); auto.
Qed.

(** X14.  [getAllFiles] returns nothing for a path that does not exist and
    the path itself, whatever its name, for a regular file; below a
    directory it returns only paths whose last segment ends with one of
    the extensions and that pass through no directory whose name starts
    with a dot or is [node_modules]. *)
Theorem getAllFiles_shape root dir extensions :
  (Fs.lookup root dir = None -> getAllFiles_in root dir extensions = []) /\
  (forall c, Fs.lookup root dir = Some (Fs.File c) ->
     getAllFiles_in root dir extensions = [dir]) /\
  (forall entries p,
     Fs.lookup root dir = Some (Fs.Dir entries) ->
     In p (getAllFiles_in root dir extensions) ->
     exists rel name,
       p = dir ++ rel ++ [name] /\
       existsb (Str.endsWith name) extensions = true /\
       Forall (fun seg => skipped_dir seg = false) rel).
Proof.
  unfold getAllFiles_in. split; [intros ->; reflexivity|].
  split; [intros c ->; reflexivity|].
  intros entries p ->. apply walk_shape.
Qed.

Lemma getAllFiles_resolves root dir extensions p :
  well_formed root = true ->
  In p (getAllFiles_in root dir extensions) ->
  exists c, is_file root p c.
Proof.
  intros Hwf. unfold getAllFiles_in.
  destruct (Fs.lookup root dir) as [[c|entries]|] eqn:Hl; [| |contradiction].
  - intros [<-|[]]. exists c. exact Hl.
  - apply (walk_resolves extensions (Fs.Dir entries) root dir p Hl).
    apply (well_formed_lookup dir root _ Hwf Hl).
Qed.

(** X15.  In a file system without duplicate names, every path that
    [getAllFiles] returns is a regular file that can be read, and it lies
    at or below the directory asked for. *)
Theorem getAllFiles_readable root dir extensions p :
  well_formed root = true ->
  In p (getAllFiles_in root dir extensions) ->
  (exists c, is_file root p c) /\ exists rel, p = dir ++ rel.
Proof.
  intros Hwf Hin. split; [apply (getAllFiles_resolves root dir extensions p Hwf Hin)|].
  unfold getAllFiles_in in Hin.
  destruct (Fs.lookup root dir) as [[c|entries]|] eqn:Hl; [| |contradiction].
  - destruct Hin as [<-|[]]. exists []. rewrite app_nil_r. reflexivity.
  - destruct (walk_shape _ _ _ _ Hin) as (rel & name & -> & _). eauto.
Qed.

(** *** Directories *)

Lemma analyzeRecursive_cons dir name entry rest acc :
  analyzeRecursive dir (Fs.Dir ((name, entry) :: rest)) acc
  = match entry with
    | Fs.Dir _ =>
        if negb (skipped_dir name)
        then bind (analyzeRecursive (dir ++ [name]) entry acc)
                  (fun acc' => analyzeRecursive dir (Fs.Dir rest) acc')
        else analyzeRecursive dir (Fs.Dir rest) acc
    | Fs.File _ =>
        if isCodeFile name
        then bind (analyzeFile (dir ++ [name]))
                  (fun endpoints => analyzeRecursive dir (Fs.Dir rest) (acc ++ endpoints))
        else analyzeRecursive dir (Fs.Dir rest) acc
    end.
Proof.
  unfold skipped_dir. rewrite negb_orb. destruct entry; reflexivity.
Qed.

Lemma analyzeRecursive_run n : forall dir acc w,
  Fs.lookup (fs w) dir = Some n -> well_formed n = true ->
  (exists entries, n = Fs.Dir entries) ->
  exists contents w',
    Forall2 (is_file (fs w)) (walk code_extensions dir n) contents /\
    analyzeRecursive dir n acc w
    = (Ok (acc ++ concat (zip_with endpoints_of (walk code_extensions dir n) contents)), w') /\
    fs w' = fs w.
Proof.
  induction n as [c|entries IH] using Node_induction;
    intros dir acc w Hl Hwf [es Hes]; [discriminate|]. clear es Hes.
  assert (Hsuffix : forall rest acc w0,
    fs w0 = fs w ->
    (forall name entry, In (name, entry) rest -> In (name, entry) entries) ->
    exists contents w',
      Forall2 (is_file (fs w)) (walk code_extensions dir (Fs.Dir rest)) contents /\
      analyzeRecursive dir (Fs.Dir rest) acc w0
      = (Ok (acc ++ concat (zip_with endpoints_of
                              (walk code_extensions dir (Fs.Dir rest)) contents)), w') /\
      fs w' = fs w).
  { induction rest as [|[name entry] rest IHrest]; intros acc0 w0 Hfs Hsub.
    - exists [], w0. split; [constructor|]. split; [|exact Hfs].
      simpl. rewrite app_nil_r. reflexivity.
    - assert (Hmem : In (name, entry) entries) by (apply Hsub; left; reflexivity).
      assert (Hsub' : forall k e, In (k, e) rest -> In (k, e) entries)
        by (intros k e Hk; apply Hsub; right; exact Hk).
      destruct (well_formed_entry entries name entry Hwf Hmem) as [Ha Hw].
      pose proof (lookup_child (fs w) dir entries name entry Hl Ha) as Hchild.
      rewrite analyzeRecursive_cons, walk_cons. destruct entry as [c|sub].
      + unfold isCodeFile.
        destruct (existsb (Str.endsWith name) code_extensions).
        * unfold bind.
          assert (Hf0 : is_file (fs w0) (dir ++ [name]) c)
            by (unfold is_file; rewrite Hfs; exact Hchild).
          pose proof (analyzeFile_returns w0 _ _ Hf0) as Hr.
          pose proof (keeps_analyzeFile fs (dir ++ [name]) frame_fs w0) as Hk.
          destruct (analyzeFile (dir ++ [name]) w0) as [r w1]. cbn [fst snd] in Hr, Hk.
          subst r.
          destruct (IHrest (acc0 ++ endpoints_of (dir ++ [name]) c) w1) as
            (contents & w' & HF & Hrun & Hfs'); [congruence | exact Hsub' |].
          exists (c :: contents), w'. split; [constructor; assumption|].
          split; [|exact Hfs']. rewrite Hrun. simpl. rewrite <- app_assoc. reflexivity.
        * apply IHrest; assumption.
      + destruct (negb (skipped_dir name)); [|apply IHrest; assumption].
        pose proof (proj1 (List.Forall_forall _ _) IH (name, Fs.Dir sub) Hmem) as Hentry.
        cbn [snd] in Hentry.
        destruct (Hentry (dir ++ [name]) acc0 w0) as (cs1 & w1 & HF1 & Hrun1 & Hfs1);
          [rewrite Hfs; exact Hchild | exact Hw | eauto |].
        unfold bind. rewrite Hrun1.
        destruct (IHrest (acc0 ++ concat (zip_with endpoints_of
                    (walk code_extensions (dir ++ [name]) (Fs.Dir sub)) cs1)) w1)
          as (cs2 & w' & HF2 & Hrun2 & Hfs2); [congruence | exact Hsub' |].
        exists (cs1 ++ cs2), w'. split.
        * apply Forall2_app; [|exact HF2]. rewrite <- Hfs. exact HF1.
        * split; [|exact Hfs2]. rewrite Hrun2.
          rewrite (zip_with_app endpoints_of _ _ _ _ (Forall2_length _ _ _ HF1)).
          rewrite concat_app, <- app_assoc. reflexivity. }
  apply (Hsuffix entries acc w); auto.
Qed.

(** X16.  [analyzeDirectory] throws on a path that does not exist and on a
    regular file; on a directory of a file system without duplicate names
    it returns, in order, the endpoints of exactly the files that
    [getAllFiles] collects below it for the extensions [.js], [.ts],
    [.jsx], [.tsx] and [.py]. *)
Theorem analyzeDirectory_spec w dir :
  (Fs.lookup (fs w) dir = None ->
     analyzeDirectory dir w = (Throw (FsError "ENOENT" dir), w)) /\
  (forall c, Fs.lookup (fs w) dir = Some (Fs.File c) ->
     analyzeDirectory dir w = (Throw (FsError "ENOTDIR" dir), w)) /\
  (forall entries,
     well_formed (fs w) = true ->
     Fs.lookup (fs w) dir = Some (Fs.Dir entries) ->
     exists contents,
       Forall2 (is_file (fs w)) (getAllFiles_in (fs w) dir code_extensions) contents /\
       fst (analyzeDirectory dir w)
       = Ok (concat (zip_with endpoints_of
                       (getAllFiles_in (fs w) dir code_extensions) contents))).
Proof.
  unfold analyzeDirectory, getAllFiles_in.
  split; [intros ->; reflexivity|]. split; [intros c ->; reflexivity|].
  intros entries Hwf Hl. rewrite Hl.
  destruct (analyzeRecursive_run (Fs.Dir entries) dir [] w Hl
              (well_formed_lookup dir (fs w) _ Hwf Hl) (ex_intro _ entries eq_refl))
    as (contents & w' & HF & Hrun & _).
  exists contents. split; [exact HF|]. rewrite Hrun. reflexivity.
Qed.

(** *** The coverage of the suite, continued *)

Lemma readable_contents root l :
  (forall p, In p l -> exists c, is_file root p c) ->
  exists contents, Forall2 (is_file root) l contents.
Proof.
  induction l as [|p l IH]; intros H; [exists []; constructor|].
  destruct (H p (or_introl eq_refl)) as [c Hc].
  destruct IH as [cs Hcs]; [intros q Hq; apply H; right; exact Hq|].
  exists (c :: cs). constructor; assumption.
Qed.

Lemma collected_readable root paths extensions :
  well_formed root = true ->
  exists contents,
    Forall2 (is_file root)
            (flat_map (fun p => getAllFiles_in root p extensions) paths) contents.
Proof.
  intros Hwf. apply readable_contents. intros p Hp.
  apply in_flat_map in Hp as (dir & _ & Hin).
  apply (getAllFiles_resolves root dir extensions p Hwf Hin).
Qed.

Lemma coverage_value_bounds t all :
  (0 <= coverage_value t all /\ coverage_value t all <= 100)%Q.
Proof.
  unfold coverage_value. destruct (Nat.eqb_spec (size all) 0) as [Hz|Hnz].
  - split; discriminate.
  - apply percentage_bounds; [|exact Hnz].
    apply subseteq_size. intros d Hd. apply elem_of_filter in Hd as [_ Hd]. exact Hd.
Qed.

Lemma sum_bounds (l : list Q) : forall acc,
  Forall (fun v => 0 <= v /\ v <= 100)%Q l ->
  (acc <= fold_left Qplus l acc /\
   fold_left Qplus l acc <= acc + 100 * Qnat (length l))%Q.
Proof.
  induction l as [|v l IH]; intros acc Hl; simpl.
  - split; [apply Qle_refl|]. unfold Qnat. simpl.
    rewrite Qmult_0_r, Qplus_0_r. apply Qle_refl.
  - inversion Hl as [|? ? [Hv0 Hv1] Hl']; subst.
    destruct (IH (acc + v)%Q Hl') as [Hlo Hhi]. split.
    + eapply Qle_trans; [|exact Hlo].
      rewrite <- (Qplus_0_r acc) at 1. apply Qplus_le_compat; [apply Qle_refl | exact Hv0].
    + eapply Qle_trans; [exact Hhi|].
      assert (Hs : (Qnat (S (length l)) == 1 + Qnat (length l))%Q).
      { unfold Qnat, Qeq. simpl. lia. }
      rewrite Hs, Qmult_plus_distr_r, Qmult_1_r, Qplus_assoc.
      apply Qplus_le_compat; [|apply Qle_refl].
      apply Qplus_le_compat; [apply Qle_refl | exact Hv1].
Qed.

Lemma calculateCurrentCoverage_in_range w :
  well_formed (fs w) = true ->
  exists v,
    fst (calculateCurrentCoverage w) = Ok v /\ (0 <= v /\ v <= 100)%Q.
Proof.
  intros Hwf. unfold calculateCurrentCoverage, bind.
  rewrite collectSourceFiles_run. cbn [app].
  set (sources := flat_map (fun p => getAllFiles_in (fs w) p [".js"; ".ts"])
                           (watchPaths config)).
  destruct (collected_readable (fs w) (watchPaths config) [".js"; ".ts"] Hwf)
    as [contents Hs].
  destruct (collected_readable (fs w) (testPaths config) [".test.js"; ".spec.js"] Hwf)
    as [testContents Ht].
  destruct (coverTestPaths_run sources contents (testPaths config) testContents
              (0%Q, 0%nat) w Hs Ht) as (w' & Hrun & _).
  rewrite Hrun. cbn [fst snd ret Nat.add].
  set (covs := map (fun tc => coverage_value tc (inventory sources contents)) testContents).
  destruct (Nat.eqb_spec (length testContents) 0) as [Hz|Hnz].
  - exists 0%Q. split; [reflexivity|]. split; discriminate.
  - eexists. split; [reflexivity|].
    assert (Hall : Forall (fun v => 0 <= v /\ v <= 100)%Q covs).
    { apply List.Forall_forall. intros v Hv. apply in_map_iff in Hv as (tc & <- & _).
      apply coverage_value_bounds. }
    destruct (sum_bounds covs 0%Q Hall) as [Hlo Hhi].
    assert (Hlen : length covs = length testContents) by apply length_map.
    rewrite Hlen, Qplus_0_l in Hhi.
    pose proof (Qnat_pos _ Hnz) as Hpos. split.
    + apply Qle_shift_div_l; [exact Hpos|]. rewrite Qmult_0_l. exact Hlo.
    + apply Qle_shift_div_r; [exact Hpos | exact Hhi].
Qed.

(** X17.  In a file system without duplicate names
    [calculateCurrentCoverage] never throws, whatever the configured paths;
    its result lies between 0 and 100, and it changes neither the file
    system, the snapshots, the store of the evolver nor the guard. *)
Theorem calculateCurrentCoverage_bounds w :
  well_formed (fs w) = true ->
  (exists v,
     fst (calculateCurrentCoverage w) = Ok v /\ (0 <= v /\ v <= 100)%Q) /\
  fs (snd (calculateCurrentCoverage w)) = fs w /\
  fileSnapshots (snd (calculateCurrentCoverage w)) = fileSnapshots w /\
  testEvolver (snd (calculateCurrentCoverage w)) = testEvolver w /\
  isEvolving (snd (calculateCurrentCoverage w)) = isEvolving w.
Proof.
  intros Hwf. split; [apply calculateCurrentCoverage_in_range, Hwf|].
  repeat split; apply keeps_calculateCurrentCoverage; split; reflexivity.
Qed.

(** *** The handler, continued *)

Lemma leave_enter w p event :
  isEvolving w = false ->
  set_isEvolving false (enter p event w)
  = set_console (console w ++ [LogInfo ("File " +:+ event +:+ ": " +:+ Fs.show p)]) w.
Proof. destruct w. simpl. intros ->. reflexivity. Qed.

(** X19.  An event for a file whose non-empty content equals its snapshot
    runs no evolution: the handler writes one line to the console and
    leaves the file system, the cache, the snapshots, the store of the
    evolver and the guard as they were. *)
Theorem handleFileChange_unchanged_file w p event c :
  isEvolving w = false ->
  fileSnapshots w !! p = Some c ->
  is_file (fs w) p c ->
  c <> "" ->
  handleFileChange p event w
  = (Ok tt,
     set_console (console w ++ [LogInfo ("File " +:+ event +:+ ": " +:+ Fs.show p)]) w).
Proof.
  intros Hg Hsnap Hf Hne.
  rewrite (handleFileChange_cycle w p event Hg).
  unfold handleFileChange_body, bind. cbn [gets fst snd].
  change (fileSnapshots (enter p event w)) with (fileSnapshots w). rewrite Hsnap.
  rewrite (detectChanges_unchanged (enter p event w) p c Hf Hne).
  cbn [ret]. rewrite (leave_enter w p event Hg). reflexivity.
Qed.

(** *** Commits and the history file *)

(** X20.  [commitChanges] never throws: without git it does nothing; with
    git, a failing commit only adds an error line to the console, and a
    successful one records the message prefixed with [[SETS]]. *)
Theorem commitChanges_never_throws message w :
  fst (commitChanges message w) = Ok tt /\
  (gitEnabled config = false -> snd (commitChanges message w) = w) /\
  (gitEnabled config = true -> forall e,
     git_add_commit ("[SETS] " +:+ message) = Throw e ->
     snd (commitChanges message w)
     = set_console (console w ++ [LogError "Git commit failed:" e]) w) /\
  (gitEnabled config = true ->
     git_add_commit ("[SETS] " +:+ message) = Ok tt ->
     commits (snd (commitChanges message w)) = commits w ++ ["[SETS] " +:+ message]).
Proof.
  unfold commitChanges.
  destruct (gitEnabled config); cbn [negb].
  - unfold try_catch, bind, lift.
    destruct (git_add_commit ("[SETS] " +:+ message)) as [[]|e] eqn:Hg;
      cbn [modify console_log console_error fst snd];
      repeat split; try discriminate; try reflexivity.
    intros _ e' [= <-]. reflexivity.
  - repeat split; try discriminate; reflexivity.
Qed.

Lemma write_missing_directory dir : forall root name c,
  Fs.lookup root dir = None -> Fs.write root (dir ++ [name]) c = None.
Proof.
  induction dir as [|seg rest IH]; intros root name c Hl; [discriminate|].
  simpl in Hl |- *. destruct root as [c0|es]; [reflexivity|].
  destruct (Fs.assoc seg es) as [child|].
  - rewrite (IH child name c Hl). reflexivity.
  - destruct rest; reflexivity.
Qed.

(** X21.  [saveEvolutionHistory] writes the JSON text of the whole history
    of the evolver to [.evolution-history.json] in the first test path,
    replacing what the file held; it does not create that directory and
    throws when it does not exist, and it throws when no test path is
    configured. *)
Theorem saveEvolutionHistory_spec w :
  (testPaths config = [] ->
     exists e, saveEvolutionHistory w = (Throw e, w)) /\
  (forall tp others,
     testPaths config = tp :: others ->
     Fs.lookup (fs w) tp = None ->
     exists e, saveEvolutionHistory w = (Throw e, w)) /\
  (forall tp others es,
     testPaths config = tp :: others ->
     Fs.lookup (fs w) tp = Some (Fs.Dir es) ->
     (forall sub, Fs.assoc ".evolution-history.json" es <> Some (Fs.Dir sub)) ->
     fst (saveEvolutionHistory w) = Ok tt /\
     is_file (fs (snd (saveEvolutionHistory w))) (tp ++ [".evolution-history.json"])
             (json_of_history (evolutionHistory (testEvolver w)))).
Proof.
  unfold saveEvolutionHistory, bind, firstTestPath, getEvolutionHistory.
  cbn [gets fst snd]. split; [|split].
  - intros ->. eexists. reflexivity.
  - intros tp others -> Hl. unfold ret, writeFileSync.
    rewrite (write_missing_directory tp (fs w) _ _ Hl). eexists. reflexivity.
  - intros tp others es -> Hl Hname. unfold ret, writeFileSync.
    destruct (write_into_directory tp (fs w) es ".evolution-history.json"
                (json_of_history (evolutionHistory (testEvolver w))) Hl Hname) as [n' Hw].
    rewrite Hw. cbn [fst snd]. split; [reflexivity|].
    apply (write_lookup _ _ _ _ Hw).
Qed.

Lemma mkdirp_creates p : forall root root',
  Fs.lookup root p = None -> Fs.mkdirp root p = Some root' ->
  Fs.lookup root' p = Some (Fs.Dir []).
Proof.
  induction p as [|seg rest IH]; intros root root' Hl Hm; [discriminate|].
  simpl in Hl, Hm. destruct root as [c|es]; [discriminate|].
  destruct (Fs.assoc seg es) as [child|] eqn:Ha.
  - destruct (Fs.mkdirp child rest) as [child'|] eqn:Hc; [|discriminate].
    injection Hm as <-. simpl. rewrite assoc_set_entry. apply (IH child child' Hl Hc).
  - destruct (Fs.mkdirp (Fs.Dir []) rest) as [child'|] eqn:Hc; [|discriminate].
    injection Hm as <-. simpl. rewrite assoc_set_entry.
    destruct rest as [|seg' rest].
    + simpl in Hc. injection Hc as <-. reflexivity.
    + apply (IH (Fs.Dir []) child'); [reflexivity | exact Hc].
Qed.

(** X22.  When the first test path does not exist and can be created,
    [generateTestCode] of the orchestrator creates it, with its missing
    parents, and writes the generated text to the test file in it. *)
Theorem generateTestCode_creates_directory tc w tp others root' :
  testPaths config = tp :: others ->
  Fs.lookup (fs w) tp = None ->
  Fs.mkdirp (fs w) tp = Some root' ->
  exists code,
    fst (TestGenerator_generateTestCode tc w) = Ok code /\
    fst (generateTestCode tc w) = Ok tt /\
    is_file (fs (snd (generateTestCode tc w))) (tp ++ [testFileName tc]) code.
Proof.
  intros Htp Hl Hm.
  pose proof (keeps_TestGenerator_generateTestCode fs tc (fun _ _ => eq_refl) w) as Hk.
  unfold generateTestCode, bind.
  assert (Hcode : exists code w1, TestGenerator_generateTestCode tc w = (Ok code, w1)).
  { unfold TestGenerator_generateTestCode.
    destruct openai_configured eqn:Hc; [|unfold ret; eauto].
    rewrite (generateWithAI_run tc w Hc).
    destruct (openai_create tc) as [[c|]|e]; eauto. }
  destruct Hcode as (code & w1 & Hrun). rewrite Hrun in Hk |- *. simpl in Hk.
  exists code. split; [reflexivity|].
  unfold firstTestPath. rewrite Htp. cbn [ret].
  unfold Fs.dirname. rewrite removelast_last.
  unfold existsSync, gets, Fs.existsSync. rewrite Hk, Hl. cbn [negb].
  unfold mkdirSync_recursive. rewrite Hk, Hm.
  pose proof (mkdirp_creates tp (fs w) root' Hl Hm) as Hdir.
  destruct (write_into_directory tp root' [] (testFileName tc) code Hdir) as [n' Hw];
    [intros sub; discriminate|].
  unfold writeFileSync. cbn [fs set_fs]. rewrite Hw.
  cbn [console_log modify fst snd]. split; [reflexivity|].
  unfold is_file. cbn [fs set_console set_fs]. apply (write_lookup _ _ _ _ Hw).
Qed.

(** *** Accessors and groups of the test generator *)

Lemma append_empty_r (s : string) : s +:+ "" = s.
Proof.
  induction s as [|c s IH]; [reflexivity|]. rewrite append_cons, IH. reflexivity.
Qed.

Lemma split_on_nonempty sep s : split_on sep s <> [].
Proof.
  destruct s as [|c s]; simpl; [discriminate|].
  destruct (Ascii.eqb c sep); [discriminate|].
  destruct (split_on sep s); discriminate.
Qed.

Lemma join_app l1 l2 : join (l1 ++ l2) = join l1 +:+ join l2.
Proof.
  induction l1 as [|x l1 IH]; [reflexivity|].
  change (x +:+ join (l1 ++ l2) = (x +:+ join l1) +:+ join l2).
  rewrite IH, append_assoc. reflexivity.
Qed.

Lemma split_on_separator sep a : forall b,
  split_on sep (a +:+ String sep b) = split_on sep a ++ split_on sep b.
Proof.
  induction a as [|c a IH]; intros b.
  - rewrite append_nil. simpl. rewrite Ascii.eqb_refl. reflexivity.
  - rewrite append_cons. simpl. rewrite IH.
    destruct (Ascii.eqb c sep); [reflexivity|].
    destruct (split_on sep a) as [|part parts] eqn:E; [|reflexivity].
    destruct (split_on_nonempty sep a E).
Qed.

Lemma includes_bracket c s :
  Str.includes (String c s) "[" = Ascii.eqb "["%char c || Str.includes s "[".
Proof.
  cbn [Str.includes]. f_equal. unfold Str.startsWith. cbn [Str.strip_prefix].
  destruct (Ascii.eqb "["%char c); reflexivity.
Qed.

Lemma split_on_without_bracket s :
  Str.includes s "[" = false ->
  Forall (fun part => Str.includes part "[" = false) (split_on "."%char s).
Proof.
  induction s as [|c s IH]; intros H.
  - constructor; [reflexivity | constructor].
  - rewrite includes_bracket in H. apply orb_false_iff in H as [Hc Hs].
    specialize (IH Hs). simpl. destruct (Ascii.eqb c "."%char).
    + constructor; [reflexivity | exact IH].
    + destruct (split_on "."%char s) as [|part parts]; [constructor; [|constructor]|].
      * rewrite includes_bracket, Hc. reflexivity.
      * inversion IH as [|? ? Hp Hps]; subst. constructor; [|exact Hps].
        rewrite includes_bracket, Hc. exact Hp.
Qed.

Lemma join_dotted s :
  join (map (fun part => "." +:+ part) (split_on "."%char s)) = "." +:+ s.
Proof.
  induction s as [|c s IH]; [reflexivity|]. simpl.
  destruct (Ascii.eqb_spec c "."%char) as [->|Hne].
  - change (join (map (fun part => "." +:+ part) ("" :: split_on "."%char s)))
      with ("." +:+ join (map (fun part => "." +:+ part) (split_on "."%char s))).
    rewrite IH. reflexivity.
  - destruct (split_on "."%char s) as [|part parts] eqn:E.
    + destruct (split_on_nonempty _ _ E).
    + change (join (map (fun p => "." +:+ p) (part :: parts)))
        with (("." +:+ part) +:+ join (map (fun p => "." +:+ p) parts)) in IH.
      change (join (map (fun p => "." +:+ p) (String c part :: parts)))
        with (("." +:+ String c part) +:+ join (map (fun p => "." +:+ p) parts)).
      rewrite !append_cons, !append_nil in IH |- *.
      injection IH as IH. rewrite ?append_cons, IH. reflexivity.
Qed.

Lemma split_on_without_separator sep s :
  Forall (fun c => c <> sep) (list_ascii_of_string s) -> split_on sep s = [s].
Proof.
  induction s as [|c s IH]; intros H; [reflexivity|].
  simpl in H. inversion H as [|? ? Hc Hs]; subst. simpl.
  destruct (Ascii.eqb_spec c sep) as [->|_]; [congruence|].
  rewrite (IH Hs). reflexivity.
Qed.

(** X23.  [pathToAccessor] puts a dot in front of every dot-separated part
    of the path that has no opening bracket and nothing in front of a part
    that has one: a path without brackets becomes the path with a leading
    dot, a single part with a bracket is returned as it is, and the result
    for two paths joined by a dot is the concatenation of their results. *)
Theorem pathToAccessor_spec :
  (forall path, Str.includes path "[" = false -> pathToAccessor path = "." +:+ path) /\
  (forall part,
     Forall (fun c => c <> "."%char) (list_ascii_of_string part) ->
     Str.includes part "[" = true -> pathToAccessor part = part) /\
  (forall a b, pathToAccessor (a +:+ "." +:+ b) = pathToAccessor a +:+ pathToAccessor b).
Proof.
  unfold pathToAccessor. split; [|split].
  - intros path H. rewrite <- join_dotted. f_equal.
    pose proof (split_on_without_bracket path H) as Hparts.
    induction Hparts as [|part parts Hp Hps IH]; [reflexivity|].
    simpl. unfold accessor_part at 1. rewrite Hp, IH. reflexivity.
  - intros part Hdots Hb. rewrite (split_on_without_separator _ _ Hdots).
    simpl. unfold accessor_part. rewrite Hb.
    apply append_empty_r.
  - intros a b. rewrite append_cons, append_nil.
    rewrite split_on_separator, map_app, join_app. reflexivity.
Qed.

Lemma assoc_group_push key tc groups k :
  Fs.assoc k (group_push key tc groups)
  = if String.eqb key k then Some (default [] (Fs.assoc k groups) ++ [tc])
    else Fs.assoc k groups.
Proof.
  induction groups as [|[k0 tests] groups IH]; simpl.
  - destruct (String.eqb key k); reflexivity.
  - destruct (String.eqb_spec k0 key) as [->|Hne]; simpl.
    + destruct (String.eqb key k); reflexivity.
    + rewrite IH. destruct (String.eqb_spec k0 k) as [->|_]; [|reflexivity].
      destruct (String.eqb_spec key k) as [->|_]; [congruence | reflexivity].
Qed.

Lemma keys_group_push key tc groups :
  map fst (group_push key tc groups)
  = if existsb (String.eqb key) (map fst groups) then map fst groups
    else map fst groups ++ [key].
Proof.
  induction groups as [|[k0 tests] groups IH]; [reflexivity|]. simpl.
  rewrite (String.eqb_sym key k0).
  destruct (String.eqb k0 key); simpl; [reflexivity|].
  rewrite IH. destruct (existsb (String.eqb key) (map fst groups)); reflexivity.
Qed.

Lemma groupedTests_snoc tcs tc :
  groupedTests (tcs ++ [tc])
  = group_push (ep_path (tc_endpoint tc)) tc (groupedTests tcs).
Proof. unfold groupedTests. rewrite fold_left_app. reflexivity. Qed.

(** X24.  The grouping of [generateTestSuite] is by endpoint path alone: the
    group of a path holds exactly the test cases with that path, in their
    original order and whatever their methods; a path without test cases
    has no group, and no path has two groups. *)
Theorem groupedTests_spec testCases :
  (forall key,
     Fs.assoc key (groupedTests testCases)
     = match filter (fun tc => ep_path (tc_endpoint tc) = key) testCases with
       | [] => None
       | tests => Some tests
       end) /\
  NoDup (map fst (groupedTests testCases)).
Proof.
  induction testCases as [|tc tcs IH] using rev_ind.
  - split; [reflexivity | constructor].
  - destruct IH as [Hassoc Hkeys]. rewrite groupedTests_snoc. split.
    + intros key. rewrite assoc_group_push, filter_app, Hassoc.
      rewrite filter_cons, filter_nil.
      destruct (String.eqb_spec (ep_path (tc_endpoint tc)) key) as [He|Hne].
      * rewrite decide_True by exact He.
        destruct (filter (fun tc0 => ep_path (tc_endpoint tc0) = key) tcs); reflexivity.
      * rewrite decide_False by exact Hne. rewrite app_nil_r. reflexivity.
    + rewrite keys_group_push.
      destruct (existsb (String.eqb (ep_path (tc_endpoint tc)))
                        (map fst (groupedTests tcs))) eqn:He; [exact Hkeys|].
      apply NoDup_app. split; [exact Hkeys|]. split; [|apply NoDup_singleton].
      intros k Hk Hin. apply list_elem_of_singleton in Hin. subst k.
      assert (Ht : existsb (String.eqb (ep_path (tc_endpoint tc)))
                           (map fst (groupedTests tcs)) = true).
      { apply existsb_exists. exists (ep_path (tc_endpoint tc)).
        split; [apply list_elem_of_In, Hk | apply String.eqb_refl]. }
      congruence.
Qed.

(** *** Files without a snapshot *)

(** X25.  Without a previous content, [detectChanges] reports a readable
    file as [added] with one addition for each endpoint extracted from it,
    whether or not the endpoint is already in the cache; a file without
    endpoints still gives a change, with an empty list, and not nothing. *)
Theorem detectChanges_new_file w p c :
  is_file (fs w) p c ->
  fst (detectChanges p None w)
  = Ok (Some (mkCodeChange p added (map addition (endpoints_of p c)) (clock w))) /\
  (endpoints_of p c = [] ->
   fst (detectChanges p None w) = Ok (Some (mkCodeChange p added [] (clock w)))).
Proof.
  intros Hf.
  pose proof (detectChanges_run_added w p None c Hf eq_refl) as Hrun.
  split; [exact Hrun|]. intros Hnone. rewrite Hrun, Hnone. reflexivity.
Qed.

(** *** The evolution cycle *)

Lemma bind_run {A B} (m : M A) (k : A -> M B) w :
  bind m k w
  = match m w with
    | (Ok a, w') => k a w'
    | (Throw e, w') => (Throw e, w')
    end.
Proof. reflexivity. Qed.

Lemma frame_p_testEvolver : persistence_frame testEvolver.
Proof. repeat split. Qed.

Lemma persisting_generateTestCode {B} (proj : World -> B) tc :
  persistence_frame proj -> keeps proj (generateTestCode tc).
Proof.
  intros (Hc & Hf & Hg). unfold generateTestCode, existsSync.
  repeat first
    [ apply keeps_TestGenerator_generateTestCode; assumption
    | apply keeps_firstTestPath
    | apply keeps_writeFileSync; assumption
    | apply keeps_mkdirSync; assumption
    | apply keeps_console_log; assumption
    | apply keeps_ret | apply keeps_gets
    | apply keeps_if
    | apply keeps_bind; [|intros ?] ].
Qed.

Lemma persisting_saveEvolutionHistory {B} (proj : World -> B) :
  persistence_frame proj -> keeps proj saveEvolutionHistory.
Proof.
  intros (Hc & Hf & Hg). unfold saveEvolutionHistory.
  repeat first
    [ apply keeps_firstTestPath
    | apply keeps_writeFileSync; assumption
    | apply keeps_gets
    | apply keeps_bind; [|intros ?] ].
Qed.

Lemma persisting_commitChanges {B} (proj : World -> B) message :
  persistence_frame proj -> keeps proj (commitChanges message).
Proof.
  intros (Hc & Hf & Hg). unfold commitChanges.
  apply keeps_if; [apply keeps_ret|].
  apply keeps_try_catch.
  - repeat first
      [ apply keeps_lift | apply keeps_console_log; assumption
      | apply keeps_modify; intros ?; apply Hg
      | apply keeps_bind; [|intros ?] ].
  - intros e. apply keeps_console_error; assumption.
Qed.

(** X26.  In a file system without duplicate names every cycle calls the
    evolver once, with the batch of changes, a current coverage between 0
    and 100 and the configured target; the store of the evolver after the
    cycle is the one that call left, whether the call, the generation of
    test files, the saving of the history or the commit succeeded or threw. *)
Theorem evolveTestSuite_applies_evolution changes w :
  well_formed (fs w) = true ->
  exists current,
    (0 <= current /\ current <= 100)%Q /\
    testEvolver (snd (evolveTestSuite changes w))
    = snd (evolver_evolveTestSuite (testEvolver w) changes current (coverageTarget config)).
Proof.
  intros Hwf. unfold evolveTestSuite.
  rewrite bind_run. cbn [console_log modify].
  set (w0 := set_console (console w ++ [LogInfo "Evolving test suite..."]) w).
  destruct (calculateCurrentCoverage_in_range w0 Hwf) as (current & Hcur & Hrange).
  pose proof (keeps_calculateCurrentCoverage testEvolver
                (conj (fun _ _ => eq_refl) (fun _ _ => eq_refl)) w0) as Hk.
  rewrite bind_run.
  destruct (calculateCurrentCoverage w0) as [r w1]. cbn [fst snd] in Hcur, Hk. subst r.
  exists current. split; [exact Hrange|].
  rewrite bind_run. unfold call_evolveTestSuite.
  rewrite Hk. change (testEvolver w0) with (testEvolver w).
  destruct (evolver_evolveTestSuite (testEvolver w) changes current (coverageTarget config))
    as [[evolution|e] st]; [|reflexivity].
  match goal with |- testEvolver (snd (?m ?x)) = _ =>
    assert (Htail : keeps testEvolver m); [|rewrite (Htail x); reflexivity] end.
  apply keeps_bind; [apply keeps_console_log; reflexivity|]. intros _.
  pose proof frame_p_testEvolver as Hp. pose proof Hp as (Hc & Hf & Hg).
  apply keeps_bind; [apply keeps_modify; intros ?; reflexivity|]. intros _.
  apply keeps_bind.
  { apply keeps_forM. intros change.
    destruct (act_type change);
      first [apply persisting_generateTestCode; exact Hp | apply keeps_ret]. }
  intros _.
  apply keeps_bind; [apply persisting_saveEvolutionHistory; exact Hp|]. intros _.
  apply keeps_if; [apply persisting_commitChanges; exact Hp | apply keeps_ret].
Qed.

(** *** What [getAllFiles] collects *)

Lemma assoc_member {A} name (a : A) es : Fs.assoc name es = Some a -> In (name, a) es.
Proof.
  induction es as [|[k b] es IH]; [discriminate|].
  simpl. destruct (String.eqb_spec k name) as [->|_].
  - intros [= ->]. left. reflexivity.
  - intros H. right. apply IH, H.
Qed.

Lemma walk_file extensions dir name c : forall entries,
  In (name, Fs.File c) entries ->
  existsb (Str.endsWith name) extensions = true ->
  In (dir ++ [name]) (walk extensions dir (Fs.Dir entries)).
Proof.
  induction entries as [|[k e] rest IH]; intros Hin He; [destruct Hin|].
  rewrite walk_cons. destruct Hin as [[= -> ->]|Hin].
  - rewrite He. left. reflexivity.
  - specialize (IH Hin He). destruct e as [c0|sub].
    + destruct (existsb (Str.endsWith k) extensions); [right|]; exact IH.
    + destruct (negb (skipped_dir k)); [apply in_or_app; right|]; exact IH.
Qed.

Lemma walk_subdirectory extensions dir name sub p : forall entries,
  In (name, Fs.Dir sub) entries ->
  skipped_dir name = false ->
  In p (walk extensions (dir ++ [name]) (Fs.Dir sub)) ->
  In p (walk extensions dir (Fs.Dir entries)).
Proof.
  induction entries as [|[k e] rest IH]; intros Hin Hs Hp; [destruct Hin|].
  rewrite walk_cons. destruct Hin as [[= -> ->]|Hin].
  - rewrite Hs. cbn [negb]. apply in_or_app. left. exact Hp.
  - specialize (IH Hin Hs Hp). destruct e as [c0|sub0].
    + destruct (existsb (Str.endsWith k) extensions); [right|]; exact IH.
    + destruct (negb (skipped_dir k)); [apply in_or_app; right|]; exact IH.
Qed.

Lemma walk_complete extensions rel : forall n dir name c,
  Fs.lookup n (rel ++ [name]) = Some (Fs.File c) ->
  Forall (fun seg => skipped_dir seg = false) rel ->
  existsb (Str.endsWith name) extensions = true ->
  In (dir ++ rel ++ [name]) (walk extensions dir n).
Proof.
  induction rel as [|seg rel IH]; intros n dir name c Hl Hrel He; simpl in Hl.
  - destruct n as [c0|es]; [discriminate|].
    destruct (Fs.assoc name es) as [child|] eqn:Ha; [|discriminate].
    injection Hl as ->.
    apply (walk_file extensions dir name c es); [apply assoc_member, Ha | exact He].
  - destruct n as [c0|es]; [discriminate|].
    destruct (Fs.assoc seg es) as [child|] eqn:Ha; [|discriminate].
    inversion Hrel as [|? ? Hseg Hrel']; subst.
    destruct child as [c0|sub].
    + destruct rel; discriminate Hl.
    + apply (walk_subdirectory extensions dir seg sub _ es);
        [apply assoc_member, Ha | exact Hseg |].
      replace (dir ++ (seg :: rel) ++ [name]) with ((dir ++ [seg]) ++ rel ++ [name])
        by (rewrite <- app_assoc; reflexivity).
      apply (IH (Fs.Dir sub) (dir ++ [seg]) name c Hl Hrel' He).
Qed.

Lemma getAllFiles_complete root dir extensions rel name c :
  is_file root (dir ++ rel ++ [name]) c ->
  Forall (fun seg => skipped_dir seg = false) rel ->
  existsb (Str.endsWith name) extensions = true ->
  In (dir ++ rel ++ [name]) (getAllFiles_in root dir extensions).
Proof.
  unfold is_file, getAllFiles_in. rewrite lookup_app.
  destruct (Fs.lookup root dir) as [[c0|entries]|]; [| |discriminate].
  - destruct rel; discriminate.
  - intros Hl Hrel He. apply (walk_complete extensions rel _ dir name c Hl Hrel He).
Qed.

Lemma is_test_name_extensions name :
  existsb (Str.endsWith name) [".test.js"; ".spec.js"] = is_test_name name.
Proof. unfold is_test_name. simpl. rewrite orb_false_r. reflexivity. Qed.

(** C9 (as amended).  [calculateCurrentCoverage] returns 0 whenever
    [getAllFiles] collects no test file from the configured test paths,
    without looking at the sources; otherwise, the collected files being
    readable - as they are in a file system without duplicate names - it
    returns the arithmetic mean of the coverage of the collected test
    files, one term for each time a file is collected.  What is collected
    from a test path: the path itself, whatever its name, when it is a
    regular file; and below a directory every regular file whose name ends
    in [.test.js] or [.spec.js], at any depth, that is reached through no
    directory whose name starts with a dot or is [node_modules] - and
    nothing else. *)
Theorem calculateCurrentCoverage_spec w :
  (collectedTests (fs w) = [] -> fst (calculateCurrentCoverage w) = Ok 0%Q) /\
  (forall contents testContents,
     collectedTests (fs w) <> [] ->
     Forall2 (is_file (fs w)) (collectedSources (fs w)) contents ->
     Forall2 (is_file (fs w)) (collectedTests (fs w)) testContents ->
     fst (calculateCurrentCoverage w)
     = Ok (mean (map (fun tc => coverage_value tc
                                  (inventory (collectedSources (fs w)) contents))
                     testContents))) /\
  (well_formed (fs w) = true ->
     exists contents testContents,
       Forall2 (is_file (fs w)) (collectedSources (fs w)) contents /\
       Forall2 (is_file (fs w)) (collectedTests (fs w)) testContents) /\
  (forall testPath c,
     In testPath (testPaths config) ->
     is_file (fs w) testPath c ->
     In testPath (collectedTests (fs w))) /\
  (forall testPath rel name c,
     In testPath (testPaths config) ->
     is_file (fs w) (testPath ++ rel ++ [name]) c ->
     is_test_name name = true ->
     Forall (fun seg => skipped_dir seg = false) rel ->
     In (testPath ++ rel ++ [name]) (collectedTests (fs w))) /\
  (forall p,
     In p (collectedTests (fs w)) ->
     exists testPath,
       In testPath (testPaths config) /\
       ((p = testPath /\ exists c, is_file (fs w) testPath c) \/
        (exists entries rel name,
           Fs.lookup (fs w) testPath = Some (Fs.Dir entries) /\
           p = testPath ++ rel ++ [name] /\
           is_test_name name = true /\
           Forall (fun seg => skipped_dir seg = false) rel))).
Proof.
  split; [|split; [|split; [|split; [|split]]]].
  - unfold calculateCurrentCoverage, bind.
    rewrite collectSourceFiles_run. cbn [app].
    fold (collectedSources (fs w)).
    intros Hnone.
    assert (Hrun : forall paths acc w0,
      flat_map (fun p => getAllFiles_in (fs w0) p [".test.js"; ".spec.js"]) paths = [] ->
      coverTestPaths paths (collectedSources (fs w)) acc w0 = (Ok acc, w0)).
    { induction paths as [|p paths IH]; intros acc w0 Hp; simpl; [reflexivity|].
      simpl in Hp. apply app_eq_nil in Hp as [Hp1 Hp2].
      unfold bind, existsSync, getAllFiles, gets. cbn [fst snd].
      destruct (Fs.existsSync (fs w0) p); [rewrite Hp1; simpl|]; apply IH, Hp2. }
    rewrite Hrun by exact Hnone. reflexivity.
  - unfold calculateCurrentCoverage, bind.
    rewrite collectSourceFiles_run. cbn [app].
    fold (collectedSources (fs w)).
    intros contents testContents Hsome Hs Ht.
    destruct (coverTestPaths_run (collectedSources (fs w)) contents (testPaths config)
                testContents (0%Q, 0%nat) w Hs Ht) as (w' & Hrun & _).
    rewrite Hrun. cbn [fst snd ret Nat.add].
    destruct (Nat.eqb_spec (length testContents) 0) as [Hz|Hnz].
    + apply Forall2_length in Ht. destruct (collectedTests (fs w)); [congruence|].
      simpl in Ht. lia.
    + unfold mean, Qsum. rewrite length_map. reflexivity.
  - intros Hwf.
    destruct (collected_readable (fs w) (watchPaths config) [".js"; ".ts"] Hwf)
      as [contents Hs].
    destruct (collected_readable (fs w) (testPaths config) [".test.js"; ".spec.js"] Hwf)
      as [testContents Ht].
    exists contents, testContents. split; assumption.
  - intros testPath c Hin Hf. unfold collectedTests.
    apply in_flat_map. exists testPath. split; [exact Hin|].
    unfold getAllFiles_in. unfold is_file in Hf. rewrite Hf. left. reflexivity.
  - intros testPath rel name c Hin Hf Hname Hrel. unfold collectedTests.
    apply in_flat_map. exists testPath. split; [exact Hin|].
    apply (getAllFiles_complete (fs w) testPath _ rel name c Hf Hrel).
    rewrite is_test_name_extensions. exact Hname.
  - intros p Hp. unfold collectedTests in Hp.
    apply in_flat_map in Hp as (testPath & Hin & Hp).
    exists testPath. split; [exact Hin|].
    unfold getAllFiles_in in Hp.
    destruct (Fs.lookup (fs w) testPath) as [[c|entries]|] eqn:Hl; [| |destruct Hp].
    + destruct Hp as [<-|[]]. left. split; [reflexivity|]. exists c. exact Hl.
    + right. destruct (walk_shape _ _ _ _ Hp) as (rel & name & -> & He & Hrel).
      exists entries, rel, name. rewrite is_test_name_extensions in He. auto.
Qed.

(** *** Writing into the test directory *)








(** *** One call of [generateTestCode] *)





(** *** The loop over the actions *)










(** *** The cycle around the loop *)






End Engine.

(** ** Sanity checks of the string and path functions *)

Example includes_ex1 : Str.includes "test('GET /a')" "GET /a" = true.
Proof. reflexivity. Qed.
Example includes_ex2 : Str.includes "" "GET /a" = false.
Proof. reflexivity. Qed.
Example sanitize_ex : Str.sanitize "/api/users/{id}" = "_api_users__id_".
Proof. reflexivity. Qed.
Example upper_ex : Str.toUpperCase "patch" = "PATCH".
Proof. reflexivity. Qed.
Example endsWith_ex : Str.endsWith "a.test.js" ".test.js" = true.
Proof. reflexivity. Qed.
Example extname_ex1 : Fs.extname ["src"; "api.test.js"] = ".js".
Proof. reflexivity. Qed.
Example extname_ex2 : Fs.extname ["src"; ".gitignore"] = "".
Proof. reflexivity. Qed.
Example extname_ex3 : Fs.extname ["src"; "Makefile"] = "".
Proof. reflexivity. Qed.
Example exec_all_ex :
  PyRoutes.exec_all "app" 0
    ("@app.get('/api/users')" +:+ nl +:+ "def f(): pass" +:+ nl +:+
     "@app.post(" +:+ String Str.dquote "/api/users" +:+ String Str.dquote ")")
  = [("get", "/api/users"); ("post", "/api/users")].
Proof. reflexivity. Qed.
Example exec_all_ex2 : PyRoutes.exec_all "router" 0 "@router.put('')@router.patch('/x')" = [("patch", "/x")].
Proof. reflexivity. Qed.

(** ** The properties at sample inputs *)

Lemma calculateCoverage_spec_witness :
  is_file (fs Sample.world) ["tests"; "users.test.js"] "test('GET /users', () => {});" /\
  Forall2 (is_file (fs Sample.world))
          [["src"; "app.js"]; ["src"; "api.py"]]
          ["app.get('/users', h)"; Sample.api_py] /\
  exists v : Q,
    fst (calculateCoverage Sample.babel Sample.this_extractDescription
           ["tests"; "users.test.js"] [["src"; "app.js"]; ["src"; "api.py"]]
           Sample.world) = Ok v /\
    (v == 50)%Q /\ (0 <= v /\ v <= 100)%Q.
Proof.
  assert (H1 : is_file (fs Sample.world) ["tests"; "users.test.js"]
                       "test('GET /users', () => {});") by reflexivity.
  assert (H2 : Forall2 (is_file (fs Sample.world))
                 [["src"; "app.js"]; ["src"; "api.py"]]
                 ["app.get('/users', h)"; Sample.api_py])
    by (repeat constructor).
  split; [exact H1|]. split; [exact H2|].
  destruct (calculateCoverage_spec Sample.babel Sample.this_extractDescription
              Sample.world _ _ _ _ H1 H2) as (v & Hv & _ & Hsome & _ & Hb).
  exists v. split; [exact Hv|]. split; [|exact Hb].
  rewrite Hsome by (vm_compute; discriminate).
  vm_compute. reflexivity.
Defined.

(** C2 (code bug).  The file [src/api.py] differs from the supplied
    previous content, the empty string, and its two endpoints are in the
    cached extraction, so both difference sets are empty; [detectChanges]
    nevertheless reports the file as [added] with both endpoints as
    additions, where any other differing previous content gives nothing. *)
Theorem detectChanges_empty_previous_reports_added :
  let p := ["src"; "api.py"] in
  let w := snd (analyzeFile Sample.babel Sample.this_extractDescription p Sample.world) in
  let get_users := mkEndpoint "/users" "GET" None in
  let post_users := mkEndpoint "/users" "POST" None in
  is_file (fs w) p Sample.api_py /\
  Sample.api_py <> "" /\
  endpointCache w !! p = Some [get_users; post_users] /\
  fst (detectChanges Sample.babel Sample.this_extractDescription p (Some "") w)
  = Ok (Some (mkCodeChange p added [addition get_users; addition post_users] 0)) /\
  fst (detectChanges Sample.babel Sample.this_extractDescription p (Some "# old") w)
  = Ok None.
Proof.
  cbv zeta. split; [reflexivity|]. split; [discriminate|].
  split; [vm_compute; reflexivity|].
  split.
  - rewrite (detectChanges_run_added _ _ _ _ _ Sample.api_py) by reflexivity.
    vm_compute. reflexivity.
  - rewrite (detectChanges_run_modified _ _ _ _ _ Sample.api_py)
      by (reflexivity || discriminate).
    vm_compute. reflexivity.
Qed.

(** C3 (code bug).  The file [src/empty.py] is empty and the supplied
    previous content is the empty string, equal to it; [detectChanges]
    returns a change of type [added] with no entries instead of nothing,
    and does so again when the call is repeated. *)
Theorem detectChanges_empty_file_not_none :
  let p := ["src"; "empty.py"] in
  let run := detectChanges Sample.babel Sample.this_extractDescription p (Some "") in
  is_file (fs Sample.world) p "" /\
  fst (run Sample.world) = Ok (Some (mkCodeChange p added [] 0)) /\
  fst (run (snd (run Sample.world))) = Ok (Some (mkCodeChange p added [] 0)).
Proof.
  cbv zeta. split; [reflexivity|]. split.
  - rewrite (detectChanges_run_added _ _ _ _ _ "") by reflexivity. reflexivity.
  - rewrite (detectChanges_run_added _ _ _ _ _ "").
    + vm_compute. reflexivity.
    + unfold is_file.
      rewrite (keeps_detectChanges _ _ fs _ _ frame_fs). reflexivity.
    + reflexivity.
Qed.

(** C5 (code bug).  After the [unlink] of [src/gone.py] the watcher calls
    the handler with the event [delete]; reading the missing file makes change
    detection throw, the error is logged, and the snapshot of the file is
    still in the map. *)
Theorem handleFileChange_unlink_keeps_snapshot :
  let p := ["src"; "gone.py"] in
  let w' := snd (on_event Sample.babel Sample.this_extractDescription
                   Sample.openai_down Sample.template Sample.config Sample.evolver
                   Sample.json Sample.git ev_unlink p Sample.after_unlink) in
  Fs.lookup (fs Sample.after_unlink) p = None /\
  fileSnapshots Sample.after_unlink !! p = Some "@app.get('/x')" /\
  fileSnapshots w' !! p = Some "@app.get('/x')" /\
  console w' = [LogInfo "File delete: src/gone.py";
                LogError "Error during evolution:" (FsError "ENOENT" p)].
Proof.
  cbv zeta. split; [reflexivity|]. split; [vm_compute; reflexivity|].
  cbn [on_event]. rewrite handleFileChange_missing_file by reflexivity.
  split; [vm_compute; reflexivity | reflexivity].
Qed.

(** The claim C4 as stated fails for an invocation that arrives while a
    cycle is in flight: it completes with the guard still set. *)
Lemma handleFileChange_guard_counterexample :
  ~ (forall w p event,
       isEvolving (snd (handleFileChange Sample.babel Sample.this_extractDescription
                          Sample.openai_down Sample.template Sample.config
                          Sample.evolver Sample.json Sample.git p event w)) = false).
Proof.
  intros H. specialize (H Sample.busy ["src"; "api.py"] "change").
  rewrite handleFileChange_dropped in H by reflexivity. discriminate H.
Qed.

Lemma handleFileChange_releases_guard_witness :
  isEvolving Sample.world = false /\
  fst (handleFileChange Sample.babel Sample.this_extractDescription
         Sample.openai_down Sample.template Sample.config Sample.evolver
         Sample.json Sample.git ["src"; "api.py"] "add" Sample.world) = Ok tt /\
  isEvolving (snd (handleFileChange Sample.babel Sample.this_extractDescription
         Sample.openai_down Sample.template Sample.config Sample.evolver
         Sample.json Sample.git ["src"; "api.py"] "add" Sample.world)) = false.
Proof.
  split; [reflexivity|].
  apply (proj1 (handleFileChange_releases_guard Sample.babel Sample.this_extractDescription
         Sample.openai_down Sample.template Sample.config Sample.evolver
         Sample.json Sample.git Sample.world ["src"; "api.py"] "add")).
  reflexivity.
Defined.



Lemma analyzeJavaScript_fails_closed_witness :
  (exists endpoints,
     fst (analyzeJavaScript Sample.babel Sample.this_extractDescription
            "app.get(" ["src"; "app.js"] Sample.world) = Ok endpoints /\
     endpoints = [] /\
     console (snd (analyzeJavaScript Sample.babel Sample.this_extractDescription
                     "app.get(" ["src"; "app.js"] Sample.world))
     = [LogError "Error parsing src/app.js:" (SyntaxError "Unexpected token")]) /\
  is_file (fs Sample.world) ["src"; "README.md"] "# API" /\
  analyzeFile Sample.babel Sample.this_extractDescription ["src"; "README.md"] Sample.world
  = (Ok [], Sample.world).
Proof.
  pose proof (analyzeJavaScript_fails_closed Sample.babel Sample.this_extractDescription)
    as [Hjs Hother].
  split.
  - destruct (Hjs "app.get(" ["src"; "app.js"] Sample.world)
      as (endpoints & Hr & _ & Hempty & Hlog & _).
    exists endpoints. split; [exact Hr|].
    split; [apply (Hempty (SyntaxError "Unexpected token")); reflexivity|].
    apply (Hlog (SyntaxError "Unexpected token")). reflexivity.
  - split; [reflexivity|].
    apply (Hother ["src"; "README.md"] "# API" Sample.world);
      [reflexivity | discriminate | discriminate | discriminate].
Defined.

Lemma TestGenerator_generateTestCode_falls_back_witness :
  openai_configured Sample.config_ai = true /\
  openai_configured Sample.config = false /\
  TestGenerator_generateTestCode Sample.openai_down Sample.template Sample.config_ai
    Sample.get_users Sample.world
  = (Ok "// GET /users",
     set_console [LogError "AI generation failed:" (ExternalError "connect ECONNREFUSED")]
                 Sample.world) /\
  TestGenerator_generateTestCode Sample.openai_down Sample.template Sample.config
    Sample.get_users Sample.world
  = (Ok "// GET /users", Sample.world).
Proof.
  split; [reflexivity|]. split; [reflexivity|]. split.
  - destruct (TestGenerator_generateTestCode_falls_back Sample.openai_down Sample.template
                Sample.config_ai Sample.get_users Sample.world)
      as (_ & _ & Hthrow & _).
    apply (Hthrow eq_refl (ExternalError "connect ECONNREFUSED")). reflexivity.
  - destruct (TestGenerator_generateTestCode_falls_back Sample.openai_down Sample.template
                Sample.config Sample.get_users Sample.world)
      as (_ & Hoff & _).
    apply Hoff. reflexivity.
Defined.

(** The claim C9 as stated fails in both directions.  With a test path that
    is a regular file not named [*.test.js] or [*.spec.js], no such file
    exists under the test paths and the result is 100, not 0.  With a test
    file that exists under the test path inside [node_modules], the result
    is 0 although the coverage of that file is 100. *)
Lemma calculateCurrentCoverage_counterexample :
  let w_file := set_fs Sample.root_file Sample.world in
  let w_hidden := set_fs Sample.root_hidden Sample.world in
  (test_files_under Sample.root_file ["tests"; "suite.js"] = [] /\
   fst (calculateCurrentCoverage Sample.babel Sample.this_extractDescription
          Sample.config_file w_file) = Ok 100%Q) /\
  (test_files_under Sample.root_hidden ["tests"]
   = [["tests"; "node_modules"; "dep.test.js"]] /\
   fst (calculateCoverage Sample.babel Sample.this_extractDescription
          ["tests"; "node_modules"; "dep.test.js"] [] w_hidden) = Ok 100%Q /\
   fst (calculateCurrentCoverage Sample.babel Sample.this_extractDescription
          Sample.config w_hidden) = Ok 0%Q).
Proof.
  cbv zeta. repeat split; vm_compute; reflexivity.
Qed.

Lemma calculateCurrentCoverage_spec_witness :
  well_formed (fs Nested.world) = true /\
  In ["tests"; "unit"; "api"; "users.test.js"] (collectedTests Sample.config (fs Nested.world)) /\
  collectedTests Sample.config (fs Nested.world)
  = [["tests"; "unit"; "api"; "users.test.js"]; ["tests"; "e2e"; "orders.spec.js"]] /\
  collectedSources Sample.config (fs Nested.world) = [["src"; "app.js"]] /\
  (exists v,
     fst (calculateCurrentCoverage Sample.babel Sample.this_extractDescription
            Sample.config Nested.world) = Ok v /\
     (v == 50)%Q) /\
  In ["tests"; "suite.js"]
     (collectedTests Sample.config_file (fs (set_fs Sample.root_file Sample.world))).
Proof.
  split; [reflexivity|].
  destruct (calculateCurrentCoverage_spec Sample.babel Sample.this_extractDescription
              Sample.config Nested.world) as (_ & Hmean & _ & _ & Hdeep & _).
  split.
  { apply (Hdeep ["tests"] ["unit"; "api"] "users.test.js" "test('GET /users', () => {});").
    - left. reflexivity.
    - reflexivity.
    - reflexivity.
    - repeat constructor. }
  split; [reflexivity|]. split; [reflexivity|].
  split.
  { eexists. split.
    - apply (Hmean ["app.get('/users', h)"]
                   ["test('GET /users', () => {});"; "test('GET /orders', () => {});"]).
      + discriminate.
      + repeat constructor.
      + repeat constructor.
    - vm_compute. reflexivity. }
  destruct (calculateCurrentCoverage_spec Sample.babel Sample.this_extractDescription
              Sample.config_file (set_fs Sample.root_file Sample.world))
    as (_ & _ & _ & Hfile & _).
  apply (Hfile ["tests"; "suite.js"] "test('GET /users', () => {});").
  - left. reflexivity.
  - reflexivity.
Defined.

Lemma getMetrics_spec_witness :
  evolutionHistory (testEvolver Sample.world) = [] /\
  coverage (getMetrics Sample.world) = 0%Q /\
  lastEvolution (getMetrics Sample.world) = None /\
  totalTests (getMetrics Sample.world) = 0%nat.
Proof.
  destruct (getMetrics_spec Sample.world) as (Ht & _ & _ & _ & Hempty).
  split; [reflexivity|].
  destruct (Hempty eq_refl) as [Hc Hl].
  split; [exact Hc|]. split; [exact Hl|]. exact Ht.
Defined.

(** ** Further properties at sample inputs *)

Example groupedTests_ex :
  groupedTests [Sample.get_users; Scenario.get_orders; Sample.post_users; Scenario.put_users]
  = [("/users", [Sample.get_users; Sample.post_users; Scenario.put_users]);
     ("/orders", [Scenario.get_orders])].
Proof. reflexivity. Qed.

Example pathToAccessor_ex : pathToAccessor "data.users[0].name" = ".datausers[0].name".
Proof. reflexivity. Qed.

Example getAllFiles_ex :
  getAllFiles_in Scenario.root ["src"] code_extensions
  = [["src"; "app.js"]; ["src"; "view.tsx"]; ["src"; "routes"; "api.py"]].
Proof. reflexivity. Qed.

Lemma python_endpoints_sound_witness :
  In (mkEndpoint "/users" "POST" None) (python_endpoints Sample.api_py) /\
  quote_free "/users" = true /\
  exists obj m q q',
    (obj = "app" \/ obj = "router") /\
    In m PyRoutes.http_methods /\
    "POST" = Str.toUpperCase m /\
    PyRoutes.is_quote q = true /\ PyRoutes.is_quote q' = true /\
    Str.includes Sample.api_py (decorator_text obj m q "/users" q') = true.
Proof.
  assert (H : In (mkEndpoint "/users" "POST" None) (python_endpoints Sample.api_py))
    by (right; left; reflexivity).
  split; [exact H|].
  destruct (python_endpoints_sound Sample.api_py _ H) as (_ & _ & Hf & Hex).
  split; [exact Hf | exact Hex].
Defined.

Lemma python_first_decorator_found_witness :
  head (python_endpoints
          ("# routes" +:+ decorator_text "app" "put" "'"%char "/users/{id}" Str.dquote +:+
           " def f(): pass"))
  = Some (mkEndpoint "/users/{id}" "PUT" None).
Proof.
  refine (proj2 (python_first_decorator_found "app" "# routes" "put" "'"%char
                   "/users/{id}" Str.dquote " def f(): pass" _ _ _ _ _ _ _) eq_refl).
  - left. reflexivity.
  - repeat (constructor; [discriminate|]). constructor.
  - right. right. left. reflexivity.
  - reflexivity.
  - reflexivity.
  - discriminate.
  - reflexivity.
Defined.

Lemma analyzeJavaScript_needs_descriptions_witness :
  Sample.babel "app.get('/users', h)" = Ok [Sample.users_route] /\
  fst (analyzeJavaScript Sample.babel Scenario.unbound_this "app.get('/users', h)"
         ["src"; "app.js"] Sample.world) = Ok [].
Proof.
  split; [reflexivity|].
  apply analyzeJavaScript_needs_descriptions.
  intros q. eexists. reflexivity.
Defined.

Lemma analyzeFile_caches_result_witness :
  let w' := snd (analyzeFile Sample.babel Sample.this_extractDescription
                   ["src"; "api.py"] Sample.world) in
  is_file (fs Sample.world) ["src"; "api.py"] Sample.api_py /\
  endpointCache w' !! ["src"; "api.py"]
  = Some [mkEndpoint "/users" "GET" None; mkEndpoint "/users" "POST" None] /\
  endpointCache w' !! ["src"; "app.js"] = None.
Proof.
  assert (Hf : is_file (fs Sample.world) ["src"; "api.py"] Sample.api_py) by reflexivity.
  destruct (analyzeFile_caches_result Sample.babel Sample.this_extractDescription
              Sample.world ["src"; "api.py"] Sample.api_py Hf) as (_ & Hsup & _).
  destruct (Hsup eq_refl) as [Hself Hother].
  split; [exact Hf|]. split; [exact Hself|].
  rewrite Hother by discriminate. reflexivity.
Defined.

Lemma detectChanges_modified_diff_witness :
  fst (detectChanges Sample.babel Sample.this_extractDescription
         ["src"; "api.py"] (Some "# old") Sample.world)
  = Ok (Some (mkCodeChange ["src"; "api.py"] modified
                [addition (mkEndpoint "/users" "GET" None);
                 addition (mkEndpoint "/users" "POST" None)] 0)).
Proof.
  destruct (detectChanges_modified_diff Sample.babel Sample.this_extractDescription
              Sample.world ["src"; "api.py"] "# old" Sample.api_py)
    as (Hsome & _); [reflexivity | discriminate | discriminate |].
  rewrite Hsome by (vm_compute; discriminate).
  vm_compute. reflexivity.
Defined.

Lemma detectChanges_second_call_none_witness :
  let run := detectChanges Sample.babel Sample.this_extractDescription
               ["src"; "api.py"] (Some "# old") in
  fst (run Sample.world) <> Ok None /\
  fst (run (snd (run Sample.world))) = Ok None.
Proof.
  cbv zeta. split.
  - vm_compute. discriminate.
  - apply (detectChanges_second_call_none Sample.babel Sample.this_extractDescription
             Sample.world ["src"; "api.py"] "# old" Sample.api_py);
      [reflexivity | discriminate | discriminate | reflexivity].
Defined.

Lemma detectChanges_unchanged_repeated_witness :
  detectChanges Sample.babel Sample.this_extractDescription ["src"; "api.py"]
    (Some Sample.api_py)
    (Nat.iter 3 (fun w' => snd (detectChanges Sample.babel Sample.this_extractDescription
                                  ["src"; "api.py"] (Some Sample.api_py) w'))
              Sample.world)
  = (Ok None, Sample.world).
Proof.
  apply (detectChanges_unchanged_repeated Sample.babel Sample.this_extractDescription 3
           Sample.world ["src"; "api.py"] Sample.api_py); [reflexivity | discriminate].
Defined.

Lemma detectChanges_after_coverage_none_witness :
  fst (detectChanges Sample.babel Sample.this_extractDescription
         ["src"; "api.py"] (Some "# old") Sample.world) <> Ok None /\
  fst (detectChanges Sample.babel Sample.this_extractDescription
         ["src"; "api.py"] (Some "# old")
         (snd (calculateCoverage Sample.babel Sample.this_extractDescription
                 ["tests"; "users.test.js"] [["src"; "app.js"]; ["src"; "api.py"]]
                 Sample.world)))
  = Ok None.
Proof.
  split.
  - vm_compute. discriminate.
  - apply (detectChanges_after_coverage_none Sample.babel Sample.this_extractDescription
             Sample.world ["tests"; "users.test.js"] "test('GET /users', () => {});"
             [["src"; "app.js"]; ["src"; "api.py"]]
             ["app.get('/users', h)"; Sample.api_py]
             ["src"; "api.py"] Sample.api_py "# old").
    + reflexivity.
    + repeat constructor.
    + right. left. reflexivity.
    + reflexivity.
    + reflexivity.
    + discriminate.
    + discriminate.
Defined.

Lemma calculateCoverage_monotone_witness :
  exists v1 v2,
    fst (calculateCoverage Sample.babel Sample.this_extractDescription
           ["tests"; "users.test.js"] [["src"; "routes"; "api.py"]] Scenario.world) = Ok v1 /\
    fst (calculateCoverage Sample.babel Sample.this_extractDescription
           ["tests"; "all.test.js"] [["src"; "routes"; "api.py"]] Scenario.world) = Ok v2 /\
    (v1 <= v2)%Q.
Proof.
  apply (calculateCoverage_monotone Sample.babel Sample.this_extractDescription
           Scenario.world
           ["tests"; "users.test.js"] "test('GET /users', () => {});"
           ["tests"; "all.test.js"] "test('GET /users', () => {}); test('POST /users')"
           [["src"; "routes"; "api.py"]] [Sample.api_py]).
  - reflexivity.
  - reflexivity.
  - repeat constructor.
  - reflexivity.
Defined.

Lemma testedEndpoints_prefix_path_witness :
  let all : gset string := {[ "GET /users" ]} ∪ {[ "GET /users/{id}" ]} in
  display Scenario.get_user ∈ testedEndpoints "test('GET /users/{id}')" all /\
  display Scenario.get_users ∈ testedEndpoints "test('GET /users/{id}')" all.
Proof.
  cbv zeta.
  assert (H2 : display Scenario.get_user
               ∈ testedEndpoints "test('GET /users/{id}')"
                   ({[ "GET /users" ]} ∪ {[ "GET /users/{id}" ]} : gset string)).
  { apply elem_of_filter. split; [reflexivity|].
    apply elem_of_union_r, elem_of_singleton. reflexivity. }
  split; [exact H2|].
  apply (testedEndpoints_prefix_path _ _ Scenario.get_users Scenario.get_user "/{id}").
  - reflexivity.
  - reflexivity.
  - apply elem_of_union_l, elem_of_singleton. reflexivity.
  - exact H2.
Defined.

Lemma calculateCoverage_full_witness :
  exists v,
    fst (calculateCoverage Sample.babel Sample.this_extractDescription
           ["tests"; "users.test.js"] [["src"; "app.js"]] Sample.world) = Ok v /\
    (v == 100)%Q.
Proof.
  destruct (calculateCoverage_full Sample.babel Sample.this_extractDescription
              Sample.world ["tests"; "users.test.js"] "test('GET /users', () => {});"
              [["src"; "app.js"]] ["app.get('/users', h)"])
    as (v & Hv & Hiff); [reflexivity | repeat constructor |].
  exists v. split; [exact Hv|]. apply Hiff. intros d Hd.
  unfold inventory in Hd. apply elem_of_list_to_set, list_elem_of_In in Hd.
  vm_compute in Hd. destruct Hd as [<-|[]]. reflexivity.
Defined.

Lemma getAllFiles_shape_witness :
  In ["src"; "routes"; "api.py"] (getAllFiles_in Scenario.root ["src"] code_extensions) /\
  exists rel name,
    ["src"; "routes"; "api.py"] = ["src"] ++ rel ++ [name] /\
    existsb (Str.endsWith name) code_extensions = true /\
    Forall (fun seg => skipped_dir seg = false) rel.
Proof.
  assert (H : In ["src"; "routes"; "api.py"]
                 (getAllFiles_in Scenario.root ["src"] code_extensions))
    by (right; right; left; reflexivity).
  split; [exact H|].
  eapply (proj2 (proj2 (getAllFiles_shape Scenario.root ["src"] code_extensions)));
    [reflexivity | exact H].
Defined.

Lemma getAllFiles_readable_witness :
  well_formed Scenario.root = true /\
  (exists c, is_file Scenario.root ["src"; "routes"; "api.py"] c) /\
  exists rel, ["src"; "routes"; "api.py"] = ["src"] ++ rel.
Proof.
  split; [reflexivity|].
  apply (getAllFiles_readable Scenario.root ["src"] code_extensions);
    [reflexivity | right; right; left; reflexivity].
Defined.

Lemma analyzeDirectory_spec_witness :
  analyzeDirectory Sample.babel Sample.this_extractDescription ["lib"] Scenario.world
  = (Throw (FsError "ENOENT" ["lib"]), Scenario.world) /\
  exists contents,
    Forall2 (is_file (fs Scenario.world))
            (getAllFiles_in (fs Scenario.world) ["src"] code_extensions) contents /\
    fst (analyzeDirectory Sample.babel Sample.this_extractDescription ["src"] Scenario.world)
    = Ok (concat (zip_with (endpoints_of Sample.babel Sample.this_extractDescription)
                    (getAllFiles_in (fs Scenario.world) ["src"] code_extensions) contents)).
Proof.
  destruct (analyzeDirectory_spec Sample.babel Sample.this_extractDescription
              Scenario.world ["lib"]) as (Hmissing & _).
  split; [apply Hmissing; reflexivity|].
  eapply (proj2 (proj2 (analyzeDirectory_spec Sample.babel Sample.this_extractDescription
                          Scenario.world ["src"]))); reflexivity.
Defined.

Lemma calculateCurrentCoverage_bounds_witness :
  well_formed (fs Scenario.world) = true /\
  exists v,
    fst (calculateCurrentCoverage Sample.babel Sample.this_extractDescription
           Sample.config Scenario.world) = Ok v /\
    (0 <= v /\ v <= 100)%Q.
Proof.
  split; [reflexivity|].
  apply (proj1 (calculateCurrentCoverage_bounds Sample.babel Sample.this_extractDescription
                  Sample.config Scenario.world eq_refl)).
Defined.

Lemma handleFileChange_stores_snapshot_witness :
  fileSnapshots Sample.world !! ["src"; "api.py"] = None /\
  fileSnapshots
    (snd (handleFileChange Sample.babel Sample.this_extractDescription
            Sample.openai_down Sample.template Sample.config Sample.evolver
            Sample.json Sample.git ["src"; "api.py"] "add" Sample.world))
    !! ["src"; "api.py"] = Some Sample.api_py.
Proof.
  split; [reflexivity|].
  rewrite (handleFileChange_stores_snapshot Sample.babel Sample.this_extractDescription
             Sample.openai_down Sample.template Sample.config Sample.evolver
             Sample.json Sample.git Sample.world ["src"; "api.py"] "add" Sample.api_py
             (mkCodeChange ["src"; "api.py"] added
                [addition (mkEndpoint "/users" "GET" None);
                 addition (mkEndpoint "/users" "POST" None)] 0)).
  - apply lookup_insert_eq.
  - reflexivity.
  - discriminate.
  - reflexivity.
  - vm_compute. reflexivity.
Defined.

Lemma handleFileChange_unchanged_file_witness :
  fileSnapshots Scenario.watched !! ["src"; "api.py"] = Some Sample.api_py /\
  handleFileChange Sample.babel Sample.this_extractDescription
    Sample.openai_down Sample.template Sample.config Sample.evolver
    Sample.json Sample.git ["src"; "api.py"] "change" Scenario.watched
  = (Ok tt, set_console [LogInfo "File change: src/api.py"] Scenario.watched).
Proof.
  assert (H : fileSnapshots Scenario.watched !! ["src"; "api.py"] = Some Sample.api_py)
    by (vm_compute; reflexivity).
  split; [exact H|].
  apply (handleFileChange_unchanged_file Sample.babel Sample.this_extractDescription
           Sample.openai_down Sample.template Sample.config Sample.evolver
           Sample.json Sample.git Scenario.watched ["src"; "api.py"] "change" Sample.api_py);
    [reflexivity | exact H | reflexivity | discriminate].
Defined.

Lemma commitChanges_never_throws_witness :
  commitChanges Scenario.config_git Scenario.git_down "Code changes detected" Sample.world
  = (Ok tt,
     set_console [LogError "Git commit failed:" (ExternalError "not a git repository")]
                 Sample.world) /\
  commitChanges Sample.config Scenario.git_down "Code changes detected" Sample.world
  = (Ok tt, Sample.world).
Proof.
  destruct (commitChanges_never_throws Scenario.config_git Scenario.git_down
              "Code changes detected" Sample.world) as (Hok & _ & Hfail & _).
  destruct (commitChanges_never_throws Sample.config Scenario.git_down
              "Code changes detected" Sample.world) as (Hok' & Hoff & _).
  split.
  - apply injective_projections; [exact Hok|].
    apply (Hfail eq_refl (ExternalError "not a git repository")). reflexivity.
  - apply injective_projections; [exact Hok' | apply Hoff; reflexivity].
Defined.

Lemma saveEvolutionHistory_spec_witness :
  is_file (fs Scenario.world) ["tests"; ".evolution-history.json"] "[]" /\
  fst (saveEvolutionHistory Sample.config (fun _ => "[{version: 1}]") Scenario.world)
  = Ok tt /\
  is_file (fs (snd (saveEvolutionHistory Sample.config (fun _ => "[{version: 1}]")
                      Scenario.world)))
          ["tests"; ".evolution-history.json"] "[{version: 1}]" /\
  (exists e, saveEvolutionHistory Scenario.config_no_tests Sample.json Scenario.world
             = (Throw e, Scenario.world)) /\
  (exists e, saveEvolutionHistory Scenario.config_fresh Sample.json Scenario.world
             = (Throw e, Scenario.world)).
Proof.
  split; [reflexivity|].
  destruct (saveEvolutionHistory_spec Sample.config (fun _ => "[{version: 1}]")
              Scenario.world) as (_ & _ & Hwrite).
  destruct (saveEvolutionHistory_spec Scenario.config_no_tests Sample.json Scenario.world)
    as (Hnone & _).
  destruct (saveEvolutionHistory_spec Scenario.config_fresh Sample.json Scenario.world)
    as (_ & Hmissing & _).
  edestruct (Hwrite ["tests"] []) as [Hok Hfile];
    [reflexivity | reflexivity | intros sub; vm_compute; discriminate |].
  split; [exact Hok|]. split; [exact Hfile|]. split.
  - apply Hnone. reflexivity.
  - eapply Hmissing; reflexivity.
Defined.

Lemma generateTestCode_creates_directory_witness :
  Fs.lookup (fs Sample.world) ["generated"; "tests"] = None /\
  fst (generateTestCode Sample.openai_down Sample.template Scenario.config_fresh
         Sample.get_users Sample.world) = Ok tt /\
  is_file (fs (snd (generateTestCode Sample.openai_down Sample.template
                      Scenario.config_fresh Sample.get_users Sample.world)))
          ["generated"; "tests"; "_users.test.js"] "// GET /users".
Proof.
  split; [reflexivity|].
  edestruct (generateTestCode_creates_directory Sample.openai_down Sample.template
               Scenario.config_fresh Sample.get_users Sample.world)
    as (code & Hcode & Hok & Hfile); [reflexivity | reflexivity | reflexivity |].
  split; [exact Hok|].
  assert (Hc : code = "// GET /users").
  { assert (Hrun : fst (TestGenerator_generateTestCode Sample.openai_down Sample.template
                          Scenario.config_fresh Sample.get_users Sample.world)
                   = Ok "// GET /users") by reflexivity.
    congruence. }
  rewrite <- Hc. exact Hfile.
Defined.

Lemma pathToAccessor_spec_witness :
  pathToAccessor "data.user.name" = ".data.user.name" /\
  pathToAccessor "users[0]" = "users[0]" /\
  pathToAccessor ("data" +:+ "." +:+ "users[0]") = ".data" +:+ "users[0]".
Proof.
  destruct pathToAccessor_spec as (Hplain & Hbracket & Hjoin).
  split; [apply Hplain; reflexivity|]. split.
  - apply Hbracket; [|reflexivity].
    repeat (constructor; [discriminate|]). constructor.
  - rewrite Hjoin, (Hplain "data") by reflexivity.
    rewrite (Hbracket "users[0]"); [reflexivity | | reflexivity].
    repeat (constructor; [discriminate|]). constructor.
Defined.

Lemma detectChanges_new_file_witness :
  is_file (fs Sample.world) ["src"; "README.md"] "# API" /\
  fst (detectChanges Sample.babel Sample.this_extractDescription
         ["src"; "README.md"] None Sample.world)
  = Ok (Some (mkCodeChange ["src"; "README.md"] added [] 0)).
Proof.
  split; [reflexivity|].
  apply (proj2 (detectChanges_new_file Sample.babel Sample.this_extractDescription
                  Sample.world ["src"; "README.md"] "# API" eq_refl)).
  reflexivity.
Defined.

Lemma evolveTestSuite_applies_evolution_witness :
  let change := mkCodeChange ["src"; "api.py"] added
                  [addition (mkEndpoint "/users" "GET" None)] 0 in
  fst (evolveTestSuite Sample.babel Sample.this_extractDescription Sample.openai_down
         Sample.template Scenario.config_no_tests Sample.evolver Sample.json Sample.git
         [change] Sample.world)
  = Throw (TypeError "The path argument must be of type string") /\
  exists current,
    (0 <= current /\ current <= 100)%Q /\
    testEvolver (snd (evolveTestSuite Sample.babel Sample.this_extractDescription
                        Sample.openai_down Sample.template Scenario.config_no_tests
                        Sample.evolver Sample.json Sample.git [change] Sample.world))
    = snd (Sample.evolver (testEvolver Sample.world) [change] current 80).
Proof.
  cbv zeta. split; [vm_compute; reflexivity|].
  apply (evolveTestSuite_applies_evolution Sample.babel Sample.this_extractDescription
           Sample.openai_down Sample.template Scenario.config_no_tests Sample.evolver
           Sample.json Sample.git).
  reflexivity.
Defined.

(** ** A whole cycle, evaluated *)

Example evolveTestSuite_sample_cycle :
  Fs.lookup
    (fs (snd (evolveTestSuite Sample.babel Sample.this_extractDescription
                Sample.openai_down Sample.template Sample.config Sample.evolver
                Sample.json Sample.git [Nested.users_added; Nested.orders_added]
                Sample.world)))
    ["tests"]
  = Some (Fs.Dir [("users.test.js", Fs.File "test('GET /users', () => {});");
                  ("orders.spec.js", Fs.File "test('GET /orders', () => {});");
                  ("_users.test.js", Fs.File "// POST /users");
                  ("_orders.test.js", Fs.File "// GET /orders");
                  (".evolution-history.json", Fs.File "[]")]).
Proof. vm_compute. reflexivity. Qed.

Example getAllFiles_nested :
  getAllFiles_in Nested.root ["tests"] [".test.js"; ".spec.js"]
  = [["tests"; "unit"; "api"; "users.test.js"]; ["tests"; "e2e"; "orders.spec.js"]].
Proof. reflexivity. Qed.
